(** * Verification of the aggregation layer of the Tezos Domains dashboard

    The module [tezosService] (fetch helpers, [hexToUtf8], [pct], [getStats],
    [getRecentActivity], [getGrowthData], [getTopHolders]) is embedded as Rocq
    functions over a model of the JavaScript values it manipulates:
    - strings are sequences of UTF-16 code units;
    - numbers are IEEE-754 binary64 values ([spec_float], 53-bit mantissa);
    - values parsed from JSON are a tagged union ([value]);
    - code that may throw returns a [result];
    - everything the host supplies (clock, time zone, network, locale
      collation, date parsing of free-form text, JSON parsing) is a field of
      the record [Host]. *)

From Stdlib Require Import ZArith List Bool Lia String Ascii.
From Stdlib Require Import SpecFloat DecimalString DecimalZ Sorted Permutation.
Import ListNotations.
Local Open Scope Z_scope.

(** ** Exceptions *)

(** [Unmodelled] marks the one situation the embedding does not follow: a
    plain object of the module ([buckets], [counts]) read at a key that names
    a member of [Object.prototype].  A function that returns [Ok] or throws
    one of the three JavaScript errors behaves so in JavaScript. *)
Inductive exn : Type := TypeError | RangeError | SyntaxError | Unmodelled.

Inductive result (A : Type) : Type :=
| Ok (a : A)
| Throw (e : exn).
Arguments Ok {A} a.
Arguments Throw {A} e.

Definition bind {A B : Type} (r : result A) (k : A -> result B) : result B :=
  match r with
  | Ok a => k a
  | Throw e => Throw e
  end.

Notation "x <- r ;; k" := (bind r (fun x => k))
  (at level 61, r at next level, right associativity).

(** [try { body } catch { handler }] *)
Definition try_catch {A : Type} (body : result A) (handler : A) : A :=
  match body with
  | Ok a => a
  | Throw _ => handler
  end.

Fixpoint mapM {A B : Type} (f : A -> result B) (l : list A) : result (list B) :=
  match l with
  | [] => Ok []
  | a :: l' => b <- f a ;; bs <- mapM f l' ;; Ok (b :: bs)
  end.

Fixpoint foldM {A S : Type} (f : S -> A -> result S) (l : list A) (s : S)
  : result S :=
  match l with
  | [] => Ok s
  | a :: l' => s' <- f s a ;; foldM f l' s'
  end.

(** ** Strings: sequences of UTF-16 code units *)

Definition jsstring : Type := list Z.

Definition lit (s : string) : jsstring :=
  map (fun a => Z.of_nat (nat_of_ascii a)) (list_ascii_of_string s).

Definition jsstring_eqb (a b : jsstring) : bool :=
  if list_eq_dec Z.eq_dec a b then true else false.

(** Decimal numeral of an integer, as [Number::toString] prints integers. *)
Definition dec (z : Z) : jsstring := lit (NilZero.string_of_int (Z.to_int z)).

(** [String.prototype.slice(0, n)] and [Array.prototype.slice(0, n)]. *)
Definition slice0 {A : Type} (n : nat) (l : list A) : list A := firstn n l.

(** ** Numbers: IEEE-754 binary64 *)

(** A number is a [spec_float] in canonical form; the operations below keep
    it so. *)
Definition number : Type := spec_float.

Definition prec : Z := 53.
Definition emax : Z := 1024.

Definition num_zero : number := S754_zero false.
Definition NaN : number := S754_nan.
Definition num_of_Z (z : Z) : number := binary_normalize prec emax z 0 false.
Definition num_add : number -> number -> number := SFadd prec emax.
Definition num_sub : number -> number -> number := SFsub prec emax.
Definition num_mul : number -> number -> number := SFmul prec emax.
Definition num_div : number -> number -> number := SFdiv prec emax.
(** [a === b], [a < b], [a <= b] on numbers. *)
Definition num_eqb : number -> number -> bool := SFeqb.
Definition num_ltb : number -> number -> bool := SFltb.
Definition num_leb : number -> number -> bool := SFleb.

Definition is_NaN (x : number) : bool :=
  match x with S754_nan => true | _ => false end.

(** [Math.round]: the integral number closest to [x], ties towards +infinity;
    non-finite and integral arguments are returned as they are; a result of
    zero keeps the sign of [x]. *)
Definition Math_round (x : number) : number :=
  match x with
  | S754_finite s m e =>
      if 0 <=? e then x
      else
        let d := Z.pow 2 (- e) in
        if Z.eqb (Z.modulo (Zpos m) d) 0 then x
        else
          let sm := if s then Zneg m else Zpos m in
          let r := Z.div (2 * sm + d) (2 * d) in
          if Z.eqb r 0 then S754_zero s else num_of_Z r
  | _ => x
  end.

(** ** [pct]: the percentage change computed inside [getStats] *)

Definition pct (curr prev : number) : option number :=
  if num_eqb prev num_zero then
    (if num_ltb num_zero curr then Some (num_of_Z 100) else None)
  else
    Some (num_div
            (Math_round
               (num_mul (num_div (num_sub curr prev) prev) (num_of_Z 1000)))
            (num_of_Z 10)).

(** ** Number to string: [Number::toString] (radix 10)

    For a positive finite [x = m * 2^e] the digits are the integer [s] with
    the fewest digits [k] such that [s * 10^(n-k)] rounds to [x]; among those
    the closest to [x]. *)

(** Compares [a * 10^q] with [b * 2^sc]. *)
Definition cmp_dec_bin (a q b sc : Z) : comparison :=
  Z.compare (a * 10 ^ (Z.max q 0) * 2 ^ (Z.max (- sc) 0))
            (b * 2 ^ (Z.max sc 0) * 10 ^ (Z.max (- q) 0)).

(** Does [s * 10^q] round to [m * 2^e] (round to nearest, ties to even)? *)
Definition rounds_to (m e s q : Z) : bool :=
  let sc := e - 2 in
  let lo := if (m =? 2 ^ 52) && (emin prec emax <? e) then 4 * m - 1
            else 4 * m - 2 in
  let hi := 4 * m + 2 in
  match cmp_dec_bin s q lo sc, cmp_dec_bin s q hi sc with
  | Gt, Lt => true
  | Eq, Lt | Gt, Eq => Z.even m
  | _, _ => false
  end.

(** The least [n] with [m * 2^e < 10^n], searched upwards from [n]. *)
Fixpoint decimal_exponent (fuel : nat) (m e n : Z) : Z :=
  match fuel with
  | O => n
  | S fuel' =>
      match cmp_dec_bin 1 n m e with
      | Gt => n
      | _ => decimal_exponent fuel' m e (n + 1)
      end
  end.

(** Candidates with [k] digits and decimal exponent [n]: the two integers
    around [m * 2^e / 10^(n-k)], nearest first. *)
Definition digit_candidates (m e n k : Z) : list (Z * Z) :=
  let q := n - k in
  let num := m * 2 ^ (Z.max e 0) * 10 ^ (Z.max (- q) 0) in
  let den := 2 ^ (Z.max (- e) 0) * 10 ^ (Z.max q 0) in
  let s1 := num / den in
  let s2 := s1 + 1 in
  let ordered :=
    match cmp_dec_bin (s1 + s2) q (2 * m) e with
    | Gt => [s1; s2]
    | Lt => [s2; s1]
    | Eq => if Z.even s1 then [s1; s2] else [s2; s1]
    end in
  map (fun s => (n, s))
      (filter (fun s => (10 ^ (k - 1) <=? s) && (s <? 10 ^ k)
                        && rounds_to m e s q) ordered).

Fixpoint shortest_digits (fuel : nat) (m e nx k : Z) : Z * Z * Z :=
  match fuel with
  | O => (nx, k, m * 2 ^ (Z.max e 0) * 10 ^ (Z.max (k - nx) 0)
                 / (2 ^ (Z.max (- e) 0) * 10 ^ (Z.max (nx - k) 0)))
  | S fuel' =>
      match digit_candidates m e nx k ++ digit_candidates m e (nx + 1) k with
      | (n, s) :: _ => (n, k, s)
      | [] => shortest_digits fuel' m e nx (k + 1)
      end
  end.

Definition zeros (n : Z) : jsstring := repeat 48 (Z.to_nat n).

Definition format_digits (n k s : Z) : jsstring :=
  let ds := dec s in
  if (k <=? n) && (n <=? 21) then ds ++ zeros (n - k)
  else if (0 <? n) && (n <=? 21) then
    firstn (Z.to_nat n) ds ++ lit "." ++ skipn (Z.to_nat n) ds
  else if (-6 <? n) && (n <=? 0) then lit "0." ++ zeros (- n) ++ ds
  else
    let ex := (if n - 1 <? 0 then lit "-" else lit "+") ++ dec (Z.abs (n - 1)) in
    if k =? 1 then ds ++ lit "e" ++ ex
    else firstn 1 ds ++ lit "." ++ skipn 1 ds ++ lit "e" ++ ex.

Definition Number_toString (x : number) : jsstring :=
  match x with
  | S754_nan => lit "NaN"
  | S754_zero _ => lit "0"
  | S754_infinity s => if s then lit "-Infinity" else lit "Infinity"
  | S754_finite s m e =>
      let b := Z.log2 (Zpos m) + e in
      let n0 := Z.min (b * 30102 / 100000) (b * 30103 / 100000) - 1 in
      let nx := decimal_exponent 8 (Zpos m) e n0 in
      let '(n, k, d) := shortest_digits 17 (Zpos m) e nx 1 in
      (if s then lit "-" else []) ++ format_digits n k d
  end.

(** ** String to number: [StringToNumber] and [parseInt] *)

Definition is_StrWhiteSpaceChar (c : Z) : bool :=
  existsb (Z.eqb c)
    [9; 10; 11; 12; 13; 32; 160; 5760; 8232; 8233; 8239; 8287; 12288; 65279]
  || ((8192 <=? c) && (c <=? 8202)).

Fixpoint trim_left (s : jsstring) : jsstring :=
  match s with
  | c :: s' => if is_StrWhiteSpaceChar c then trim_left s' else s
  | [] => []
  end.

Definition trim (s : jsstring) : jsstring :=
  rev (trim_left (rev (trim_left s))).

(** Value of [c] as a digit in the given radix. *)
Definition digit_val (radix c : Z) : option Z :=
  let v := if (48 <=? c) && (c <=? 57) then c - 48
           else if (97 <=? c) && (c <=? 122) then c - 87
           else if (65 <=? c) && (c <=? 90) then c - 55
           else radix in
  if v <? radix then Some v else None.

(** Longest prefix of digits: its value, its length, and what follows. *)
Fixpoint take_digits (radix : Z) (s : jsstring) (acc : Z) (count : Z)
  : Z * Z * jsstring :=
  match s with
  | c :: s' =>
      match digit_val radix c with
      | Some v => take_digits radix s' (acc * radix + v) (count + 1)
      | None => (acc, count, s)
      end
  | [] => (acc, count, [])
  end.

(** [num / den] correctly rounded, with sign [s]. *)
Definition round_ratio (s : bool) (num den : Z) : number :=
  let '(mz, ez, lz) := SFdiv_core_binary prec emax num 0 den 0 in
  binary_round_aux prec emax s mz ez lz.

(** The number nearest to [(-1)^s * m * 10^e] (an engine may instead drop
    the digits after the twentieth). *)
Definition round_decimal (s : bool) (m e : Z) : number :=
  if m =? 0 then S754_zero s
  else if 309 <=? e then S754_infinity s
  else if e + Z.of_nat (List.length (dec m)) <=? -325 then S754_zero s
  else if 0 <=? e then
    binary_normalize prec emax ((if s then -1 else 1) * m * 10 ^ e) 0 s
  else round_ratio s m (10 ^ (- e)).

Definition strip_sign (s : jsstring) : bool * jsstring :=
  match s with
  | 45 :: s' => (true, s')
  | 43 :: s' => (false, s')
  | _ => (false, s)
  end.

Definition radix_literal (radix : Z) (s : jsstring) : number :=
  match take_digits radix s 0 0 with
  | (v, n, []) => if 0 <? n then num_of_Z v else NaN
  | _ => NaN
  end.

Definition decimal_literal (s : jsstring) : number :=
  let '(neg, rest) := strip_sign s in
  if jsstring_eqb rest (lit "Infinity") then S754_infinity neg
  else
    let '(m1, c1, r1) := take_digits 10 rest 0 0 in
    let '(m, c2, r2) :=
      match r1 with
      | 46 :: r => take_digits 10 r m1 0
      | _ => (m1, 0, r1)
      end in
    let dot_ok := match r1 with 46 :: _ => true | _ => false end in
    if (c1 + c2 =? 0) then NaN
    else
      match r2 with
      | [] => round_decimal neg m (- c2)
      | c :: r =>
          if (c =? 101) || (c =? 69) then
            let '(eneg, r') := strip_sign r in
            match take_digits 10 r' 0 0 with
            | (ex, n, []) =>
                if 0 <? n
                then round_decimal neg m ((if eneg then - ex else ex) - c2)
                else NaN
            | _ => NaN
            end
          else NaN
      end.

Definition StringToNumber (str : jsstring) : number :=
  match trim str with
  | [] => num_zero
  | 48 :: 120 :: r | 48 :: 88 :: r => radix_literal 16 r
  | 48 :: 111 :: r | 48 :: 79 :: r => radix_literal 8 r
  | 48 :: 98 :: r | 48 :: 66 :: r => radix_literal 2 r
  | s => decimal_literal s
  end.

(** [parseInt(string, radix)] for radix 10 or 16.  The integer read is
    converted exactly (an engine may instead drop the digits after the
    twentieth when the radix is 10). *)
Definition parseInt (str : jsstring) (radix : Z) : number :=
  let '(neg, s) := strip_sign (trim_left str) in
  let s := if radix =? 16 then
             match s with
             | 48 :: 120 :: r | 48 :: 88 :: r => r
             | _ => s
             end
           else s in
  match take_digits radix s 0 0 with
  | (v, n, _) =>
      if n =? 0 then NaN
      else if v =? 0 then S754_zero neg
      else num_of_Z (if neg then - v else v)
  end.

(** ** Values

    What [JSON.parse] can return, plus [undefined] (the value of a missing
    property).  Objects hold their own properties. *)

#[warnings="-register-all"]
Inductive value : Type :=
| VUndefined
| VNull
| VBool (b : bool)
| VNum (x : number)
| VStr (s : jsstring)
| VArr (elems : list value)
| VObj (props : list (jsstring * value)).

Fixpoint assoc {A : Type} (k : jsstring) (l : list (jsstring * A)) : option A :=
  match l with
  | [] => None
  | (k', a) :: l' => if jsstring_eqb k k' then Some a else assoc k l'
  end.

(** The property names the module reads from fetched data.  None of them is
    a member of [Object.prototype], [Array.prototype], [String.prototype],
    [Number.prototype] or [Boolean.prototype], so only objects can carry
    them. *)
Inductive field : Type :=
| p_parameter | p_value | p_label | p_id | p_sender | p_address | p_timestamp
| p_amount.

Definition field_name (f : field) : jsstring :=
  match f with
  | p_parameter => lit "parameter"
  | p_value => lit "value"
  | p_label => lit "label"
  | p_id => lit "id"
  | p_sender => lit "sender"
  | p_address => lit "address"
  | p_timestamp => lit "timestamp"
  | p_amount => lit "amount"
  end.

(** [v.f] *)
Definition get (v : value) (f : field) : result value :=
  match v with
  | VUndefined | VNull => Throw TypeError
  | VObj props =>
      match assoc (field_name f) props with
      | Some x => Ok x
      | None => Ok VUndefined
      end
  | _ => Ok VUndefined
  end.

(** [v?.f] *)
Definition get_opt (v : value) (f : field) : value :=
  match v with
  | VUndefined | VNull => VUndefined
  | _ => try_catch (get v f) VUndefined
  end.

Definition is_nullish (v : value) : bool :=
  match v with
  | VUndefined | VNull => true
  | _ => false
  end.

(** [ToBoolean] *)
Definition truthy (v : value) : bool :=
  match v with
  | VUndefined | VNull => false
  | VBool b => b
  | VNum (S754_zero _) | VNum S754_nan => false
  | VNum _ => true
  | VStr [] => false
  | VStr _ => true
  | VArr _ | VObj _ => true
  end.

(** [a || b] and [a ?? b] *)
Definition or_else (a b : value) : value := if truthy a then a else b.
Definition coalesce (a b : value) : value := if is_nullish a then b else a.

(** [typeof v === 'string'] *)
Definition is_string (v : value) : bool :=
  match v with
  | VStr _ => true
  | _ => false
  end.

(** [ToString].  An array is joined with commas ([null] and [undefined]
    elements print as nothing).  A parsed object prints through
    [Object.prototype.toString] unless an own property named [toString]
    shadows it; that property is not callable and neither [valueOf] yields a
    primitive, so the conversion throws. *)
Fixpoint ToString (v : value) : result jsstring :=
  match v with
  | VUndefined => Ok (lit "undefined")
  | VNull => Ok (lit "null")
  | VBool b => Ok (if b then lit "true" else lit "false")
  | VNum x => Ok (Number_toString x)
  | VStr s => Ok s
  | VArr elems =>
      (fix join (l : list value) (first : bool) : result jsstring :=
         match l with
         | [] => Ok []
         | x :: l' =>
             s <- (match x with
                   | VUndefined | VNull => Ok []
                   | _ => ToString x
                   end) ;;
             r <- join l' false ;;
             Ok ((if first then [] else lit ",") ++ s ++ r)
         end) elems true
  | VObj props =>
      match assoc (lit "toString") props with
      | Some _ => Throw TypeError
      | None => Ok (lit "[object Object]")
      end
  end.

(** [ToNumber] *)
Definition ToNumber (v : value) : result number :=
  match v with
  | VUndefined => Ok NaN
  | VNull => Ok num_zero
  | VBool b => Ok (if b then num_of_Z 1 else num_zero)
  | VNum x => Ok x
  | VStr s => Ok (StringToNumber s)
  | VArr _ | VObj _ => s <- ToString v ;; Ok (StringToNumber s)
  end.

(** Integer part of a finite number, towards zero. *)
Definition num_trunc (x : number) : option Z :=
  match x with
  | S754_zero _ => Some 0
  | S754_finite s m e =>
      let a := if 0 <=? e then Zpos m * 2 ^ e else Zpos m / 2 ^ (- e) in
      Some (if s then - a else a)
  | _ => None
  end.

(** ** Regular expressions used by the module *)

(** Line terminators, which [.] does not match. *)
Definition is_LineTerminator (c : Z) : bool :=
  existsb (Z.eqb c) [10; 13; 8232; 8233].

(** [s.match(/.{1,2}/g)]: the successive matches, greedy, scanning left to
    right; [None] stands for [null] (no match at all). *)
Fixpoint match_pairs (s : jsstring) : list jsstring :=
  match s with
  | [] => []
  | c1 :: s1 =>
      if is_LineTerminator c1 then match_pairs s1
      else
        match s1 with
        | [] => [[c1]]
        | c2 :: s2 =>
            if is_LineTerminator c2 then [c1] :: match_pairs s2
            else [c1; c2] :: match_pairs s2
        end
  end.

Definition String_match_pairs (s : jsstring) : option (list jsstring) :=
  match match_pairs s with
  | [] => None
  | l => Some l
  end.

Definition is_hex_digit (c : Z) : bool :=
  ((48 <=? c) && (c <=? 57)) || ((97 <=? c) && (c <=? 102))
  || ((65 <=? c) && (c <=? 70)).

(** [/^[0-9a-f]+$/i.test(s)] *)
Definition test_hex (s : jsstring) : bool :=
  match s with
  | [] => false
  | _ => forallb is_hex_digit s
  end.

(** ** [Uint8Array] and [TextDecoder] *)

(** [ToUint8], the conversion applied to each element by [new Uint8Array]. *)
Definition ToUint8 (x : number) : Z :=
  match num_trunc x with
  | Some z => z mod 256
  | None => 0
  end.

(** UTF-16 code units of a code point. *)
Definition utf16 (cp : Z) : jsstring :=
  if cp <? 65536 then [cp]
  else [55296 + (cp - 65536) / 1024; 56320 + (cp - 65536) mod 1024].

(** State of the UTF-8 decoder: code point so far, bytes still needed, and
    the bounds the next continuation byte must respect. *)
Record utf8_state : Type := {
  code_point : Z;
  bytes_needed : Z;
  lower_boundary : Z;
  upper_boundary : Z
}.

Definition utf8_start : utf8_state :=
  {| code_point := 0; bytes_needed := 0;
     lower_boundary := 128; upper_boundary := 191 |}.

Definition REPLACEMENT : Z := 65533.

(** A byte met when no sequence is open. *)
Definition utf8_lead (b : Z) : utf8_state * jsstring :=
  if b <=? 127 then (utf8_start, [b])
  else if (194 <=? b) && (b <=? 223) then
    ({| code_point := Z.land b 31; bytes_needed := 1;
        lower_boundary := 128; upper_boundary := 191 |}, [])
  else if (224 <=? b) && (b <=? 239) then
    ({| code_point := Z.land b 15; bytes_needed := 2;
        lower_boundary := if b =? 224 then 160 else 128;
        upper_boundary := if b =? 237 then 159 else 191 |}, [])
  else if (240 <=? b) && (b <=? 244) then
    ({| code_point := Z.land b 7; bytes_needed := 3;
        lower_boundary := if b =? 240 then 144 else 128;
        upper_boundary := if b =? 244 then 143 else 191 |}, [])
  else (utf8_start, [REPLACEMENT]).

Definition utf8_step (st : utf8_state) (b : Z) : utf8_state * jsstring :=
  if bytes_needed st =? 0 then utf8_lead b
  else if (b <? lower_boundary st) || (upper_boundary st <? b) then
    (* the sequence is broken: error, and the byte is read again *)
    let '(st', out) := utf8_lead b in (st', REPLACEMENT :: out)
  else
    let cp := Z.lor (Z.shiftl (code_point st) 6) (Z.land b 63) in
    if bytes_needed st =? 1 then (utf8_start, utf16 cp)
    else ({| code_point := cp; bytes_needed := bytes_needed st - 1;
             lower_boundary := 128; upper_boundary := 191 |}, []).

Fixpoint utf8_run (st : utf8_state) (bytes : list Z) : jsstring :=
  match bytes with
  | [] => if bytes_needed st =? 0 then [] else [REPLACEMENT]
  | b :: bytes' =>
      let '(st', out) := utf8_step st b in out ++ utf8_run st' bytes'
  end.

(** [new TextDecoder().decode(bytes)]: UTF-8, errors replaced by U+FFFD, a
    leading byte-order mark dropped. *)
Definition TextDecoder_decode (bytes : list Z) : jsstring :=
  match bytes with
  | 239 :: 187 :: 191 :: rest => utf8_run utf8_start rest
  | _ => utf8_run utf8_start bytes
  end.

(** ** [hexToUtf8] *)

(** [hex.match(...)]: only strings have a [match] method; on any other value
    the call throws. *)
Definition call_match (hex : value) : result (option (list jsstring)) :=
  match hex with
  | VStr s => Ok (String_match_pairs s)
  | _ => Throw TypeError
  end.

Definition hexToUtf8 (hex : value) : value :=
  try_catch
    (m <- call_match hex ;;
     let bytes :=
       match m with
       | Some groups => map (fun byte => parseInt byte 16) groups
       | None => []
       end in
     Ok (VStr (TextDecoder_decode (map ToUint8 bytes))))
    hex.

(** ** Dates

    A time value is a number of milliseconds since the epoch; [None] is the
    invalid date ([NaN]).  The calendar functions follow ECMA-262. *)

Definition msPerDay : Z := 86400000.
Definition Day (t : Z) : Z := t / msPerDay.
Definition TimeWithinDay (t : Z) : Z := t mod msPerDay.

Definition InLeapYear_of (y : Z) : bool :=
  ((y mod 4 =? 0) && negb (y mod 100 =? 0)) || (y mod 400 =? 0).

Definition DayFromYear (y : Z) : Z :=
  365 * (y - 1970) + (y - 1969) / 4 - (y - 1901) / 100 + (y - 1601) / 400.

(** The largest [y] with [DayFromYear y <= Day t]. *)
Definition YearFromTime (t : Z) : Z :=
  let d := Day t in
  let y := 1970 + d * 400 / 146097 in
  if d <? DayFromYear y then y - 1
  else if DayFromYear (y + 1) <=? d then y + 1
  else y.

Definition DayWithinYear (t : Z) : Z := Day t - DayFromYear (YearFromTime t).

(** Day within the year on which month [m] (0 to 11) starts. *)
Definition month_start (leap : bool) (m : Z) : Z :=
  nth (Z.to_nat m) [0; 31; 59; 90; 120; 151; 181; 212; 243; 273; 304; 334] 365
  + (if leap && (2 <=? m) then 1 else 0).

Definition MonthFromTime (t : Z) : Z :=
  let leap := InLeapYear_of (YearFromTime t) in
  let d := DayWithinYear t in
  Z.of_nat (List.length
              (filter (fun m => month_start leap m <=? d)
                      [1; 2; 3; 4; 5; 6; 7; 8; 9; 10; 11])).

Definition DateFromTime (t : Z) : Z :=
  DayWithinYear t
  - month_start (InLeapYear_of (YearFromTime t)) (MonthFromTime t) + 1.

Definition HourFromTime (t : Z) : Z := (t / 3600000) mod 24.
Definition MinFromTime (t : Z) : Z := (t / 60000) mod 60.
Definition SecFromTime (t : Z) : Z := (t / 1000) mod 60.
Definition msFromTime (t : Z) : Z := t mod 1000.

Definition MakeDay (year month date : Z) : Z :=
  let ym := year + month / 12 in
  let mn := month mod 12 in
  DayFromYear ym + month_start (InLeapYear_of ym) mn + date - 1.

Definition MakeTime (hour min sec ms : Z) : Z :=
  hour * 3600000 + min * 60000 + sec * 1000 + ms.

Definition MakeDate (day time : Z) : Z := day * msPerDay + time.

Definition TimeClip (t : Z) : option Z :=
  if Z.abs t <=? 8640000000000000 then Some t else None.

(** [TimeClip] of a number. *)
Definition TimeClip_num (x : number) : option Z :=
  match x with
  | S754_zero _ | S754_finite _ _ _ =>
      match num_trunc x with
      | Some t => TimeClip t
      | None => None
      end
  | _ => None
  end.

(** Decimal numeral padded with zeros to [w] digits. *)
Definition pad (w : nat) (z : Z) : jsstring :=
  let ds := dec z in
  repeat 48 (w - List.length ds) ++ ds.

(** [Date.prototype.toISOString] *)
Definition toISOString (d : option Z) : result jsstring :=
  match d with
  | None => Throw RangeError
  | Some t =>
      let y := YearFromTime t in
      let year :=
        if (0 <=? y) && (y <=? 9999) then pad 4 y
        else (if y <? 0 then lit "-" else lit "+") ++ pad 6 (Z.abs y) in
      Ok (year ++ lit "-" ++ pad 2 (MonthFromTime t + 1)
               ++ lit "-" ++ pad 2 (DateFromTime t)
               ++ lit "T" ++ pad 2 (HourFromTime t)
               ++ lit ":" ++ pad 2 (MinFromTime t)
               ++ lit ":" ++ pad 2 (SecFromTime t)
               ++ lit "." ++ pad 3 (msFromTime t) ++ lit "Z")
  end.

(** ** The host *)

Inductive body_outcome : Type :=
| BodyReject
| BodyText (text : jsstring).

(** What [await fetch(url)] gives: a rejection, or a response with its [ok]
    flag and what [await res.text()] will give. *)
Inductive fetch_outcome : Type :=
| FetchReject
| Response (ok : bool) (body : body_outcome).

Record Host : Type := {
  (** the clock: [Date.now()], a time value *)
  Date_now : Z;
  (** [LocalTZA(t, isUTC)]: offset of local time from UTC, in milliseconds *)
  LocalTZA : Z -> bool -> Z;
  (** [Date.parse] *)
  Date_parse : jsstring -> option Z;
  (** [a.localeCompare(b)] in the default locale *)
  localeCompare : jsstring -> jsstring -> Z;
  (** [JSON.parse] *)
  JSON_parse : jsstring -> result value;
  (** the network during one refresh cycle *)
  fetch : jsstring -> fetch_outcome
}.

Definition LocalTime (h : Host) (t : Z) : Z := t + LocalTZA h t true.
Definition UTC (h : Host) (t : Z) : Z := t - LocalTZA h t false.

(** [new Date()] *)
Definition Date_new (h : Host) : option Z := TimeClip (Date_now h).

(** [new Date(v)] for a value [v] that is not a Date. *)
Definition Date_of (h : Host) (v : value) : result (option Z) :=
  match v with
  | VStr s => Ok (Date_parse h s)
  | VArr _ | VObj _ => s <- ToString v ;; Ok (Date_parse h s)
  | _ => x <- ToNumber v ;; Ok (TimeClip_num x)
  end.

(** [d.getDate()] *)
Definition getDate (h : Host) (d : option Z) : option Z :=
  match d with
  | Some t => Some (DateFromTime (LocalTime h t))
  | None => None
  end.

(** [d.setDate(date)] *)
Definition setDate (h : Host) (d : option Z) (date : option Z) : option Z :=
  match d, date with
  | Some t, Some dt =>
      let t := LocalTime h t in
      let newDate :=
        MakeDate (MakeDay (YearFromTime t) (MonthFromTime t) dt)
                 (TimeWithinDay t) in
      TimeClip (UTC h newDate)
  | _, _ => None
  end.

Definition month_short (m : Z) : jsstring :=
  nth (Z.to_nat m)
      (map lit ["Jan"; "Feb"; "Mar"; "Apr"; "May"; "Jun"; "Jul"; "Aug"; "Sep";
                "Oct"; "Nov"; "Dec"]%string) [].

(** [d.toLocaleDateString('en-US', { month: 'short', day: 'numeric' })] *)
Definition toLocaleDateString_short (h : Host) (d : option Z) : jsstring :=
  match d with
  | Some t =>
      let t := LocalTime h t in
      month_short (MonthFromTime t) ++ lit " " ++ dec (DateFromTime t)
  | None => lit "Invalid Date"
  end.

(** ** Plain objects used as string-keyed maps

    The own properties, in insertion order. *)

Definition object (A : Type) : Type := list (jsstring * A).

Definition Object_prototype_members : list jsstring :=
  map lit ["constructor"; "__defineGetter__"; "__defineSetter__";
           "hasOwnProperty"; "__lookupGetter__"; "__lookupSetter__";
           "isPrototypeOf"; "propertyIsEnumerable"; "toString"; "valueOf";
           "__proto__"; "toLocaleString"]%string.

Definition is_inherited (k : jsstring) : bool :=
  existsb (jsstring_eqb k) Object_prototype_members.

(** [o[k]]; [None] is [undefined]. *)
Definition obj_get {A : Type} (o : object A) (k : jsstring)
  : result (option A) :=
  match assoc k o with
  | Some a => Ok (Some a)
  | None => if is_inherited k then Throw Unmodelled else Ok None
  end.

(** [o[k] = a]: an existing property keeps its place, a new one goes last. *)
Fixpoint obj_set {A : Type} (k : jsstring) (a : A) (o : object A) : object A :=
  match o with
  | [] => [(k, a)]
  | (k', a') :: o' =>
      if jsstring_eqb k k' then (k, a) :: o' else (k', a') :: obj_set k a o'
  end.

(** A key that is an array index: the canonical numeral of an integer
    below 2^32 - 1. *)
Definition array_index (k : jsstring) : option Z :=
  match k with
  | [] => None
  | [48] => Some 0
  | 48 :: _ => None
  | _ =>
      match take_digits 10 k 0 0 with
      | (v, _, []) => if v <=? 4294967294 then Some v else None
      | _ => None
      end
  end.

Fixpoint insert_index {A : Type} (i : Z) (e : jsstring * A)
  (l : list (Z * (jsstring * A))) : list (Z * (jsstring * A)) :=
  match l with
  | [] => [(i, e)]
  | (j, e') :: l' =>
      if i <? j then (i, e) :: l else (j, e') :: insert_index i e l'
  end.

(** [Object.entries(o)]: array-index keys first, in ascending numeric order,
    then the other keys in insertion order. *)
Definition Object_entries {A : Type} (o : object A) : list (jsstring * A) :=
  let indexed :=
    fold_left (fun acc e =>
                 match array_index (fst e) with
                 | Some i => insert_index i e acc
                 | None => acc
                 end) o [] in
  map snd indexed
  ++ filter (fun e => match array_index (fst e) with
                      | Some _ => false
                      | None => true
                      end) o.

(** ** [Array.prototype.sort]

    A comparator returns a number ([None] is [NaN], which counts as 0) or
    throws.  For a consistent comparator every implementation returns the
    stable sorted order, which is what this insertion sort computes; for an
    inconsistent one the order is implementation-defined and this is one
    admissible result. *)

Definition order (c : option Z) : Z :=
  match c with
  | Some z => z
  | None => 0
  end.

Fixpoint sort_insert {A : Type} (comparefn : A -> A -> result (option Z))
  (x : A) (l : list A) : result (list A) :=
  match l with
  | [] => Ok [x]
  | y :: l' =>
      c <- comparefn x y ;;
      if order c <? 0 then Ok (x :: l)
      else r <- sort_insert comparefn x l' ;; Ok (y :: r)
  end.

Definition Array_sort {A : Type} (comparefn : A -> A -> result (option Z))
  (l : list A) : result (list A) :=
  foldM (fun acc x => sort_insert comparefn x acc) l [].

(** ** Fetch helpers *)

Definition TZKT_API : jsstring := lit "https://api.tzkt.io/v1".
Definition BUY_CONTRACT : jsstring := lit "KT191reDVKrLxU9rjTSxg53wRqj6zh8pnHgr".
Definition RENEW_CONTRACT : jsstring := lit "KT1EVYBj3f1rZHNeUtq4ZvVxPTs77wuHwARU".
Definition NAME_REGISTRY : jsstring := lit "KT1GBZm7uJvYvHvKZGJ61eA8XF6pAByN8Mv8".

(** [null] is [VNull]. *)
Definition fetchJson (h : Host) (url : jsstring) : value :=
  match fetch h url with
  | FetchReject => VNull
  | Response ok body =>
      if negb ok then VNull
      else
        match body with
        | BodyReject => VNull
        | BodyText text =>
            match text with
            | [] => VNull
            | _ => try_catch (JSON_parse h text) VNull
            end
        end
  end.

Definition num_or (x y : number) : number :=
  if truthy (VNum x) then x else y.

Definition fetchCount (h : Host) (url : jsstring) : number :=
  match fetch h url with
  | FetchReject => num_zero
  | Response ok body =>
      if negb ok then num_zero
      else
        match body with
        | BodyReject => num_zero
        | BodyText text =>
            match text with
            | [] => num_zero
            | _ => num_or (parseInt text 10) num_zero
            end
        end
  end.

Definition isoAgo (h : Host) (hours : Z) : result jsstring :=
  toISOString (TimeClip (Date_now h - hours * 3600000)).

(** ** The service *)

Record DomainStats : Type := {
  totalDomains : number;
  new24h : number;
  renewals24h : number;
  activeUsers : number;
  totalDomainsChange : option number;
  new24hChange : option number;
  renewalsChange : option number;
  activeUsersChange : option number
}.

Inductive event_type : Type := buy | renew | transfer.

Module ActivityItem.
Record t : Type := {
  id : jsstring;
  type : event_type;
  domain : jsstring;
  address : value;
  timestamp : value;
  amount : number
}.
End ActivityItem.

Module ChartData.
Record t : Type := {
  date : jsstring;
  count : Z;
  volume : number
}.
End ChartData.

(** The entries of [buckets] in [getGrowthData]. *)
Module Bucket.
Record t : Type := {
  count : Z;
  volume : number
}.
End Bucket.

(** The entries returned by [getTopHolders]. *)
Module Holder.
Record t : Type := {
  address : jsstring;
  count : Z
}.
End Holder.

Definition count_url (target entrypoint filter : jsstring) : jsstring :=
  TZKT_API ++ lit "/operations/transactions/count?target=" ++ target
    ++ lit "&entrypoint=" ++ entrypoint ++ lit "&status=applied" ++ filter.

Definition getStats (h : Host) : result DomainStats :=
  now24 <- isoAgo h 24 ;;
  now48 <- isoAgo h 48 ;;
  let totalBuys := fetchCount h (count_url BUY_CONTRACT (lit "buy") []) in
  let buysLast24h :=
    fetchCount h (count_url BUY_CONTRACT (lit "buy")
                    (lit "&timestamp.ge=" ++ now24)) in
  let buysPrev24h :=
    fetchCount h (count_url BUY_CONTRACT (lit "buy")
                    (lit "&timestamp.ge=" ++ now48
                       ++ lit "&timestamp.lt=" ++ now24)) in
  let renewsLast24h :=
    fetchCount h (count_url RENEW_CONTRACT (lit "renew")
                    (lit "&timestamp.ge=" ++ now24)) in
  let renewsPrev24h :=
    fetchCount h (count_url RENEW_CONTRACT (lit "renew")
                    (lit "&timestamp.ge=" ++ now48
                       ++ lit "&timestamp.lt=" ++ now24)) in
  let uniqueSenders :=
    fetchCount h (TZKT_API ++ lit "/bigmaps/4626/keys/count?active=true") in
  Ok {| totalDomains := totalBuys;
        new24h := buysLast24h;
        renewals24h := renewsLast24h;
        activeUsers := num_or uniqueSenders num_zero;
        totalDomainsChange := None;
        new24hChange := pct buysLast24h buysPrev24h;
        renewalsChange := pct renewsLast24h renewsPrev24h;
        activeUsersChange := None |}.

Definition unknown : value := VStr (lit "unknown").
Definition million : number := num_of_Z 1000000.

(** [(op.amount || 0) / 1_000_000] *)
Definition amount_of (op : value) : result number :=
  a <- get op p_amount ;;
  x <- ToNumber (or_else a (VNum num_zero)) ;;
  Ok (num_div x million).

(** The item pushed for one element of [buys]. *)
Definition buy_item (op : value) : result ActivityItem.t :=
  param <- get op p_parameter ;;
  let label := get_opt (get_opt param p_value) p_label in
  opid <- get op p_id ;;
  ids <- ToString opid ;;
  dom <- (if truthy label
          then s <- ToString (hexToUtf8 label) ;; Ok (s ++ lit ".tez")
          else Ok (lit "unknown.tez")) ;;
  snd <- get op p_sender ;;
  ts <- get op p_timestamp ;;
  amt <- amount_of op ;;
  Ok {| ActivityItem.id := lit "buy-" ++ ids;
        ActivityItem.type := buy;
        ActivityItem.domain := dom;
        ActivityItem.address := or_else (get_opt snd p_address) unknown;
        ActivityItem.timestamp := ts;
        ActivityItem.amount := amt |}.

(** The item pushed for one element of [renews]. *)
Definition renew_item (op : value) : result ActivityItem.t :=
  param <- get op p_parameter ;;
  let label := coalesce (get_opt (get_opt param p_value) p_label)
                        (get_opt param p_value) in
  let name := if is_string label
                 && match label with VStr s => test_hex s | _ => false end
              then hexToUtf8 label
              else or_else label unknown in
  opid <- get op p_id ;;
  ids <- ToString opid ;;
  names <- ToString name ;;
  snd <- get op p_sender ;;
  ts <- get op p_timestamp ;;
  amt <- amount_of op ;;
  Ok {| ActivityItem.id := lit "renew-" ++ ids;
        ActivityItem.type := renew;
        ActivityItem.domain := names ++ lit ".tez";
        ActivityItem.address := or_else (get_opt snd p_address) unknown;
        ActivityItem.timestamp := ts;
        ActivityItem.amount := amt |}.

(** [for (const op of ops) items.push(...)], guarded by [Array.isArray]. *)
Definition push_items (item : value -> result ActivityItem.t) (ops : value)
  : result (list ActivityItem.t) :=
  match ops with
  | VArr l => mapM item l
  | _ => Ok []
  end.

(** [new Date(b.timestamp).getTime() - new Date(a.timestamp).getTime()] *)
Definition by_timestamp_desc (h : Host) (a b : ActivityItem.t)
  : result (option Z) :=
  tb <- Date_of h (ActivityItem.timestamp b) ;;
  ta <- Date_of h (ActivityItem.timestamp a) ;;
  Ok (match tb, ta with
      | Some x, Some y => Some (x - y)
      | _, _ => None
      end).

(** [getRecentActivity] once both fetches have settled. *)
Definition recentActivity (h : Host) (buys renews : value)
  : result (list ActivityItem.t) :=
  bs <- push_items buy_item buys ;;
  rs <- push_items renew_item renews ;;
  sorted <- Array_sort (by_timestamp_desc h) (bs ++ rs) ;;
  Ok (slice0 15 sorted).

Definition list_url (target entrypoint rest : jsstring) : jsstring :=
  TZKT_API ++ lit "/operations/transactions?target=" ++ target
    ++ lit "&entrypoint=" ++ entrypoint ++ lit "&status=applied" ++ rest.

Definition getRecentActivity (h : Host) : result (list ActivityItem.t) :=
  recentActivity h
    (fetchJson h (list_url BUY_CONTRACT (lit "buy")
                    (lit "&limit=15&sort.desc=id")))
    (fetchJson h (list_url RENEW_CONTRACT (lit "renew")
                    (lit "&limit=10&sort.desc=id"))).

(** The pre-fill loop of [getGrowthData], for [i] counting down to 0. *)
Fixpoint prefill (h : Host) (now : option Z) (i : nat)
  (buckets : object Bucket.t) : result (object Bucket.t) :=
  let d := now in
  let d := setDate h d (option_map (fun x => x - Z.of_nat i) (getDate h d)) in
  iso <- toISOString d ;;
  let key := slice0 10 iso in
  let buckets :=
    obj_set key {| Bucket.count := 0; Bucket.volume := num_zero |} buckets in
  match i with
  | O => Ok buckets
  | S i' => prefill h now i' buckets
  end.

(** [op.timestamp?.slice(0, 10)]: strings and arrays have a [slice] method;
    on any other value that is not [null] or [undefined] the call throws. *)
Definition day_of (op : value) : result value :=
  ts <- get op p_timestamp ;;
  match ts with
  | VUndefined | VNull => Ok VUndefined
  | VStr s => Ok (VStr (slice0 10 s))
  | VArr l => Ok (VArr (slice0 10 l))
  | _ => Throw TypeError
  end.

(** One iteration of the accumulation loop of [getGrowthData]. *)
Definition accumulate (buckets : object Bucket.t) (op : value)
  : result (object Bucket.t) :=
  day <- day_of op ;;
  if truthy day then
    key <- ToString day ;;
    found <- obj_get buckets key ;;
    match found with
    | Some data =>
        amt <- amount_of op ;;
        Ok (obj_set key
              {| Bucket.count := Bucket.count data + 1;
                 Bucket.volume := num_add (Bucket.volume data) amt |}
              buckets)
    | None => Ok buckets
    end
  else Ok buckets.

Definition by_key {A : Type} (h : Host) (a b : jsstring * A)
  : result (option Z) :=
  Ok (Some (localeCompare h (fst a) (fst b))).

Definition chart_point (h : Host) (e : jsstring * Bucket.t) : ChartData.t :=
  let '(date, data) := e in
  {| ChartData.date := toLocaleDateString_short h (Date_parse h date);
     ChartData.count := Bucket.count data;
     ChartData.volume :=
       num_div (Math_round (num_mul (Bucket.volume data) (num_of_Z 100)))
               (num_of_Z 100) |}.

(** [getGrowthData] once the fetch has settled. *)
Definition growthData (h : Host) (ops : value) : result (list ChartData.t) :=
  match ops with
  | VArr ((_ :: _) as l) =>
      buckets <- prefill h (Date_new h) 30 [] ;;
      buckets <- foldM accumulate l buckets ;;
      entries <- Array_sort (by_key h) (Object_entries buckets) ;;
      Ok (map (chart_point h) entries)
  | _ => Ok []
  end.

Definition getGrowthData (h : Host) : result (list ChartData.t) :=
  thirtyDaysAgo <- isoAgo h (30 * 24) ;;
  growthData h
    (fetchJson h (list_url BUY_CONTRACT (lit "buy")
                    (lit "&timestamp.ge=" ++ thirtyDaysAgo
                       ++ lit "&limit=10000&select=timestamp,amount"))).

(** [op.sender?.address || op.sender], kept when it is a non-empty string. *)
Definition sender_address (op : value) : result (option jsstring) :=
  snd <- get op p_sender ;;
  let addr := or_else (get_opt snd p_address) snd in
  Ok (match addr with
      | VStr s => if truthy addr then Some s else None
      | _ => None
      end).

(** One iteration of the tally loop of [getTopHolders]. *)
Definition tally (counts : object Z) (op : value) : result (object Z) :=
  a <- sender_address op ;;
  match a with
  | Some addr =>
      c <- obj_get counts addr ;;
      let c := match c with
               | Some n => if n =? 0 then 0 else n
               | None => 0
               end in
      Ok (obj_set addr (c + 1) counts)
  | None => Ok counts
  end.

Definition by_count_desc (a b : jsstring * Z) : result (option Z) :=
  Ok (Some (snd b - snd a)).

(** [getTopHolders] once the fetch has settled. *)
Definition topHolders (ops : value) : result (list Holder.t) :=
  match ops with
  | VArr ((_ :: _) as l) =>
      counts <- foldM tally l [] ;;
      entries <- Array_sort by_count_desc (Object_entries counts) ;;
      Ok (map (fun '(address, count) =>
                 {| Holder.address := address; Holder.count := count |})
              (slice0 10 entries))
  | _ => Ok []
  end.

Definition getTopHolders (h : Host) : result (list Holder.t) :=
  topHolders
    (fetchJson h (list_url BUY_CONTRACT (lit "buy")
                    (lit "&limit=10000&select=sender&sort.desc=id"))).

(** ** Concrete hosts

    Used to run the service on explicit inputs. *)

(** Reads exactly [n] decimal digits. *)
Fixpoint read_digits (n : nat) (s : jsstring) (acc : Z) : option (Z * jsstring) :=
  match n with
  | O => Some (acc, s)
  | S n' =>
      match s with
      | c :: s' =>
          if (48 <=? c) && (c <=? 57) then read_digits n' s' (acc * 10 + (c - 48))
          else None
      | [] => None
      end
  end.

Definition read_char (c : Z) (s : jsstring) : option jsstring :=
  match s with
  | c' :: s' => if c =? c' then Some s' else None
  | [] => None
  end.

Definition opt_bind {A B : Type} (o : option A) (k : A -> option B) : option B :=
  match o with
  | Some a => k a
  | None => None
  end.

Definition read_year (s : jsstring) : option (Z * jsstring) :=
  match s with
  | 43 :: s' => read_digits 6 s' 0
  | 45 :: s' =>
      opt_bind (read_digits 6 s' 0)
               (fun '(y, r) => if y =? 0 then None else Some (- y, r))
  | _ => read_digits 4 s 0
  end.

(** Days in month [m] (1 to 12) of year [y]. *)
Definition DaysInMonth (y m : Z) : Z :=
  month_start (InLeapYear_of y) m - month_start (InLeapYear_of y) (m - 1).

(** Date part: year, month (1 to 12), day; missing parts are 1. *)
Definition read_date (s : jsstring) : option (Z * Z * Z * jsstring) :=
  opt_bind (read_year s) (fun '(y, r) =>
    match read_char 45 r with
    | None => Some (y, 1, 1, r)
    | Some r =>
        opt_bind (read_digits 2 r 0) (fun '(m, r) =>
          if (m <? 1) || (12 <? m) then None
          else
            match read_char 45 r with
            | None => Some (y, m, 1, r)
            | Some r =>
                opt_bind (read_digits 2 r 0) (fun '(d, r) =>
                  if (d <? 1) || (DaysInMonth y m <? d) then None
                  else Some (y, m, d, r))
            end)
    end).

(** Time part after [T]: milliseconds within the day. *)
Definition read_time (s : jsstring) : option (Z * jsstring) :=
  opt_bind (read_digits 2 s 0) (fun '(hh, r) =>
  opt_bind (read_char 58 r) (fun r =>
  opt_bind (read_digits 2 r 0) (fun '(mm, r) =>
    let '(ss, ms, r) :=
      match opt_bind (read_char 58 r) (fun r => read_digits 2 r 0) with
      | Some (ss, r) =>
          match opt_bind (read_char 46 r) (fun r => read_digits 3 r 0) with
          | Some (ms, r) => (ss, ms, r)
          | None => (ss, 0, r)
          end
      | None => (0, 0, r)
      end in
    if (59 <? mm) || (59 <? ss) || (24 <? hh)
       || ((hh =? 24) && negb ((mm =? 0) && (ss =? 0) && (ms =? 0)))
    then None else Some (MakeTime hh mm ss ms, r)))).

(** Zone designator: [Z] or a signed [HH:mm] offset; [None] when absent. *)
Definition read_zone (s : jsstring) : option (option Z) :=
  match s with
  | [] => Some None
  | [90] => Some (Some 0)
  | c :: r =>
      if (c =? 43) || (c =? 45) then
        opt_bind (read_digits 2 r 0) (fun '(hh, r) =>
        opt_bind (read_char 58 r) (fun r =>
        opt_bind (read_digits 2 r 0) (fun '(mm, r) =>
          match r with
          | [] =>
              if (23 <? hh) || (59 <? mm) then None
              else Some (Some ((if c =? 45 then -1 else 1)
                               * (hh * 3600000 + mm * 60000)))
          | _ => None
          end)))
      else None
  end.

(** A [Date.parse] that accepts exactly the ECMAScript date-time string
    format: date-only forms are UTC, date-time forms without a zone are
    local time. *)
Definition ISO_parse (tza : Z -> bool -> Z) (s : jsstring) : option Z :=
  opt_bind (read_date s) (fun '(y, m, d, r) =>
    let day := MakeDay y (m - 1) d in
    match r with
    | [] => TimeClip (MakeDate day 0)
    | 84 :: r =>
        opt_bind (read_time r) (fun '(time, r) =>
        opt_bind (read_zone r) (fun zone =>
          let t := MakeDate day time in
          match zone with
          | Some offset => TimeClip (t - offset)
          | None => TimeClip (t - tza t false)
          end))
    | _ => None
    end).

(** Comparison by code units; it agrees with the locale collation on
    strings of digits and hyphens of the same shape. *)
Fixpoint compare_code_units (a b : jsstring) : Z :=
  match a, b with
  | [], [] => 0
  | [], _ :: _ => -1
  | _ :: _, [] => 1
  | x :: a', y :: b' =>
      if x <? y then -1 else if y <? x then 1 else compare_code_units a' b'
  end.

Definition utc_zone (t : Z) (isUTC : bool) : Z := 0.

(** Europe/London in 2024: one hour ahead of UTC from 31 March 01:00 UTC to
    27 October 01:00 UTC.  A local time in the skipped or repeated hour is
    read with the offset in force before the transition. *)
Definition london_2024 (t : Z) (isUTC : bool) : Z :=
  let start := 1711846800000 in
  let finish := 1729990800000 in
  if isUTC then
    if (start <=? t) && (t <? finish) then 3600000 else 0
  else
    if (start + 3600000 <=? t) && (t <? finish + 3600000) then 3600000 else 0.

Definition offline : jsstring -> fetch_outcome := fun _ => FetchReject.

Definition reject_json : jsstring -> result value := fun _ => Throw SyntaxError.

Definition mk_host (now : Z) (tza : Z -> bool -> Z) : Host :=
  {| Date_now := now;
     LocalTZA := tza;
     Date_parse := ISO_parse tza;
     localeCompare := compare_code_units;
     JSON_parse := reject_json;
     fetch := offline |}.

(** ** Vocabulary of the properties *)

(** A number that is zero, finite or infinite with sign bit [s]. *)
Definition has_sign (s : bool) (x : number) : Prop :=
  match x with
  | S754_zero s' | S754_infinity s' | S754_finite s' _ _ => s' = s
  | S754_nan => False
  end.

(** A number that is finite and non-zero, or infinite, with sign bit [s]. *)
Definition has_strict_sign (s : bool) (x : number) : Prop :=
  match x with
  | S754_infinity s' | S754_finite s' _ _ => s' = s
  | _ => False
  end.

(** The percentage change of [c] over [p > 0] rounded to one decimal place,
    as the specification words it: the change in tenths of a percent,
    [1000 * (c - p) / p], computed exactly and rounded to the nearest
    integer (a tie goes up, as [round] does), then divided by 10. *)
Definition tenths_of_percent (c p : Z) : Z :=
  (2000 * (c - p) + p) / (2 * p).

Definition pct_one_decimal (c p : Z) : number :=
  num_div (num_of_Z (tenths_of_percent c p)) (num_of_Z 10).

(** The integers [z], [z + 1], ..., [z + n - 1]. *)
Fixpoint upto (n : nat) (z : Z) : list Z :=
  match n with
  | O => []
  | S n' => z :: upto n' (z + 1)
  end.

(** A fetch that fails: network error, non-success status, or empty body. *)
Definition fetch_fails (o : fetch_outcome) : bool :=
  match o with
  | FetchReject => true
  | Response ok body =>
      negb ok || match body with
                 | BodyReject | BodyText [] => true
                 | BodyText _ => false
                 end
  end.

(** The clock is a time value, thirty days or more inside the range of
    dates. *)
Definition clock_in_range (h : Host) : Prop :=
  Z.abs (Date_now h) <= 8640000000000000 - 30 * 24 * 3600000.

Definition empty_stats : DomainStats :=
  {| totalDomains := num_zero;
     new24h := num_zero;
     renewals24h := num_zero;
     activeUsers := num_zero;
     totalDomainsChange := None;
     new24hChange := None;
     renewalsChange := None;
     activeUsersChange := None |}.

(** The operations of a fetch result: the elements of an array, nothing for
    [null] or any other value. *)
Definition elements (v : value) : list value :=
  match v with
  | VArr l => l
  | _ => []
  end.

(** The time an event's timestamp denotes, when it denotes one. *)
Definition event_time (h : Host) (ev : ActivityItem.t) : option Z :=
  match Date_of h (ActivityItem.timestamp ev) with
  | Ok (Some t) => Some t
  | _ => None
  end.

(** An element that converts to an event whose timestamp denotes a date. *)
Definition dated_operation (h : Host) (item : value -> result ActivityItem.t)
  (op : value) : Prop :=
  exists ev t, item op = Ok ev /\ event_time h ev = Some t.

(** [a] is not older than [b]. *)
Definition not_older (h : Host) (a b : ActivityItem.t) : Prop :=
  exists ta tb, event_time h a = Some ta /\ event_time h b = Some tb
                /\ tb <= ta.

(** What [`${op.id}`] interpolates. *)
Definition op_id_string (op : value) : result jsstring :=
  v <- get op p_id ;; ToString v.

(** [op.parameter?.value?.label] *)
Definition buy_label (op : value) : result value :=
  param <- get op p_parameter ;;
  Ok (get_opt (get_opt param p_value) p_label).

(** [op.parameter?.value?.label ?? op.parameter?.value] *)
Definition renew_label (op : value) : result value :=
  param <- get op p_parameter ;;
  Ok (coalesce (get_opt (get_opt param p_value) p_label)
               (get_opt param p_value)).

(** A value that is not an array or an object. *)
Definition primitive (v : value) : bool :=
  match v with
  | VArr _ | VObj _ => false
  | _ => true
  end.

(** An operation record as the data model has it: a record whose
    identifier, label (when the payload carries one) and amount (when
    present) are primitive values, and whose timestamp is a string that
    denotes a date.  [label_of] reads the label the way the acquisition or
    the renewal path does. *)
Definition Operation (h : Host) (label_of : value -> result value)
  (op : value) : Prop :=
  (exists i, get op p_id = Ok i /\ primitive i = true)
  /\ (exists l, label_of op = Ok l /\ primitive l = true)
  /\ (exists a, get op p_amount = Ok a /\ primitive a = true)
  /\ (exists s t, get op p_timestamp = Ok (VStr s)
                  /\ Date_parse h s = Some t).

(** Non-increasing order of an integer key. *)
Definition desc_by {A : Type} (key : A -> Z) (a b : A) : Prop :=
  key b <= key a.

Definition time_key (h : Host) (ev : ActivityItem.t) : Z :=
  match event_time h ev with
  | Some t => t
  | None => 0
  end.

(** [x >= 0] *)
Definition non_negative (x : number) : Prop := num_leb num_zero x = true.

(** An amount field that is absent (or otherwise falsy), or a number that
    is not negative. *)
Definition amount_absent_or_non_negative (a : value) : Prop :=
  truthy a = false \/ exists x, a = VNum x /\ non_negative x.

(** An acquisition with a negative amount and a label that is not hex. *)
Definition odd_operation : value :=
  VObj [(lit "id", VNum (num_of_Z 1));
        (lit "parameter",
         VObj [(lit "value", VObj [(lit "label", VStr (lit "zz"))])]);
        (lit "timestamp", VStr (lit "2024-03-31T10:00:00Z"));
        (lit "amount", VNum (num_of_Z (-1)))].

(** An acquisition of the label "test". *)
Definition test_operation : value :=
  VObj [(lit "id", VNum (num_of_Z 5));
        (lit "parameter",
         VObj [(lit "value", VObj [(lit "label", VStr (lit "74657374"))])]);
        (lit "sender", VObj [(lit "address", VStr (lit "tz1abc"))]);
        (lit "timestamp", VStr (lit "2024-03-31T10:00:00Z"));
        (lit "amount", VNum (num_of_Z 2500000))].

(** A renewal with the same identifier, a day later. *)
Definition test_renewal : value :=
  VObj [(lit "id", VNum (num_of_Z 5));
        (lit "parameter", VObj [(lit "value", VStr (lit "74657374"))]);
        (lit "sender", VObj [(lit "address", VStr (lit "tz1abc"))]);
        (lit "timestamp", VStr (lit "2024-04-01T10:00:00Z"));
        (lit "amount", VNum (num_of_Z 1000000))].

Definition utc_host : Host := mk_host 1712273400000 utc_zone.
Definition london_host : Host := mk_host 1712273400000 london_2024.

(** Does the tally loop count [op] for [addr]? *)
Definition tallied (addr : jsstring) (op : value) : bool :=
  match sender_address op with
  | Ok (Some a) => jsstring_eqb a addr
  | _ => false
  end.

(** Number of operations tallied for [addr]. *)
Definition occurrences (addr : jsstring) (ops : list value) : Z :=
  Z.of_nat (List.length (filter (tallied addr) ops)).

(** No sender address names a member of [Object.prototype]. *)
Definition plain_senders (ops : list value) : Prop :=
  Forall (fun op => forall a, sender_address op = Ok (Some a) ->
                              is_inherited a = false) ops.

(** Every element is a record: neither [null] nor [undefined]. *)
Definition records (ops : list value) : Prop :=
  Forall (fun op => is_nullish op = false) ops.

Definition holder_count_desc (a b : Holder.t) : Prop :=
  Holder.count b <= Holder.count a.

(** A bucket after one more operation of amount [amt]. *)
Definition bump (data : Bucket.t) (amt : number) : Bucket.t :=
  {| Bucket.count := Bucket.count data + 1;
     Bucket.volume := num_add (Bucket.volume data) amt |}.

Definition total_count (buckets : list (jsstring * Bucket.t)) : Z :=
  fold_right (fun e acc => Bucket.count (snd e) + acc) 0 buckets.

Definition chart_total (out : list ChartData.t) : Z :=
  fold_right (fun c acc => ChartData.count c + acc) 0 out.

(** The sender an operation is tallied for, as the specification has it:
    the non-empty string under [sender.address], or [sender] itself when it
    is a non-empty string.  A missing sender, a sender or an address of any
    other type, and the empty string are malformed: the operation has no
    well-formed sender. *)
Definition well_formed_sender (op : value) : option jsstring :=
  match op with
  | VObj props =>
      match assoc (lit "sender") props with
      | Some (VStr (c :: a)) => Some (c :: a)
      | Some (VObj sender) =>
          match assoc (lit "address") sender with
          | Some (VStr (c :: a)) => Some (c :: a)
          | _ => None
          end
      | _ => None
      end
  | _ => None
  end.

Definition sent_from (a : jsstring) (op : value) : bool :=
  match well_formed_sender op with
  | Some x => jsstring_eqb x a
  | None => false
  end.

(** Number of operations whose well-formed sender is [a]. *)
Definition sender_count (a : jsstring) (ops : list value) : Z :=
  Z.of_nat (List.length (filter (sent_from a) ops)).

(** No well-formed sender names a member of [Object.prototype]. *)
Definition plain_addresses (ops : list value) : Prop :=
  Forall (fun op => forall a, well_formed_sender op = Some a ->
                              is_inherited a = false) ops.

(** Two acquisitions by one address and one by another, among operations
    whose sender is malformed in every way: a number, a boolean, the empty
    string, a record whose address is a number, is empty or is missing,
    [null], an array, no sender at all, and an element that is not a
    record. *)
Definition mixed_senders : value :=
  VArr [test_operation;
        VObj [(lit "sender", VStr (lit "tz1xyz"))];
        VObj [(lit "sender", VNum (num_of_Z 5))];
        VObj [(lit "sender", VBool true)];
        VObj [(lit "sender", VStr [])];
        VObj [(lit "sender", VObj [(lit "address", VNum (num_of_Z 7))])];
        VObj [(lit "sender", VObj [(lit "address", VStr [])])];
        VObj [(lit "sender", VObj [])];
        VObj [(lit "sender", VNull)];
        VObj [(lit "sender", VArr [VStr (lit "tz1abc")])];
        VObj [];
        VStr (lit "tz1abc");
        test_operation].

(** [counts] is the tally of the operations [seen]: one entry per address
    that occurs, holding its number of occurrences. *)
Definition tally_of (seen : list value) (counts : object Z) : Prop :=
  NoDup (map fst counts)
  /\ forall a, assoc a counts
               = if occurrences a seen =? 0 then None
                 else Some (occurrences a seen).

(** London again, at 00:30 local time on 31 October 2024, four days after
    the clocks went back. *)
Definition london_autumn_host : Host := mk_host 1730334600000 london_2024.

(** An acquisition on 27 October 2024. *)
Definition october_operation : value :=
  VObj [(lit "timestamp", VStr (lit "2024-10-27T12:00:00Z"));
        (lit "amount", VNum (num_of_Z 2500000))].

(** A second acquisition on 31 March 2024, for 1.5 units. *)
Definition late_operation : value :=
  VObj [(lit "timestamp", VStr (lit "2024-03-31T22:15:00Z"));
        (lit "amount", VNum (num_of_Z 1500000))].

(** An acquisition without label payload and without amount. *)
Definition bare_operation : value :=
  VObj [(lit "id", VNum (num_of_Z 9));
        (lit "timestamp", VStr (lit "2024-03-30T10:00:00Z"))].

(** An acquisition sent by [a]. *)
Definition sent_by (a : string) : value :=
  VObj [(lit "sender", VObj [(lit "address", VStr (lit a))])].

(** * Further definitions: callers and vocabulary of further properties *)


(** ** The dashboard's helpers around the service *)

(** What [formatChange] returns: the badge text and the direction of the
    arrow ([None] is [null]). *)
Module Badge.
Record t : Type := {
  text : jsstring;
  up : option bool
}.
End Badge.

(** [formatChange(val)]; [None] stands for [null] and [undefined]. *)
Definition formatChange (val : option number) : Badge.t :=
  match val with
  | None => {| Badge.text := [8212]; Badge.up := None |}
  | Some v =>
      let up := num_leb num_zero v in
      {| Badge.text :=
           (if up then lit "+" else []) ++ Number_toString v ++ lit "%";
         Badge.up := Some up |}
  end.

(** A host whose every request is answered, with success status, by the
    JSON text of an empty object. *)
Definition empty_object_host : Host :=
  {| Date_now := 1712273400000;
     LocalTZA := utc_zone;
     Date_parse := ISO_parse utc_zone;
     localeCompare := compare_code_units;
     JSON_parse := fun text =>
                     if jsstring_eqb text (lit "{}") then Ok (VObj [])
                     else Throw SyntaxError;
     fetch := fun _ => Response true (BodyText (lit "{}")) |}.

(** The clock is a time value, 48 hours or more inside the range of
    dates. *)
Definition clock_within_48h (h : Host) : Prop :=
  Z.abs (Date_now h) <= 8640000000000000 - 48 * 3600000.

(** A number that is zero or finite: neither [NaN] nor an infinity. *)
Definition is_finite (x : number) : bool :=
  match x with
  | S754_zero _ | S754_finite _ _ _ => true
  | _ => false
  end.

Fixpoint starts_with (prefix s : jsstring) : bool :=
  match prefix, s with
  | [], _ => true
  | p :: prefix', c :: s' => (p =? c) && starts_with prefix' s'
  | _ :: _, [] => false
  end.

Fixpoint contains (part s : jsstring) : bool :=
  starts_with part s
  || match s with
     | [] => false
     | _ :: s' => contains part s'
     end.

(** A host whose server counts 80 operations for every query with an upper
    time limit (the day before the last one) and 403 for every other. *)
Definition counting_host : Host :=
  {| Date_now := 1712273400000;
     LocalTZA := utc_zone;
     Date_parse := ISO_parse utc_zone;
     localeCompare := compare_code_units;
     JSON_parse := reject_json;
     fetch := fun url =>
                Response true
                  (BodyText (if contains (lit "&timestamp.lt=") url
                             then lit "80" else lit "403")) |}.

(** A host whose server answers every request with the same body. *)
Definition answering_host (text : jsstring) : Host :=
  {| Date_now := 1712273400000;
     LocalTZA := utc_zone;
     Date_parse := ISO_parse utc_zone;
     localeCompare := compare_code_units;
     JSON_parse := reject_json;
     fetch := fun _ => Response true (BodyText text) |}.

(** Text that does not continue a decimal numeral: empty, or starting with
    a character that is not a decimal digit. *)
Definition ends_numeral (tail : jsstring) : Prop :=
  match tail with
  | [] => True
  | c :: _ => digit_val 10 c = None
  end.

(** The number [x] is exactly the integer [n]. *)
Definition is_integer (x : number) (n : Z) : Prop :=
  match x with
  | S754_zero _ => n = 0
  | S754_finite s m e =>
      let a := if s then Zneg m else Zpos m in
      if 0 <=? e then n = a * 2 ^ e else n * 2 ^ (- e) = a
  | _ => False
  end.

(** ** Vocabulary of the decoder round trip *)

(** A Unicode scalar value: a code point that is not a surrogate. *)
Definition scalar_value (cp : Z) : bool :=
  ((0 <=? cp) && (cp <? 55296)) || ((57344 <=? cp) && (cp <? 1114112)).

(** The UTF-8 bytes of a code point. *)
Definition utf8_encode (cp : Z) : list Z :=
  if cp <? 128 then [cp]
  else if cp <? 2048 then [192 + cp / 64; 128 + cp mod 64]
  else if cp <? 65536 then
    [224 + cp / 4096; 128 + (cp / 64) mod 64; 128 + cp mod 64]
  else [240 + cp / 262144; 128 + (cp / 4096) mod 64;
        128 + (cp / 64) mod 64; 128 + cp mod 64].

(** Hex digit of a value below 16, in upper or lower case. *)
Definition hex_digit (upper : bool) (v : Z) : Z :=
  if v <? 10 then 48 + v else (if upper then 55 else 87) + v.

Definition hex_of_byte (upper : bool) (b : Z) : jsstring :=
  [hex_digit upper (b / 16); hex_digit upper (b mod 16)].

(** The hex string of a byte sequence, two digits per byte. *)
Definition to_hex (upper : bool) (bytes : list Z) : jsstring :=
  flat_map (hex_of_byte upper) bytes.

(** Does the byte pipeline of [hexToUtf8] recover [b] from its two hex
    digits? *)
Definition hex_byte_back (upper : bool) (b : Z) : bool :=
  ToUint8 (parseInt (hex_of_byte upper b) 16) =? b.

(** [f] holds on each of the [2 ^ depth] integers from [lo] on. *)
Fixpoint holds_on (depth : nat) (f : Z -> bool) (lo : Z) : bool :=
  match depth with
  | O => f lo
  | S d => holds_on d f lo && holds_on d f (lo + 2 ^ Z.of_nat d)
  end.

(** A hex digit, as the pattern of the renewal path has it: a decimal
    digit, or a letter from a to f in either case. *)
Definition hex_char (c : Z) : Prop :=
  48 <= c <= 57 \/ 65 <= c <= 70 \/ 97 <= c <= 102.

(** A renewal whose parameter value is the label [label]. *)
Definition renewal_of (label : string) : value :=
  VObj [(lit "id", VNum (num_of_Z 7));
        (lit "parameter", VObj [(lit "value", VStr (lit label))]);
        (lit "timestamp", VStr (lit "2024-04-01T10:00:00Z"))].

(** ** Vocabulary of the calendar properties *)

(** Local time is at a fixed offset from UTC: no daylight saving and no
    other change of offset. *)
Definition fixed_offset (h : Host) (offset : Z) : Prop :=
  forall t isUTC, LocalTZA h t isUTC = offset.

(** The clock and the 30 days before it lie in the years 1970 to 9999. *)
Definition clock_in_four_digit_years (h : Host) : Prop :=
  30 * msPerDay <= Date_now h <= 253402300799999.

(** The UTC date of a time value, as year-month-day. *)
Definition date_key (t : Z) : jsstring :=
  pad 4 (YearFromTime t) ++ lit "-" ++ pad 2 (MonthFromTime t + 1)
    ++ lit "-" ++ pad 2 (DateFromTime t).

(** The time value [i] days before the clock. *)
Definition days_ago (h : Host) (i : nat) : Z :=
  Date_now h - Z.of_nat i * msPerDay.

(** Is day [d] of a year (leap or not) a day of the month that the month
    table gives for it? *)
Definition date_in_month (leap : bool) (d : Z) : bool :=
  let m := Z.of_nat (List.length
                       (filter (fun m => month_start leap m <=? d)
                               [1; 2; 3; 4; 5; 6; 7; 8; 9; 10; 11])) in
  ((365 + (if leap then 1 else 0)) <=? d)
  || ((1 <=? d - month_start leap m + 1)
      && (d - month_start leap m + 1
          <=? month_start leap (m + 1) - month_start leap m)
      && (month_start leap (m + 1) - month_start leap m <=? 31)).

(** Does [pad w z] have exactly [w] characters? *)
Definition pad_fits (w : nat) (z : Z) : bool :=
  (10 ^ Z.of_nat w <=? z) || (List.length (pad w z) =? w)%nat.

(** Five hours behind UTC all year (Bogota, Lima). *)
Definition utc_minus_5 (t : Z) (isUTC : bool) : Z := -18000000.

Definition bogota_host : Host := mk_host 1712273400000 utc_minus_5.

(** Does the accumulation loop count [op] in one of the buckets [keys]?
    It does when the first ten characters of the timestamp are a key. *)
Definition lands_in (keys : list jsstring) (op : value) : bool :=
  match day_of op with
  | Ok day =>
      truthy day
      && match ToString day with
         | Ok key => existsb (jsstring_eqb key) keys
         | Throw _ => false
         end
  | Throw _ => false
  end.

(** ** [getAffiliateStats]

    The listing comes from the storage client, which is outside the module;
    what it resolves to is taken to be plain data, like the values
    [JSON.parse] returns. *)

(** What [await blink.db.affiliateEvents.list(...)] gives: a rejection, or
    the listed value. *)
Inductive listing_outcome : Type :=
| ListReject
| Listed (events : value).

(** The counters kept for one affiliate code. *)
Module Counters.
Record t : Type := {
  visits : Z;
  clicks : Z;
  conversions : Z
}.
End Counters.

(** The entries returned by [getAffiliateStats]. *)
Module AffiliateRow.
Record t : Type := {
  code : jsstring;
  visits : Z;
  clicks : Z;
  conversions : Z
}.
End AffiliateRow.

(** [v.name], for a name that no built-in prototype defines
    ([affiliateCode], [eventType]). *)
Definition prop (v : value) (name : jsstring) : result value :=
  match v with
  | VUndefined | VNull => Throw TypeError
  | VObj props =>
      match assoc name props with
      | Some x => Ok x
      | None => Ok VUndefined
      end
  | _ => Ok VUndefined
  end.

(** [v === 'literal'] *)
Definition is_literal (v : value) (s : string) : bool :=
  match v with
  | VStr x => jsstring_eqb x (lit s)
  | _ => false
  end.

(** [events.length === 0] *)
Definition has_length_zero (events : value) : bool :=
  match events with
  | VArr [] | VStr [] => true
  | VObj props =>
      match assoc (lit "length") props with
      | Some (VNum (S754_zero _)) => true
      | _ => false
      end
  | _ => false
  end.

(** The code points of a string, each as a string of one or two code
    units. *)
Fixpoint code_points (s : jsstring) : list jsstring :=
  match s with
  | [] => []
  | c1 :: s1 =>
      match s1 with
      | c2 :: s2 =>
          if (55296 <=? c1) && (c1 <=? 56319)
             && (56320 <=? c2) && (c2 <=? 57343)
          then [c1; c2] :: code_points s2
          else [c1] :: code_points s1
      | [] => [[c1]]
      end
  end.

(** What [for (const event of events)] runs over: arrays and strings are
    iterable, other values are not. *)
Definition iterate (events : value) : result (list value) :=
  match events with
  | VArr l => Ok l
  | VStr s => Ok (map VStr (code_points s))
  | _ => Throw TypeError
  end.

Definition no_counts : Counters.t :=
  {| Counters.visits := 0; Counters.clicks := 0; Counters.conversions := 0 |}.

(** [stats[code].visits++] and its two siblings; [update] is the increment
    of one counter. *)
Definition increment (stats : object Counters.t) (key : jsstring)
  (update : Counters.t -> Counters.t) : result (object Counters.t) :=
  cur <- obj_get stats key ;;
  match cur with
  | Some c => Ok (obj_set key (update c) stats)
  | None => Throw TypeError
  end.

(** One iteration of the aggregation loop. *)
Definition count_event (stats : object Counters.t) (event : value)
  : result (object Counters.t) :=
  code <- prop event (lit "affiliateCode") ;;
  key <- ToString code ;;
  found <- obj_get stats key ;;
  let stats :=
    match found with
    | Some _ => stats
    | None => obj_set key no_counts stats
    end in
  ty <- prop event (lit "eventType") ;;
  if is_literal ty "visit" then
    increment stats key
      (fun c => {| Counters.visits := Counters.visits c + 1;
                   Counters.clicks := Counters.clicks c;
                   Counters.conversions := Counters.conversions c |})
  else if is_literal ty "click" then
    increment stats key
      (fun c => {| Counters.visits := Counters.visits c;
                   Counters.clicks := Counters.clicks c + 1;
                   Counters.conversions := Counters.conversions c |})
  else if is_literal ty "conversion" then
    increment stats key
      (fun c => {| Counters.visits := Counters.visits c;
                   Counters.clicks := Counters.clicks c;
                   Counters.conversions := Counters.conversions c + 1 |})
  else Ok stats.

(** [([, a], [, b]) => b.visits - a.visits] *)
Definition by_visits_desc (a b : jsstring * Counters.t) : result (option Z) :=
  Ok (Some (Counters.visits (snd b) - Counters.visits (snd a))).

(** [([code, data]) => ({ code, ...data })] *)
Definition affiliate_row (e : jsstring * Counters.t) : AffiliateRow.t :=
  let '(code, data) := e in
  {| AffiliateRow.code := code;
     AffiliateRow.visits := Counters.visits data;
     AffiliateRow.clicks := Counters.clicks data;
     AffiliateRow.conversions := Counters.conversions data |}.

(** [try { body } catch (err) { return handler }] around code that reads
    plain objects by key: a JavaScript error is caught, the case the
    embedding does not follow is passed on. *)
Definition catch_all {A : Type} (body : result A) (handler : A) : result A :=
  match body with
  | Ok a => Ok a
  | Throw Unmodelled => Throw Unmodelled
  | Throw _ => Ok handler
  end.

(** The [try] block of [getAffiliateStats] once the listing has resolved. *)
Definition aggregate_events (events : value) : result (list AffiliateRow.t) :=
  if negb (truthy events) || has_length_zero events then Ok []
  else
    l <- iterate events ;;
    stats <- foldM count_event l [] ;;
    entries <- Array_sort by_visits_desc (Object_entries stats) ;;
    Ok (map affiliate_row entries).

Definition getAffiliateStats (listing : listing_outcome)
  : result (list AffiliateRow.t) :=
  match listing with
  | ListReject => Ok []
  | Listed events => catch_all (aggregate_events events) []
  end.

(** *** Vocabulary of the affiliate properties *)

Inductive event_kind : Type := visit | click | conversion.

Definition event_kind_eqb (a b : event_kind) : bool :=
  match a, b with
  | visit, visit | click, click | conversion, conversion => true
  | _, _ => false
  end.

(** The key under which an event is counted. *)
Definition event_code (event : value) : result jsstring :=
  code <- prop event (lit "affiliateCode") ;; ToString code.

(** The counter an event adds to, if any. *)
Definition kind_of (event : value) : option event_kind :=
  match prop event (lit "eventType") with
  | Ok ty =>
      if is_literal ty "visit" then Some visit
      else if is_literal ty "click" then Some click
      else if is_literal ty "conversion" then Some conversion
      else None
  | Throw _ => None
  end.

(** Does [event] carry the code [k]? *)
Definition mentions (k : jsstring) (event : value) : bool :=
  match event_code event with
  | Ok c => jsstring_eqb c k
  | Throw _ => false
  end.

(** Is [event] an event of kind [kd] for the code [k]? *)
Definition counted (k : jsstring) (kd : event_kind) (event : value) : bool :=
  mentions k event
  && match kind_of event with
     | Some kd' => event_kind_eqb kd' kd
     | None => false
     end.

Definition count_of (k : jsstring) (kd : event_kind) (events : list value)
  : Z :=
  Z.of_nat (List.length (filter (counted k kd) events)).

Definition counters_of (k : jsstring) (events : list value) : Counters.t :=
  {| Counters.visits := count_of k visit events;
     Counters.clicks := count_of k click events;
     Counters.conversions := count_of k conversion events |}.

(** Every event is a record whose code converts to a string that does not
    name a member of [Object.prototype]. *)
Definition plain_codes (events : list value) : Prop :=
  Forall (fun event => exists k, event_code event = Ok k
                                 /\ is_inherited k = false) events.

(** [stats] holds the counters of the events [seen]: one entry per code
    that occurs. *)
Definition stats_of (seen : list value) (stats : object Counters.t) : Prop :=
  NoDup (map fst stats)
  /\ forall k, assoc k stats
               = if existsb (mentions k) seen
                 then Some (counters_of k seen)
                 else None.

Definition row_visits_desc (a b : AffiliateRow.t) : Prop :=
  AffiliateRow.visits b <= AffiliateRow.visits a.

Definition affiliate_event (code kind : string) : value :=
  VObj [(lit "affiliateCode", VStr (lit code));
        (lit "eventType", VStr (lit kind))].

(** Two visits and a conversion for one partner, one visit and two clicks
    for another, and an event of a kind that is not counted. *)
Definition sample_events : value :=
  VArr [affiliate_event "acme" "visit"; affiliate_event "zed" "visit";
        affiliate_event "zed" "click"; affiliate_event "acme" "conversion";
        affiliate_event "zed" "click"; affiliate_event "acme" "visit";
        affiliate_event "solo" "signup"].

(** An operation as the growth query selects it: a record with a string
    timestamp, whose first ten characters do not name a member of
    [Object.prototype], and an amount that is absent or a primitive
    value. *)
Definition growth_record (op : value) : Prop :=
  (exists s, get op p_timestamp = Ok (VStr s)
             /\ is_inherited (slice0 10 s) = false)
  /\ (exists a, get op p_amount = Ok a /\ primitive a = true).

(** The keys of the 31 UTC dates that end with the clock's. *)
Definition window_keys (h : Host) : list jsstring :=
  map (fun j => date_key (days_ago h j)) (rev (seq 0 31)).

(** Number of operations whose timestamp starts with [key]. *)
Definition on_day (key : jsstring) (ops : list value) : Z :=
  Z.of_nat (List.length (filter (lands_in [key]) ops)).

(** The host's collation puts the date keys of the window in calendar
    order: a later date never sorts before an earlier one. *)
Definition collates_dates (h : Host) : Prop :=
  StronglySorted (fun earlier later => 0 <= localeCompare h later earlier)
                 (window_keys h).


(** * Properties *)

(** ** Rounding keeps the sign *)

Lemma shr_1_nonneg (mrs : shr_record) :
  0 <= shr_m mrs -> 0 <= shr_m (shr_1 mrs).
Proof.
  destruct mrs as [m r s]; simpl; intros Hm.
  destruct m as [|p|p]; simpl; try lia; destruct p; simpl; lia.
Qed.

Lemma iter_shr_1_nonneg (n : positive) :
  forall mrs, 0 <= shr_m mrs -> 0 <= shr_m (iter_pos shr_1 n mrs).
Proof.
  induction n; intros mrs Hm; simpl; auto using shr_1_nonneg.
Qed.

Lemma shr_record_of_loc_m (m : Z) (l : location) :
  shr_m (shr_record_of_loc m l) = m.
Proof. destruct l as [|[]]; reflexivity. Qed.

Lemma shr_fexp_nonneg (m e : Z) (l : location) :
  0 <= m -> 0 <= shr_m (fst (shr_fexp prec emax m e l)).
Proof.
  intros Hm. unfold shr_fexp, shr.
  destruct (fexp prec emax (Zdigits2 m + e) - e); simpl;
    try (rewrite shr_record_of_loc_m; exact Hm).
  apply iter_shr_1_nonneg. rewrite shr_record_of_loc_m; exact Hm.
Qed.

Lemma round_nearest_even_nonneg (m : Z) (l : location) :
  0 <= m -> 0 <= round_nearest_even m l.
Proof.
  intros Hm. destruct l as [|[]]; simpl; try lia.
  destruct (Z.even m); lia.
Qed.

Lemma binary_round_aux_sign (s : bool) (m e : Z) (l : location) :
  0 <= m -> has_sign s (binary_round_aux prec emax s m e l).
Proof.
  intros Hm. unfold binary_round_aux.
  pose proof (shr_fexp_nonneg m e l Hm) as H1.
  destruct (shr_fexp prec emax m e l) as [mrs' e'] eqn:E1. simpl in H1.
  pose proof (shr_fexp_nonneg
                (round_nearest_even (shr_m mrs') (loc_of_shr_record mrs'))
                e' loc_Exact
                (round_nearest_even_nonneg _ _ H1)) as H2.
  destruct (shr_fexp prec emax _ e' loc_Exact) as [mrs'' e''] eqn:E2.
  simpl in H2.
  destruct (shr_m mrs'') as [|p|p]; try lia.
  - reflexivity.
  - destruct (e'' <=? emax - prec); reflexivity.
Qed.

Lemma div_core_nonneg (mx my : positive) (ex ey : Z) :
  0 <= fst (fst (SFdiv_core_binary prec emax (Zpos mx) ex (Zpos my) ey)).
Proof.
  unfold SFdiv_core_binary.
  set (s := ex - ey - _).
  set (m' := match s with Z0 => _ | Zpos _ => _ | Zneg _ => _ end).
  assert (Hm' : 0 <= m').
  { subst m'. destruct s; try lia. apply Z.shiftl_nonneg. lia. }
  pose proof (Z.div_eucl_eq m' (Zpos my) ltac:(lia)) as Heq.
  pose proof (Z.mod_pos_bound m' (Zpos my) ltac:(lia)) as Hr.
  unfold Z.modulo in Hr.
  destruct (Z.div_eucl m' (Zpos my)) as [q r]. simpl.
  nia.
Qed.

(** Dividing by a positive number keeps the sign. *)
Lemma num_div_sign (s : bool) (x : number) (my : positive) (ey : Z) :
  has_sign s x -> has_sign s (num_div x (S754_finite false my ey)).
Proof.
  destruct x as [sx|sx| |sx mx ex]; simpl; intros H; try contradiction;
    subst; try (destruct s; reflexivity).
  pose proof (div_core_nonneg mx my ex ey) as Hq.
  destruct (SFdiv_core_binary prec emax (Zpos mx) ex (Zpos my) ey)
    as [[q e'] l]. simpl in Hq.
  replace (xorb s false) with s by (destruct s; reflexivity).
  apply binary_round_aux_sign. exact Hq.
Qed.

Lemma has_sign_nonneg (x : number) : has_sign false x -> num_leb num_zero x = true.
Proof. destruct x as [[]|[]| |[] m e]; simpl; intros H; try discriminate; try contradiction; reflexivity. Qed.

Lemma nonneg_sign_or_zero (x : number) :
  num_leb num_zero x = true ->
  has_sign false x \/ x = S754_zero true.
Proof.
  destruct x as [[]|[]| |[] m e]; simpl; intros H; try discriminate; auto.
Qed.

(** ** Positive integers convert to positive numbers *)

Lemma digits2_pos_bounds (p : positive) :
  2 ^ (Zpos (digits2_pos p) - 1) <= Zpos p < 2 ^ Zpos (digits2_pos p).
Proof.
  induction p as [p IH|p IH|]; simpl digits2_pos.
  - rewrite Pos2Z.inj_succ.
    replace (Z.succ (Zpos (digits2_pos p)) - 1) with (Z.succ (Zpos (digits2_pos p) - 1)) by lia.
    rewrite !Z.pow_succ_r by lia. lia.
  - rewrite Pos2Z.inj_succ.
    replace (Z.succ (Zpos (digits2_pos p)) - 1) with (Z.succ (Zpos (digits2_pos p) - 1)) by lia.
    rewrite !Z.pow_succ_r by lia. lia.
  - simpl. lia.
Qed.

Lemma shr_1_half (mrs : shr_record) :
  0 <= shr_m mrs -> shr_m (shr_1 mrs) = shr_m mrs / 2.
Proof.
  destruct mrs as [m r s]; simpl; intros Hm.
  destruct m as [|p|p]; try lia; [reflexivity|].
  destruct p as [p|p|]; simpl shr_m.
  - apply Z.div_unique with (r := 1); lia.
  - apply Z.div_unique with (r := 0); lia.
  - reflexivity.
Qed.

Lemma pow2_xO (n : positive) : 2 ^ Zpos n~0 = 2 ^ Zpos n * 2 ^ Zpos n.
Proof. rewrite Pos2Z.inj_xO, <- Z.pow_add_r by lia. f_equal. lia. Qed.

Lemma pow2_xI (n : positive) : 2 ^ Zpos n~1 = 2 * (2 ^ Zpos n * 2 ^ Zpos n).
Proof.
  rewrite Pos2Z.inj_xI, <- Z.pow_add_r by lia.
  replace (2 * Zpos n + 1) with (Z.succ (Zpos n + Zpos n)) by lia.
  rewrite Z.pow_succ_r by lia. reflexivity.
Qed.

Lemma iter_shr_1_div (n : positive) :
  forall mrs, 0 <= shr_m mrs ->
              shr_m (iter_pos shr_1 n mrs) = shr_m mrs / 2 ^ Zpos n.
Proof.
  induction n as [n IH|n IH|]; intros mrs Hm; simpl iter_pos.
  - rewrite IH by (apply iter_shr_1_nonneg, shr_1_nonneg, Hm).
    rewrite IH by (apply shr_1_nonneg, Hm).
    rewrite shr_1_half by exact Hm.
    rewrite pow2_xI.
    assert (0 < 2 ^ Zpos n) by (apply Z.pow_pos_nonneg; lia).
    rewrite !Z.div_div by lia. try reflexivity; try (f_equal; lia).
  - rewrite IH by (apply iter_shr_1_nonneg, Hm).
    rewrite IH by exact Hm.
    rewrite pow2_xO.
    assert (0 < 2 ^ Zpos n) by (apply Z.pow_pos_nonneg; lia).
    rewrite !Z.div_div by lia. try reflexivity; try (f_equal; lia).
  - rewrite shr_1_half by exact Hm. reflexivity.
Qed.

Lemma shr_fexp_pos (p : positive) (e : Z) (l : location) :
  emin prec emax <= e ->
  0 < shr_m (fst (shr_fexp prec emax (Zpos p) e l))
  /\ emin prec emax <= snd (shr_fexp prec emax (Zpos p) e l).
Proof.
  intros He. unfold shr_fexp, shr.
  pose proof (digits2_pos_bounds p) as [Hlo _].
  simpl Zdigits2.
  set (d := Zpos (digits2_pos p)) in *.
  assert (Hn : fexp prec emax (d + e) - e <= d - 1).
  { unfold fexp, emin, prec, emax in *. lia. }
  destruct (fexp prec emax (d + e) - e) as [|n|n] eqn:En; simpl;
    try (rewrite shr_record_of_loc_m; split; lia).
  rewrite iter_shr_1_div by (rewrite shr_record_of_loc_m; lia).
  rewrite shr_record_of_loc_m. split; [|lia].
  apply Z.div_str_pos. split; [lia|].
  apply Z.le_trans with (2 ^ (d - 1)); [|exact Hlo].
  apply Z.pow_le_mono_r; lia.
Qed.

Lemma binary_round_aux_strict (s : bool) (p : positive) (e : Z) (l : location) :
  emin prec emax <= e ->
  has_strict_sign s (binary_round_aux prec emax s (Zpos p) e l).
Proof.
  intros He. unfold binary_round_aux.
  destruct (shr_fexp_pos p e l He) as [H1 H1e].
  destruct (shr_fexp prec emax (Zpos p) e l) as [mrs' e'] eqn:E1.
  simpl in H1, H1e.
  assert (Hr : 0 < round_nearest_even (shr_m mrs') (loc_of_shr_record mrs')).
  { destruct (loc_of_shr_record mrs') as [|[]]; simpl; try lia.
    destruct (Z.even (shr_m mrs')); lia. }
  destruct (round_nearest_even (shr_m mrs') (loc_of_shr_record mrs'))
    as [|q|q] eqn:Eq; try lia.
  destruct (shr_fexp_pos q e' loc_Exact H1e) as [H2 _].
  destruct (shr_fexp prec emax (Zpos q) e' loc_Exact) as [mrs'' e''].
  simpl in H2.
  destruct (shr_m mrs'') as [|r|r]; try lia.
  destruct (e'' <=? emax - prec); reflexivity.
Qed.

Lemma num_of_Z_pos (z : Z) : 0 < z -> has_strict_sign false (num_of_Z z).
Proof.
  intros Hz. destruct z as [|p|p]; try lia.
  unfold num_of_Z, binary_normalize, binary_round.
  destruct (shl_align p 0 (fexp prec emax (Zpos (digits2_pos p) + 0)))
    as [mz ez] eqn:E.
  apply binary_round_aux_strict.
  unfold shl_align in E.
  destruct (fexp prec emax (Zpos (digits2_pos p) + 0) - 0) eqn:E';
    inversion E; subst; unfold fexp, emin, prec, emax in *; lia.
Qed.

Lemma strict_sign_gt_zero (x : number) :
  has_strict_sign false x ->
  num_ltb num_zero x = true /\ num_eqb x num_zero = false.
Proof.
  destruct x as [[]|[]| |[] m e]; simpl; intros H;
    try discriminate; try contradiction; split; reflexivity.
Qed.

(** ** Percentage change *)

(** Without a baseline the change is 100 when there is activity and [null]
    when there is none. *)
Lemma pct_zero_baseline (c : Z) :
  0 <= c ->
  pct (num_of_Z c) (num_of_Z 0)
  = if 0 <? c then Some (num_of_Z 100) else None.
Proof.
  intros Hc. destruct (Z.ltb_spec 0 c) as [Hpos|Hle].
  - unfold pct.
    destruct (strict_sign_gt_zero _ (num_of_Z_pos c Hpos)) as [Hgt _].
    change (num_eqb (num_of_Z 0) num_zero) with true. cbv iota.
    rewrite Hgt. reflexivity.
  - replace c with 0 by lia. reflexivity.
Qed.

(** C1 fails on the code.  After 80 acquisitions in the previous day and 403
    in the last one the change is 403.75 percent, which rounded to one
    decimal place is 403.8.  The code returns 403.7: the quotient 323 / 80
    is not a binary fraction, the product with 1000 comes out just below
    4037.5, and [Math.round] takes it down.  The same kind of tie goes up
    for 81 after 80 (1.25 percent gives 1.3), so the code rounds ties now
    one way, now the other. *)
Theorem pct_rounds_a_tie_down :
  tenths_of_percent 403 80 = 4038
  /\ pct_one_decimal 403 80 = num_div (num_of_Z 4038) (num_of_Z 10)
  /\ Number_toString (pct_one_decimal 403 80) = lit "403.8"
  /\ pct (num_of_Z 403) (num_of_Z 80)
     = Some (num_div (num_of_Z 4037) (num_of_Z 10))
  /\ option_map Number_toString (pct (num_of_Z 403) (num_of_Z 80))
     = Some (lit "403.7")
  /\ Number_toString
       (num_mul (num_div (num_sub (num_of_Z 403) (num_of_Z 80)) (num_of_Z 80))
                (num_of_Z 1000))
     = lit "4037.4999999999995"
  /\ tenths_of_percent 81 80 = 13
  /\ pct (num_of_Z 81) (num_of_Z 80) = Some (pct_one_decimal 81 80).
Proof. repeat split; vm_compute; reflexivity. Qed.

(** Scenario A: five acquisitions after four give a change of 25. *)
Example pct_5_4 : pct (num_of_Z 5) (num_of_Z 4) = Some (num_of_Z 25).
Proof. vm_compute. reflexivity. Qed.

(** One decimal place: 124 after 123 is a change of 0.8 percent. *)
Example pct_124_123 :
  pct (num_of_Z 124) (num_of_Z 123)
  = Some (num_div (num_of_Z 8) (num_of_Z 10)).
Proof. vm_compute. reflexivity. Qed.

(** On small counts the result is the percentage to one decimal place. *)
Example pct_one_decimal_small :
  forallb (fun p =>
             forallb (fun c =>
                        match pct (num_of_Z c) (num_of_Z p) with
                        | Some x => num_eqb x (pct_one_decimal c p)
                        | None => false
                        end) (upto 50 0)) (upto 50 1)
  = true.
Proof. vm_compute. reflexivity. Qed.

(** ** An unreachable indexer *)

Lemma fetchCount_failed (h : Host) (url : jsstring) :
  fetch_fails (fetch h url) = true -> fetchCount h url = num_zero.
Proof.
  unfold fetchCount, fetch_fails.
  destruct (fetch h url) as [|[] [|[|c text]]]; simpl; intros H;
    try reflexivity; discriminate.
Qed.

Lemma fetchJson_failed (h : Host) (url : jsstring) :
  fetch_fails (fetch h url) = true -> fetchJson h url = VNull.
Proof.
  unfold fetchJson, fetch_fails.
  destruct (fetch h url) as [|[] [|[|c text]]]; simpl; intros H;
    try reflexivity; discriminate.
Qed.

Lemma isoAgo_ok (h : Host) (hours : Z) :
  clock_in_range h -> 0 <= hours <= 30 * 24 ->
  exists s, isoAgo h hours = Ok s.
Proof.
  unfold clock_in_range, isoAgo, TimeClip. intros Hc Hh.
  destruct (Z.abs (Date_now h - hours * 3600000) <=? 8640000000000000) eqn:E.
  - simpl. eexists. reflexivity.
  - apply Z.leb_gt in E. lia.
Qed.

(** C2.  When every fetch of a refresh cycle fails (network error,
    non-success status or empty body), the four aggregators resolve:
    [getStats] with every metric zero and every change [null], the other
    three with an empty array. *)
Theorem unreachable_indexer (h : Host)
  (Hclock : clock_in_range h)
  (Hfail : forall url, fetch_fails (fetch h url) = true) :
  getStats h = Ok empty_stats
  /\ getRecentActivity h = Ok []
  /\ getGrowthData h = Ok []
  /\ getTopHolders h = Ok [].
Proof.
  repeat split.
  - unfold getStats.
    destruct (isoAgo_ok h 24 Hclock ltac:(lia)) as [s24 ->].
    destruct (isoAgo_ok h 48 Hclock ltac:(lia)) as [s48 ->].
    simpl bind. rewrite !fetchCount_failed by apply Hfail. reflexivity.
  - unfold getRecentActivity. rewrite !fetchJson_failed by apply Hfail.
    reflexivity.
  - unfold getGrowthData.
    destruct (isoAgo_ok h (30 * 24) Hclock ltac:(lia)) as [s ->].
    simpl bind. rewrite fetchJson_failed by apply Hfail. reflexivity.
  - unfold getTopHolders. rewrite fetchJson_failed by apply Hfail.
    reflexivity.
Qed.

Lemma unreachable_indexer_witness :
  let h := mk_host 1712273400000 utc_zone in
  getStats h = Ok empty_stats
  /\ getRecentActivity h = Ok []
  /\ getGrowthData h = Ok []
  /\ getTopHolders h = Ok [].
Proof.
  intros h. apply (unreachable_indexer h).
  - unfold clock_in_range. simpl. lia.
  - intros url. reflexivity.
Defined.

(** ** The error monad *)

Lemma bind_ok {A B : Type} (r : result A) (k : A -> result B) (b : B) :
  bind r k = Ok b -> exists a, r = Ok a /\ k a = Ok b.
Proof. destruct r as [a|e]; simpl; intros H; [eauto | discriminate]. Qed.

Ltac inv_bind H :=
  let a := fresh "x" in
  let Ha := fresh "E" in
  apply bind_ok in H; destruct H as (a & Ha & H).

Lemma mapM_Forall2 {A B : Type} (f : A -> result B) (l : list A) :
  forall r, mapM f l = Ok r -> Forall2 (fun a b => f a = Ok b) l r.
Proof.
  induction l as [|a l IH]; simpl; intros r H.
  - inversion H. constructor.
  - inv_bind H. inv_bind H. inversion H; subst. constructor; auto.
Qed.

Lemma mapM_total {A B : Type} (f : A -> result B) (l : list A) :
  Forall (fun a => exists b, f a = Ok b) l -> exists r, mapM f l = Ok r.
Proof.
  induction 1 as [|a l [b Hb] _ [r Hr]]; simpl.
  - eauto.
  - rewrite Hb. simpl. rewrite Hr. simpl. eauto.
Qed.

Lemma Forall2_In_r {A B : Type} (R : A -> B -> Prop) (l : list A) (r : list B) :
  Forall2 R l r -> forall b, In b r -> exists a, In a l /\ R a b.
Proof.
  induction 1 as [|a b l r Hab _ IH]; simpl; intros b' Hin.
  - contradiction.
  - destruct Hin as [<-|Hin]; [eauto|].
    destruct (IH _ Hin) as (a' & Ha' & HR). eauto.
Qed.

(** ** Sorting *)

Section Sorting.
Context {A : Type}.
Variable comparefn : A -> A -> result (option Z).

Lemma sort_insert_perm (x : A) (l : list A) :
  forall r, sort_insert comparefn x l = Ok r -> Permutation (x :: l) r.
Proof.
  induction l as [|y l IH]; simpl; intros r H.
  - inversion H. reflexivity.
  - inv_bind H. destruct (order x0 <? 0).
    + inversion H. reflexivity.
    + inv_bind H. inversion H; subst.
      rewrite perm_swap. constructor. auto.
Qed.

Lemma sort_fold_perm (l : list A) :
  forall acc r,
    foldM (fun acc x => sort_insert comparefn x acc) l acc = Ok r ->
    Permutation (acc ++ l) r.
Proof.
  induction l as [|a l IH]; simpl; intros acc r H.
  - inversion H. rewrite app_nil_r. reflexivity.
  - inv_bind H. apply IH in H. apply sort_insert_perm in E.
    rewrite <- H. rewrite <- Permutation_middle.
    change (a :: acc ++ l) with ((a :: acc) ++ l).
    apply Permutation_app_tail. exact E.
Qed.

Lemma Array_sort_perm (l r : list A) :
  Array_sort comparefn l = Ok r -> Permutation l r.
Proof. intros H. apply sort_fold_perm in H. exact H. Qed.

Lemma sort_insert_total (x : A) (l : list A) :
  Forall (fun y => exists c, comparefn x y = Ok c) l ->
  exists r, sort_insert comparefn x l = Ok r.
Proof.
  induction 1 as [|y l [c Hc] _ [r Hr]]; simpl.
  - eauto.
  - rewrite Hc. simpl. destruct (order c <? 0); [eauto|].
    rewrite Hr. simpl. eauto.
Qed.

Lemma sort_fold_total (l : list A) :
  forall acc,
    (forall a b, In a (acc ++ l) -> In b (acc ++ l) ->
                 exists c, comparefn a b = Ok c) ->
    exists r, foldM (fun acc x => sort_insert comparefn x acc) l acc = Ok r.
Proof.
  induction l as [|a l IH]; simpl; intros acc Hc.
  - eauto.
  - destruct (sort_insert_total a acc) as [acc' Hacc'].
    { apply Forall_forall. intros y Hy. apply Hc; apply in_or_app; simpl; auto. }
    rewrite Hacc'. simpl. apply IH.
    apply sort_insert_perm in Hacc'.
    intros x y Hx Hy. apply Hc.
    + rewrite <- Permutation_middle.
      apply in_app_or in Hx. destruct Hx as [Hx|Hx].
      * apply (Permutation_in _ (Permutation_sym Hacc')) in Hx.
        destruct Hx as [<-|Hx]; [left; reflexivity|right; apply in_or_app; auto].
      * right. apply in_or_app; auto.
    + rewrite <- Permutation_middle.
      apply in_app_or in Hy. destruct Hy as [Hy|Hy].
      * apply (Permutation_in _ (Permutation_sym Hacc')) in Hy.
        destruct Hy as [<-|Hy]; [left; reflexivity|right; apply in_or_app; auto].
      * right. apply in_or_app; auto.
Qed.

Lemma Array_sort_total (l : list A) :
  (forall a b, In a l -> In b l -> exists c, comparefn a b = Ok c) ->
  exists r, Array_sort comparefn l = Ok r.
Proof. intros H. apply sort_fold_total. exact H. Qed.

(** When the comparator is the difference of an integer key, the result
    is in non-increasing order of that key. *)
Variable key : A -> Z.

Lemma sort_insert_sorted (x : A) (l : list A) :
  (forall y, In y l -> comparefn x y = Ok (Some (key y - key x))) ->
  StronglySorted (desc_by key) l ->
  forall r, sort_insert comparefn x l = Ok r -> StronglySorted (desc_by key) r.
Proof.
  induction l as [|y l IH]; simpl; intros Hc Hs r H.
  - inversion H. repeat constructor.
  - rewrite (Hc y) in H by auto. simpl in H.
    inversion Hs as [|? ? Hs' Hall]; subst.
    destruct (key y - key x <? 0) eqn:E.
    + inversion H; subst. constructor; [exact Hs|].
      constructor.
      * unfold desc_by. apply Z.ltb_lt in E. lia.
      * apply Z.ltb_lt in E. eapply Forall_impl; [|exact Hall].
        unfold desc_by. intros; lia.
    + inv_bind H. inversion H; subst.
      constructor.
      * apply IH; auto.
      * apply sort_insert_perm in E0.
        apply Forall_forall. intros z Hz.
        apply (Permutation_in _ (Permutation_sym E0)) in Hz.
        destruct Hz as [<-|Hz].
        -- unfold desc_by. apply Z.ltb_ge in E. lia.
        -- rewrite Forall_forall in Hall. auto.
Qed.

Lemma sort_fold_sorted (l : list A) :
  forall acc,
    (forall a b, In a (acc ++ l) -> In b (acc ++ l) ->
                 comparefn a b = Ok (Some (key b - key a))) ->
    StronglySorted (desc_by key) acc ->
    forall r,
      foldM (fun acc x => sort_insert comparefn x acc) l acc = Ok r ->
      StronglySorted (desc_by key) r.
Proof.
  induction l as [|a l IH]; simpl; intros acc Hc Hs r H.
  - inversion H; subst. exact Hs.
  - inv_bind H.
    assert (Hperm := sort_insert_perm _ _ _ E).
    apply (IH x); auto.
    + intros u v Hu Hv. apply Hc.
      * rewrite <- Permutation_middle.
        apply in_app_or in Hu. destruct Hu as [Hu|Hu].
        -- apply (Permutation_in _ (Permutation_sym Hperm)) in Hu.
           destruct Hu as [<-|Hu]; [left; reflexivity|right; apply in_or_app; auto].
        -- right. apply in_or_app; auto.
      * rewrite <- Permutation_middle.
        apply in_app_or in Hv. destruct Hv as [Hv|Hv].
        -- apply (Permutation_in _ (Permutation_sym Hperm)) in Hv.
           destruct Hv as [<-|Hv]; [left; reflexivity|right; apply in_or_app; auto].
        -- right. apply in_or_app; auto.
    + eapply sort_insert_sorted; [| exact Hs | exact E].
      intros y Hy. apply Hc; apply in_or_app; simpl; auto.
Qed.

Lemma Array_sort_sorted (l r : list A) :
  (forall a b, In a l -> In b l ->
               comparefn a b = Ok (Some (key b - key a))) ->
  Array_sort comparefn l = Ok r -> StronglySorted (desc_by key) r.
Proof.
  intros Hc H. eapply sort_fold_sorted; [| constructor | exact H]. exact Hc.
Qed.
End Sorting.

Lemma In_firstn {A : Type} (n : nat) (l : list A) (x : A) :
  In x (firstn n l) -> In x l.
Proof.
  revert l. induction n as [|n IH]; intros [|a l]; simpl; try tauto.
  intros [->|H]; auto.
Qed.

Lemma StronglySorted_firstn {A : Type} (R : A -> A -> Prop) (n : nat) (l : list A) :
  StronglySorted R l -> StronglySorted R (firstn n l).
Proof.
  intros Hs. revert n. induction Hs as [|a l Hs IH Hall]; intros [|n]; simpl;
    try constructor; auto.
  apply Forall_forall. intros x Hx. apply In_firstn in Hx.
  rewrite Forall_forall in Hall. auto.
Qed.

Lemma NoDup_firstn {A : Type} (n : nat) (l : list A) :
  NoDup l -> NoDup (firstn n l).
Proof.
  intros Hn. revert n. induction Hn as [|a l Hnin Hn IH]; intros [|n]; simpl;
    try constructor; auto.
  intros Hin. apply In_firstn in Hin. contradiction.
Qed.

Lemma StronglySorted_impl_in {A : Type} (R R' : A -> A -> Prop) (l : list A) :
  (forall a b, In a l -> In b l -> R a b -> R' a b) ->
  StronglySorted R l -> StronglySorted R' l.
Proof.
  intros Himp Hs. induction Hs as [|a l Hs IH Hall].
  - constructor.
  - constructor.
    + apply IH. intros; apply Himp; simpl; auto.
    + rewrite Forall_forall in *. intros x Hx.
      apply Himp; simpl; auto.
Qed.

(** ** The activity feed *)

Lemma push_items_Forall2 (item : value -> result ActivityItem.t) (ops : value) :
  forall l, push_items item ops = Ok l ->
            Forall2 (fun op ev => item op = Ok ev) (elements ops) l.
Proof.
  intros l H. destruct ops; simpl in *;
    try (inversion H; constructor).
  apply mapM_Forall2. exact H.
Qed.

Lemma push_items_total (item : value -> result ActivityItem.t) (ops : value) :
  Forall (fun op => exists ev, item op = Ok ev) (elements ops) ->
  exists l, push_items item ops = Ok l.
Proof.
  intros H. destruct ops; simpl in *; eauto.
  apply mapM_total. exact H.
Qed.

(** The feed is the first fifteen of the sorted merge of the two lists of
    items. *)
Lemma recentActivity_inv (h : Host) (buys renews : value)
  (evs : list ActivityItem.t) :
  recentActivity h buys renews = Ok evs ->
  exists bs rs sorted,
    Forall2 (fun op ev => buy_item op = Ok ev) (elements buys) bs
    /\ Forall2 (fun op ev => renew_item op = Ok ev) (elements renews) rs
    /\ Array_sort (by_timestamp_desc h) (bs ++ rs) = Ok sorted
    /\ evs = firstn 15 sorted.
Proof.
  unfold recentActivity. intros H.
  inv_bind H. inv_bind H. inv_bind H. inversion H; subst.
  exists x, x0, x1. repeat split; auto using push_items_Forall2.
Qed.

(** Every event of the feed is the item of one of the fetched operations. *)
Lemma recentActivity_origin (h : Host) (buys renews : value)
  (evs : list ActivityItem.t) :
  recentActivity h buys renews = Ok evs ->
  forall ev, In ev evs ->
    exists op, (In op (elements buys) /\ buy_item op = Ok ev)
               \/ (In op (elements renews) /\ renew_item op = Ok ev).
Proof.
  intros H ev Hin.
  destruct (recentActivity_inv _ _ _ _ H) as (bs & rs & sorted & Hb & Hr & Hs & ->).
  apply In_firstn in Hin.
  apply Array_sort_perm in Hs.
  apply (Permutation_in _ (Permutation_sym Hs)) in Hin.
  apply in_app_or in Hin. destruct Hin as [Hin|Hin].
  - destruct (Forall2_In_r _ _ _ Hb _ Hin) as (op & Hop & Hev). eauto.
  - destruct (Forall2_In_r _ _ _ Hr _ Hin) as (op & Hop & Hev). eauto.
Qed.

Lemma event_time_Date_of (h : Host) (ev : ActivityItem.t) (t : Z) :
  event_time h ev = Some t ->
  Date_of h (ActivityItem.timestamp ev) = Ok (Some t).
Proof.
  unfold event_time.
  destruct (Date_of h (ActivityItem.timestamp ev)) as [[t'|]|e];
    intros H; inversion H; reflexivity.
Qed.

Lemma by_timestamp_desc_dated (h : Host) (a b : ActivityItem.t) (ta tb : Z) :
  event_time h a = Some ta -> event_time h b = Some tb ->
  by_timestamp_desc h a b = Ok (Some (time_key h b - time_key h a)).
Proof.
  intros Ha Hb. unfold by_timestamp_desc, time_key.
  rewrite Ha, Hb.
  rewrite (event_time_Date_of _ _ _ Ha), (event_time_Date_of _ _ _ Hb).
  reflexivity.
Qed.

Lemma dated_items (h : Host) (item : value -> result ActivityItem.t)
  (ops : list value) (l : list ActivityItem.t) :
  Forall (dated_operation h item) ops ->
  Forall2 (fun op ev => item op = Ok ev) ops l ->
  Forall (fun ev => exists t, event_time h ev = Some t) l.
Proof.
  intros Hd H2. induction H2 as [|op ev ops l Hev _ IH].
  - constructor.
  - inversion Hd as [|? ? (ev' & t & Hev' & Ht) Hd']; subst.
    rewrite Hev in Hev'. inversion Hev'; subst.
    constructor; eauto.
Qed.

Lemma ToString_primitive (v : value) :
  primitive v = true -> exists s, ToString v = Ok s.
Proof. destruct v; simpl; intros H; try discriminate; eauto. Qed.

Lemma ToNumber_primitive (v : value) :
  primitive v = true -> exists x, ToNumber v = Ok x.
Proof. destruct v; simpl; intros H; try discriminate; eauto. Qed.

Lemma hexToUtf8_primitive (v : value) :
  primitive v = true -> primitive (hexToUtf8 v) = true.
Proof. destruct v; simpl; intros H; try discriminate; reflexivity. Qed.

Lemma get_ok_not_nullish (op : value) (f : field) (v : value) :
  get op f = Ok v -> is_nullish op = false.
Proof. destruct op; simpl; intros H; try discriminate; reflexivity. Qed.

Lemma get_total (op : value) (f : field) :
  is_nullish op = false -> exists v, get op f = Ok v.
Proof.
  destruct op; simpl; intros H; try discriminate; eauto.
  destruct (assoc (field_name f) props); eauto.
Qed.

Lemma amount_of_primitive (op a : value) :
  get op p_amount = Ok a -> primitive a = true ->
  exists amt, amount_of op = Ok amt.
Proof.
  intros Ha Hp. unfold amount_of. rewrite Ha. cbn [bind].
  destruct (ToNumber_primitive (or_else a (VNum num_zero))) as [x ->].
  - unfold or_else. destruct (truthy a); [exact Hp|reflexivity].
  - cbn [bind]. eauto.
Qed.

Lemma event_time_string (h : Host) (ev : ActivityItem.t) (s : jsstring) (t : Z) :
  ActivityItem.timestamp ev = VStr s -> Date_parse h s = Some t ->
  event_time h ev = Some t.
Proof. intros Hs Ht. unfold event_time. rewrite Hs. simpl. rewrite Ht. reflexivity. Qed.

(** Operation records convert, on the acquisition path and on the renewal
    path. *)
Lemma Operation_buy_dated (h : Host) (op : value) :
  Operation h buy_label op -> dated_operation h buy_item op.
Proof.
  intros ((i & Hi & Hpi) & (l & Hl & Hpl) & (a & Ha & Hpa) & (s & t & Hs & Ht)).
  unfold buy_label in Hl. inv_bind Hl. inversion Hl; subst l. clear Hl.
  destruct (ToString_primitive i Hpi) as [ids Hids].
  destruct (ToString_primitive _ (hexToUtf8_primitive _ Hpl)) as [ls Hls].
  destruct (amount_of_primitive _ _ Ha Hpa) as [amt Hamt].
  destruct (get_total op p_sender (get_ok_not_nullish _ _ _ Hi)) as [snd Hsnd].
  unfold dated_operation, buy_item.
  rewrite E, Hi. cbn [bind]. rewrite Hids. cbn [bind].
  rewrite Hls, Hsnd, Hs, Hamt.
  destruct (truthy (get_opt (get_opt x p_value) p_label)); cbn [bind];
    eexists; exists t; (split; [reflexivity|]);
    (apply (event_time_string h _ s t); [reflexivity|exact Ht]).
Qed.

Lemma Operation_renew_dated (h : Host) (op : value) :
  Operation h renew_label op -> dated_operation h renew_item op.
Proof.
  intros ((i & Hi & Hpi) & (l & Hl & Hpl) & (a & Ha & Hpa) & (s & t & Hs & Ht)).
  unfold renew_label in Hl. inv_bind Hl. inversion Hl; subst l. clear Hl.
  set (lbl := coalesce (get_opt (get_opt x p_value) p_label) (get_opt x p_value)) in *.
  destruct (ToString_primitive i Hpi) as [ids Hids].
  assert (Hname : primitive
                    (if is_string lbl
                        && match lbl with VStr s => test_hex s | _ => false end
                     then hexToUtf8 lbl else or_else lbl unknown) = true).
  { destruct (is_string lbl && _).
    - apply hexToUtf8_primitive. exact Hpl.
    - unfold or_else. destruct (truthy lbl); [exact Hpl|reflexivity]. }
  destruct (ToString_primitive _ Hname) as [ns Hns].
  destruct (amount_of_primitive _ _ Ha Hpa) as [amt Hamt].
  destruct (get_total op p_sender (get_ok_not_nullish _ _ _ Hi)) as [snd Hsnd].
  unfold dated_operation, renew_item.
  rewrite E. cbn [bind]. fold lbl. rewrite Hi. cbn [bind].
  rewrite Hids. cbn [bind]. rewrite Hns. cbn [bind].
  rewrite Hsnd, Hs, Hamt. cbn [bind].
  eexists; exists t; (split; [reflexivity|]).
  apply (event_time_string h _ s t); [reflexivity|exact Ht].
Qed.

(** C5.  For every pair of fetch results (each an array of operation
    records, or [null]), [getRecentActivity] returns at most 15 events in
    non-increasing order of timestamp: the first 15 of the merged events
    sorted by descending timestamp. *)
Theorem recent_activity_sorted_and_capped (h : Host) (buys renews : value)
  (Hbuys : Forall (Operation h buy_label) (elements buys))
  (Hrenews : Forall (Operation h renew_label) (elements renews)) :
  exists evs,
    recentActivity h buys renews = Ok evs
    /\ (List.length evs <= 15)%nat
    /\ StronglySorted (not_older h) evs
    /\ exists bs rs sorted,
         push_items buy_item buys = Ok bs
         /\ push_items renew_item renews = Ok rs
         /\ Permutation (bs ++ rs) sorted
         /\ StronglySorted (not_older h) sorted
         /\ evs = firstn 15 sorted.
Proof.
  assert (Hbuys' : Forall (dated_operation h buy_item) (elements buys))
    by (eapply Forall_impl; [apply Operation_buy_dated|exact Hbuys]).
  assert (Hrenews' : Forall (dated_operation h renew_item) (elements renews))
    by (eapply Forall_impl; [apply Operation_renew_dated|exact Hrenews]).
  clear Hbuys Hrenews.
  destruct (push_items_total buy_item buys) as [bs Hbs].
  { eapply Forall_impl; [|exact Hbuys']. intros op (ev & t & H & _). eauto. }
  destruct (push_items_total renew_item renews) as [rs Hrs].
  { eapply Forall_impl; [|exact Hrenews']. intros op (ev & t & H & _). eauto. }
  assert (Hdated : Forall (fun ev => exists t, event_time h ev = Some t) (bs ++ rs)).
  { apply Forall_app. split.
    - eapply dated_items; [exact Hbuys'|]. apply push_items_Forall2, Hbs.
    - eapply dated_items; [exact Hrenews'|]. apply push_items_Forall2, Hrs. }
  rewrite Forall_forall in Hdated.
  assert (Hcmp : forall a b, In a (bs ++ rs) -> In b (bs ++ rs) ->
                   by_timestamp_desc h a b
                   = Ok (Some (time_key h b - time_key h a))).
  { intros a b Ha Hb.
    destruct (Hdated a Ha) as [ta Hta]. destruct (Hdated b Hb) as [tb Htb].
    eapply by_timestamp_desc_dated; eauto. }
  destruct (Array_sort_total (by_timestamp_desc h) (bs ++ rs)) as [sorted Hsorted].
  { intros a b Ha Hb. rewrite (Hcmp a b Ha Hb). eauto. }
  assert (Hperm := Array_sort_perm _ _ _ Hsorted).
  assert (Hs : StronglySorted (not_older h) sorted).
  { apply StronglySorted_impl_in with (R := desc_by (time_key h)).
    - intros a b Ha Hb Hab.
      apply (Permutation_in _ (Permutation_sym Hperm)) in Ha, Hb.
      destruct (Hdated a Ha) as [ta Hta]. destruct (Hdated b Hb) as [tb Htb].
      exists ta, tb. repeat split; auto.
      unfold desc_by, time_key in Hab. rewrite Hta, Htb in Hab. exact Hab.
    - eapply Array_sort_sorted; eauto. }
  exists (firstn 15 sorted).
  split; [|split; [|split]].
  - unfold recentActivity. rewrite Hbs, Hrs. simpl. rewrite Hsorted. reflexivity.
  - apply firstn_le_length.
  - apply StronglySorted_firstn. exact Hs.
  - exists bs, rs, sorted. auto.
Qed.

Lemma recent_activity_sorted_and_capped_witness :
  exists evs,
    recentActivity utc_host (VArr [test_operation; odd_operation])
                   (VArr [test_renewal]) = Ok evs
    /\ map ActivityItem.id evs = [lit "renew-5"; lit "buy-5"; lit "buy-1"]
    /\ (List.length evs <= 15)%nat
    /\ StronglySorted (not_older utc_host) evs.
Proof.
  destruct (recent_activity_sorted_and_capped utc_host
              (VArr [test_operation; odd_operation]) (VArr [test_renewal]))
    as (evs & H1 & H2 & H3 & _).
  - repeat apply Forall_cons; try apply Forall_nil;
      (split; [|split; [|split]]);
      repeat eexists; vm_compute; reflexivity.
  - repeat apply Forall_cons; try apply Forall_nil;
      (split; [|split; [|split]]);
      repeat eexists; vm_compute; reflexivity.
  - exists evs. vm_compute in H1. inversion H1; subst evs.
    repeat split; auto.
Defined.

(** *** Identifiers *)

Lemma buy_item_id (op : value) (ev : ActivityItem.t) :
  buy_item op = Ok ev ->
  exists s, op_id_string op = Ok s
            /\ ActivityItem.type ev = buy
            /\ ActivityItem.id ev = lit "buy-" ++ s.
Proof.
  unfold buy_item, op_id_string. intros H.
  inv_bind H. inv_bind H. inv_bind H. inv_bind H. inv_bind H. inv_bind H.
  inv_bind H. inversion H; subst. simpl.
  rewrite E0. simpl. rewrite E1. eauto.
Qed.

Lemma renew_item_id (op : value) (ev : ActivityItem.t) :
  renew_item op = Ok ev ->
  exists s, op_id_string op = Ok s
            /\ ActivityItem.type ev = renew
            /\ ActivityItem.id ev = lit "renew-" ++ s.
Proof.
  unfold renew_item, op_id_string. intros H.
  inv_bind H. inv_bind H. inv_bind H. inv_bind H. inv_bind H. inv_bind H.
  inv_bind H. inversion H; subst. simpl.
  rewrite E0. simpl. rewrite E1. eauto.
Qed.

(** Items that prefix distinct identifiers with one tag have distinct
    identifiers. *)
Lemma prefixed_ids_NoDup (tag : jsstring) (ops : list value)
  (evs : list ActivityItem.t) :
  Forall2 (fun op ev => exists s, op_id_string op = Ok s
                                  /\ ActivityItem.id ev = tag ++ s) ops evs ->
  NoDup (map op_id_string ops) ->
  NoDup (map ActivityItem.id evs).
Proof.
  induction 1 as [|op ev ops evs (s & Hs & Hid) H2 IH]; simpl; intros Hn.
  - constructor.
  - inversion Hn as [|? ? Hnin Hn']; subst. constructor; auto.
    intros Hin. apply Hnin.
    apply in_map_iff in Hin. destruct Hin as (ev' & Heq & Hin').
    destruct (Forall2_In_r _ _ _ H2 _ Hin') as (op' & Hop' & s' & Hs' & Hid').
    rewrite Hid, Hid' in Heq. apply app_inv_head in Heq. subst s'.
    rewrite Hs, <- Hs'. apply in_map. exact Hop'.
Qed.

(** C9.  Every event's identifier is the identifier of its operation
    prefixed by the tag of its kind ("buy-" or "renew-"); when operation
    identifiers are unique within each source list, the identifiers of the
    returned events are pairwise distinct, and an acquisition and a renewal
    never share an identifier. *)
Theorem event_identifiers_distinct (h : Host) (buys renews : value)
  (evs : list ActivityItem.t)
  (Hrun : recentActivity h buys renews = Ok evs)
  (Hbuys : NoDup (map op_id_string (elements buys)))
  (Hrenews : NoDup (map op_id_string (elements renews))) :
  (forall ev, In ev evs ->
     exists op s,
       op_id_string op = Ok s
       /\ ((In op (elements buys) /\ ActivityItem.type ev = buy
            /\ ActivityItem.id ev = lit "buy-" ++ s)
           \/ (In op (elements renews) /\ ActivityItem.type ev = renew
               /\ ActivityItem.id ev = lit "renew-" ++ s)))
  /\ NoDup (map ActivityItem.id evs)
  /\ (forall a b, In a evs -> In b evs ->
        ActivityItem.type a = buy -> ActivityItem.type b = renew ->
        ActivityItem.id a <> ActivityItem.id b).
Proof.
  assert (Horigin : forall ev, In ev evs ->
     exists op s,
       op_id_string op = Ok s
       /\ ((In op (elements buys) /\ ActivityItem.type ev = buy
            /\ ActivityItem.id ev = lit "buy-" ++ s)
           \/ (In op (elements renews) /\ ActivityItem.type ev = renew
               /\ ActivityItem.id ev = lit "renew-" ++ s))).
  { intros ev Hin.
    destruct (recentActivity_origin _ _ _ _ Hrun ev Hin) as [op [[Hop Hev]|[Hop Hev]]].
    - destruct (buy_item_id _ _ Hev) as (s & Hs & Ht & Hid).
      exists op, s. split; auto.
    - destruct (renew_item_id _ _ Hev) as (s & Hs & Ht & Hid).
      exists op, s. split; auto. }
  split; [exact Horigin|split].
  - destruct (recentActivity_inv _ _ _ _ Hrun) as (bs & rs & sorted & Hb & Hr & Hs & ->).
    rewrite <- firstn_map. apply NoDup_firstn.
    apply Array_sort_perm in Hs.
    apply (Permutation_NoDup (Permutation_map ActivityItem.id Hs)).
    rewrite map_app. apply NoDup_app.
    + apply prefixed_ids_NoDup with (tag := lit "buy-") (ops := elements buys); auto.
      eapply Forall2_impl; [|exact Hb]. intros op ev Hev.
      destruct (buy_item_id _ _ Hev) as (s & Hs' & _ & Hid). eauto.
    + apply prefixed_ids_NoDup with (tag := lit "renew-") (ops := elements renews); auto.
      eapply Forall2_impl; [|exact Hr]. intros op ev Hev.
      destruct (renew_item_id _ _ Hev) as (s & Hs' & _ & Hid). eauto.
    + intros i Hi Hi'.
      apply in_map_iff in Hi. destruct Hi as (a & <- & Ha).
      apply in_map_iff in Hi'. destruct Hi' as (b & Heq & Hb').
      destruct (Forall2_In_r _ _ _ Hb _ Ha) as (opa & _ & Heva).
      destruct (Forall2_In_r _ _ _ Hr _ Hb') as (opb & _ & Hevb).
      destruct (buy_item_id _ _ Heva) as (sa & _ & _ & Hida).
      destruct (renew_item_id _ _ Hevb) as (sb & _ & _ & Hidb).
      rewrite Hida, Hidb in Heq. discriminate Heq.
  - intros a b Ha Hb Hta Htb Heq.
    destruct (Horigin a Ha) as (opa & sa & _ & [(_ & _ & Hida)|(_ & Ht & _)]);
      [|congruence].
    destruct (Horigin b Hb) as (opb & sb & _ & [(_ & Ht & _)|(_ & _ & Hidb)]);
      [congruence|].
    rewrite Hida, Hidb in Heq. discriminate Heq.
Qed.

Lemma event_identifiers_distinct_witness :
  exists evs,
    recentActivity utc_host (VArr [test_operation]) (VArr [test_renewal])
    = Ok evs
    /\ map ActivityItem.id evs = [lit "renew-5"; lit "buy-5"]
    /\ NoDup (map ActivityItem.id evs).
Proof.
  eexists. split; [vm_compute; reflexivity|]. split; [reflexivity|].
  apply (event_identifiers_distinct utc_host (VArr [test_operation])
           (VArr [test_renewal])).
  - vm_compute. reflexivity.
  - vm_compute. repeat constructor; simpl; tauto.
  - vm_compute. repeat constructor; simpl; tauto.
Defined.

(** *** Domain names and amounts *)

Lemma million_finite : exists m e, million = S754_finite false m e.
Proof. vm_compute. eauto. Qed.

Lemma amount_of_non_negative (op a : value) (amt : number) :
  amount_of op = Ok amt ->
  get op p_amount = Ok a ->
  amount_absent_or_non_negative a ->
  non_negative amt.
Proof.
  unfold amount_of. intros H Ha Hcond. rewrite Ha in H. simpl in H.
  inv_bind H. inversion H; subst. clear H.
  destruct million_finite as (m & e & ->).
  unfold non_negative. apply has_sign_nonneg.
  destruct Hcond as [Hf|(y & -> & Hy)].
  - unfold or_else in E. rewrite Hf in E. inversion E; subst. reflexivity.
  - unfold or_else in E.
    destruct (truthy (VNum y)) eqn:Et; inversion E; subst; [|reflexivity].
    destruct (nonneg_sign_or_zero _ Hy) as [Hs| ->]; [|discriminate Et].
    apply num_div_sign. exact Hs.
Qed.

Lemma buy_item_fields (op : value) (ev : ActivityItem.t) :
  buy_item op = Ok ev ->
  exists lbl,
    buy_label op = Ok lbl
    /\ (exists name, ActivityItem.domain ev = name ++ lit ".tez")
    /\ (truthy lbl = false -> ActivityItem.domain ev = lit "unknown.tez")
    /\ (truthy lbl = true ->
        exists s, ToString (hexToUtf8 lbl) = Ok s
                  /\ ActivityItem.domain ev = s ++ lit ".tez")
    /\ amount_of op = Ok (ActivityItem.amount ev).
Proof.
  unfold buy_item, buy_label. intros H.
  inv_bind H. rewrite E. simpl. eexists. split; [reflexivity|].
  inv_bind H. inv_bind H. inv_bind H. inv_bind H. inv_bind H. inv_bind H.
  inversion H; subst; simpl. clear H.
  destruct (truthy (get_opt (get_opt x p_value) p_label)).
  - inv_bind E2. inversion E2; subst.
    repeat split; eauto; discriminate.
  - inversion E2; subst.
    repeat split; try (exists (lit "unknown"); reflexivity); auto; discriminate.
Qed.

Lemma renew_item_fields (op : value) (ev : ActivityItem.t) :
  renew_item op = Ok ev ->
  exists lbl,
    renew_label op = Ok lbl
    /\ (exists name, ActivityItem.domain ev = name ++ lit ".tez")
    /\ (truthy lbl = false -> ActivityItem.domain ev = lit "unknown.tez")
    /\ amount_of op = Ok (ActivityItem.amount ev).
Proof.
  unfold renew_item, renew_label. intros H.
  inv_bind H. rewrite E. simpl. eexists. split; [reflexivity|].
  inv_bind H. inv_bind H. inv_bind H. inv_bind H. inv_bind H. inv_bind H.
  inversion H; subst; simpl. clear H.
  repeat split; eauto.
  intros Hf.
  set (lbl := coalesce (get_opt (get_opt x p_value) p_label) (get_opt x p_value)) in *.
  assert (Hname : (if is_string lbl
                      && match lbl with VStr s => test_hex s | _ => false end
                   then hexToUtf8 lbl else or_else lbl unknown) = unknown).
  { unfold or_else. rewrite Hf.
    destruct lbl; try reflexivity. destruct s; [reflexivity|discriminate Hf]. }
  rewrite Hname in E2. inversion E2. reflexivity.
Qed.

Lemma amount_read (op : value) (amt : number) :
  amount_of op = Ok amt -> exists a, get op p_amount = Ok a.
Proof. unfold amount_of. intros H. inv_bind H. eauto. Qed.

(** C7, as amended.  Every event of the feed comes from a fetched
    operation and has a non-empty domain name that ends in ".tez"; the
    name is "unknown.tez" when the operation's label payload is absent (or
    otherwise falsy); the amount of the event is not negative when the
    operation's amount is absent or is a number that is not negative. *)
Theorem activity_event_invariant (h : Host) (buys renews : value)
  (evs : list ActivityItem.t)
  (Hrun : recentActivity h buys renews = Ok evs) :
  forall ev, In ev evs ->
    ActivityItem.domain ev <> []
    /\ (exists name, ActivityItem.domain ev = name ++ lit ".tez")
    /\ exists op lbl a,
         ((In op (elements buys) /\ buy_item op = Ok ev
           /\ buy_label op = Ok lbl)
          \/ (In op (elements renews) /\ renew_item op = Ok ev
              /\ renew_label op = Ok lbl))
         /\ get op p_amount = Ok a
         /\ (truthy lbl = false ->
             ActivityItem.domain ev = lit "unknown.tez")
         /\ (amount_absent_or_non_negative a ->
             non_negative (ActivityItem.amount ev)).
Proof.
  intros ev Hin.
  destruct (recentActivity_origin _ _ _ _ Hrun ev Hin) as [op [[Hop Hev]|[Hop Hev]]].
  - destruct (buy_item_fields _ _ Hev) as (lbl & Hl & (name & Hn) & Hu & _ & Ha).
    destruct (amount_read _ _ Ha) as [a Hget].
    split; [|split].
    + rewrite Hn. destruct name; discriminate.
    + eauto.
    + exists op, lbl, a. repeat split; auto.
      intros Hc. eapply amount_of_non_negative; eauto.
  - destruct (renew_item_fields _ _ Hev) as (lbl & Hl & (name & Hn) & Hu & Ha).
    destruct (amount_read _ _ Ha) as [a Hget].
    split; [|split].
    + rewrite Hn. destruct name; discriminate.
    + eauto.
    + exists op, lbl, a. repeat split; auto.
      intros Hc. eapply amount_of_non_negative; eauto.
Qed.

(** An acquisition without label payload and without amount, fetched after
    one that has both: its event is named "unknown.tez" and its amount is
    not negative. *)
Lemma activity_event_invariant_witness :
  exists ev1 ev2,
    recentActivity utc_host (VArr [test_operation; bare_operation]) VNull
    = Ok [ev1; ev2]
    /\ buy_item bare_operation = Ok ev2
    /\ ActivityItem.domain ev1 = lit "test.tez"
    /\ ActivityItem.domain ev2 = lit "unknown.tez"
    /\ non_negative (ActivityItem.amount ev2).
Proof.
  destruct (recentActivity utc_host (VArr [test_operation; bare_operation])
              VNull) as [evs|e] eqn:Hrun; [|vm_compute in Hrun; discriminate].
  assert (Hevs : exists ev1 ev2,
             evs = [ev1; ev2] /\ buy_item bare_operation = Ok ev2
             /\ ActivityItem.domain ev1 = lit "test.tez"
             /\ buy_item test_operation <> Ok ev2).
  { vm_compute in Hrun. injection Hrun as <-.
    eexists. eexists. split; [reflexivity|].
    split; [vm_compute; reflexivity|]. split; [reflexivity|].
    vm_compute. discriminate. }
  destruct Hevs as (ev1 & ev2 & -> & Hitem & Hdom & Hother).
  exists ev1, ev2. split; [reflexivity|]. split; [exact Hitem|].
  split; [exact Hdom|].
  destruct (activity_event_invariant utc_host
              (VArr [test_operation; bare_operation]) VNull [ev1; ev2] Hrun
              ev2 (or_intror (or_introl eq_refl)))
    as (_ & _ & op & lbl & a & Horigin & Hamount & Hsentinel & Hpositive).
  assert (Hop : op = bare_operation /\ buy_label op = Ok lbl).
  { destruct Horigin as [(Hin & Hev & Hlbl)|([] & _)].
    destruct Hin as [<-|[<-|[]]]; [contradiction|]. split; [reflexivity|exact Hlbl]. }
  destruct Hop as [-> Hlbl].
  vm_compute in Hlbl. injection Hlbl as <-.
  vm_compute in Hamount. injection Hamount as <-.
  split.
  - apply Hsentinel. reflexivity.
  - apply Hpositive. left. reflexivity.
Defined.

(** C7, as stated, fails: an operation with a negative amount gives an
    event with a negative amount, and a label that is not hex is decoded to
    a NUL character instead of being replaced by the sentinel. *)
Lemma negative_amount_and_undecoded_label :
  exists ev,
    recentActivity utc_host (VArr [odd_operation]) VNull = Ok [ev]
    /\ num_leb num_zero (ActivityItem.amount ev) = false
    /\ num_ltb (ActivityItem.amount ev) num_zero = true
    /\ ActivityItem.domain ev = 0 :: lit ".tez".
Proof.
  eexists. split; [vm_compute; reflexivity|].
  repeat split; vm_compute; reflexivity.
Qed.

(** *** The label "test" *)

Lemma hexToUtf8_test : hexToUtf8 (VStr (lit "74657374")) = VStr (lit "test").
Proof. vm_compute. reflexivity. Qed.

(** C8.  An acquisition whose parameter payload carries the label
    "74657374" gives an event whose domain name is exactly "test.tez". *)
Theorem test_label_domain (op : value) (ev : ActivityItem.t)
  (Hlabel : buy_label op = Ok (VStr (lit "74657374")))
  (Hitem : buy_item op = Ok ev) :
  ActivityItem.domain ev = lit "test.tez".
Proof.
  destruct (buy_item_fields _ _ Hitem) as (lbl & Hl & _ & _ & Hd & _).
  rewrite Hlabel in Hl. inversion Hl; subst lbl.
  destruct (Hd eq_refl) as (s & Hs & ->).
  rewrite hexToUtf8_test in Hs. inversion Hs. reflexivity.
Qed.

Lemma test_label_domain_witness :
  exists ev,
    recentActivity utc_host (VArr [test_operation]) VNull = Ok [ev]
    /\ ActivityItem.domain ev = lit "test.tez".
Proof.
  eexists. split; [vm_compute; reflexivity|].
  apply (test_label_domain test_operation).
  - vm_compute. reflexivity.
  - vm_compute. reflexivity.
Defined.

(** ** Plain objects *)

Lemma jsstring_eqb_eq (a b : jsstring) : jsstring_eqb a b = true <-> a = b.
Proof.
  unfold jsstring_eqb. destruct (list_eq_dec Z.eq_dec a b); split; intros;
    congruence.
Qed.

Lemma jsstring_eqb_refl (a : jsstring) : jsstring_eqb a a = true.
Proof. apply jsstring_eqb_eq. reflexivity. Qed.

Lemma jsstring_eqb_neq (a b : jsstring) : a <> b -> jsstring_eqb a b = false.
Proof.
  intros H. destruct (jsstring_eqb a b) eqn:E; [|reflexivity].
  apply jsstring_eqb_eq in E. contradiction.
Qed.

Section Objects.
Context {A : Type}.

Lemma assoc_obj_set_same (k : jsstring) (a : A) (o : object A) :
  assoc k (obj_set k a o) = Some a.
Proof.
  induction o as [|[k' a'] o IH]; simpl.
  - rewrite jsstring_eqb_refl. reflexivity.
  - destruct (jsstring_eqb k k') eqn:E; simpl.
    + rewrite jsstring_eqb_refl. reflexivity.
    + rewrite E. exact IH.
Qed.

Lemma assoc_obj_set_other (k k' : jsstring) (a : A) (o : object A) :
  k' <> k -> assoc k' (obj_set k a o) = assoc k' o.
Proof.
  intros Hne. induction o as [|[k0 a0] o IH]; simpl.
  - rewrite jsstring_eqb_neq by exact Hne. reflexivity.
  - destruct (jsstring_eqb k k0) eqn:E; simpl.
    + apply jsstring_eqb_eq in E. subst k0.
      rewrite jsstring_eqb_neq by exact Hne. reflexivity.
    + rewrite IH. reflexivity.
Qed.

Lemma assoc_None (k : jsstring) (o : object A) :
  assoc k o = None <-> ~ In k (map fst o).
Proof.
  induction o as [|[k' a'] o IH]; simpl.
  - tauto.
  - destruct (jsstring_eqb k k') eqn:E.
    + apply jsstring_eqb_eq in E. subst. split; [discriminate|tauto].
    + rewrite IH. split.
      * intros H [Heq|Hin]; [|tauto]. subst.
        rewrite jsstring_eqb_refl in E. discriminate.
      * tauto.
Qed.

Lemma keys_obj_set (k : jsstring) (a : A) (o : object A) :
  map fst (obj_set k a o)
  = match assoc k o with
    | Some _ => map fst o
    | None => map fst o ++ [k]
    end.
Proof.
  induction o as [|[k' a'] o IH]; simpl.
  - reflexivity.
  - destruct (jsstring_eqb k k') eqn:E; simpl.
    + apply jsstring_eqb_eq in E. subst. reflexivity.
    + rewrite IH. destruct (assoc k o); reflexivity.
Qed.

Lemma NoDup_keys_obj_set (k : jsstring) (a : A) (o : object A) :
  NoDup (map fst o) -> NoDup (map fst (obj_set k a o)).
Proof.
  intros Hn. rewrite keys_obj_set.
  destruct (assoc k o) eqn:E; [exact Hn|].
  apply assoc_None in E.
  apply NoDup_app; auto.
  - repeat constructor. simpl. tauto.
  - intros x Hx [<-|[]]. contradiction.
Qed.

Lemma In_assoc (k : jsstring) (a : A) (o : object A) :
  NoDup (map fst o) -> In (k, a) o -> assoc k o = Some a.
Proof.
  induction o as [|[k' a'] o IH]; simpl; intros Hn Hin.
  - contradiction.
  - inversion Hn as [|? ? Hnin Hn']; subst.
    destruct Hin as [Heq|Hin].
    + inversion Heq; subst. rewrite jsstring_eqb_refl. reflexivity.
    + destruct (jsstring_eqb k k') eqn:E.
      * apply jsstring_eqb_eq in E. subst.
        exfalso. apply Hnin. apply (in_map fst) in Hin. exact Hin.
      * auto.
Qed.

Lemma length_obj_set (k : jsstring) (a a' : A) (o : object A) :
  assoc k o = Some a' -> List.length (obj_set k a o) = List.length o.
Proof.
  induction o as [|[k0 a0] o IH]; simpl; intros H.
  - discriminate.
  - destruct (jsstring_eqb k k0); simpl; [reflexivity|]. rewrite IH; auto.
Qed.

Lemma insert_index_perm (i : Z) (e : jsstring * A)
  (l : list (Z * (jsstring * A))) :
  Permutation (map snd (insert_index i e l)) (e :: map snd l).
Proof.
  induction l as [|[j e'] l IH]; simpl.
  - reflexivity.
  - destruct (i <? j); simpl.
    + reflexivity.
    + rewrite IH. apply perm_swap.
Qed.

Lemma Object_entries_perm (o : object A) : Permutation (Object_entries o) o.
Proof.
  unfold Object_entries.
  set (is_index := fun e : jsstring * A =>
                     match array_index (fst e) with
                     | Some _ => false
                     | None => true
                     end).
  set (step := fun acc (e : jsstring * A) =>
                 match array_index (fst e) with
                 | Some i => insert_index i e acc
                 | None => acc
                 end).
  assert (H : forall l acc,
             Permutation (map snd (fold_left step l acc) ++ filter is_index l)
                         (map snd acc ++ l)).
  { induction l as [|e l IH]; intros acc; simpl.
    - reflexivity.
    - rewrite <- Permutation_middle. unfold step at 2, is_index at 1.
      destruct (array_index (fst e)) as [i|].
      + rewrite IH. rewrite insert_index_perm. reflexivity.
      + rewrite <- Permutation_middle. rewrite IH. reflexivity. }
  apply (H o []).
Qed.
End Objects.

(** ** The leaderboard *)

Lemma sender_address_total (op : value) :
  is_nullish op = false -> exists a, sender_address op = Ok a.
Proof.
  intros H. unfold sender_address.
  destruct (get_total op p_sender H) as [v ->]. simpl. eauto.
Qed.

Lemma occurrences_nonneg (a : jsstring) (ops : list value) :
  0 <= occurrences a ops.
Proof. unfold occurrences. lia. Qed.

Lemma occurrences_snoc (a : jsstring) (seen : list value) (op : value) :
  occurrences a (seen ++ [op])
  = occurrences a seen + (if tallied a op then 1 else 0).
Proof.
  unfold occurrences. rewrite filter_app, length_app. simpl.
  destruct (tallied a op); simpl; lia.
Qed.

Lemma tally_step (seen : list value) (counts : object Z) (op : value) :
  is_nullish op = false ->
  (forall a, sender_address op = Ok (Some a) -> is_inherited a = false) ->
  tally_of seen counts ->
  exists counts', tally counts op = Ok counts'
                  /\ tally_of (seen ++ [op]) counts'.
Proof.
  intros Hrec Hplain [Hnd Hassoc].
  destruct (sender_address_total op Hrec) as [[addr|] Ha]; unfold tally;
    rewrite Ha; simpl.
  - specialize (Hplain addr Ha).
    unfold obj_get. rewrite (Hassoc addr), Hplain.
    pose proof (occurrences_nonneg addr seen) as Hge.
    set (n := occurrences addr seen) in *.
    assert (Hres : exists c, (if n =? 0 then Ok None else Ok (Some n))
                             = Ok c
                             /\ match c with
                                | Some m => if m =? 0 then 0 else m
                                | None => 0
                                end = n).
    { destruct (n =? 0) eqn:E.
      - apply Z.eqb_eq in E. exists None. split; [reflexivity|]. lia.
      - exists (Some n). split; [reflexivity|]. rewrite E. reflexivity. }
    destruct Hres as (c & Hc & Hn).
    replace (match (if n =? 0 then None else Some n) with
             | Some a => Ok (Some a)
             | None => Ok None
             end) with (Ok c : result (option Z))
      by (rewrite <- Hc; destruct (n =? 0); reflexivity).
    simpl. rewrite Hn.
    eexists. split; [reflexivity|]. split.
    + apply NoDup_keys_obj_set. exact Hnd.
    + intros a. rewrite occurrences_snoc. unfold tallied. rewrite Ha.
      destruct (jsstring_eqb addr a) eqn:E.
      * apply jsstring_eqb_eq in E. subst a.
        rewrite assoc_obj_set_same. fold n.
        destruct (n + 1 =? 0) eqn:E'; [apply Z.eqb_eq in E'; lia|reflexivity].
      * rewrite assoc_obj_set_other.
        -- rewrite Hassoc. rewrite Z.add_0_r. reflexivity.
        -- intros ->. rewrite jsstring_eqb_refl in E. discriminate.
  - eexists. split; [reflexivity|]. split; [exact Hnd|].
    intros a. rewrite occurrences_snoc. unfold tallied. rewrite Ha.
    rewrite Z.add_0_r. apply Hassoc.
Qed.

Lemma tally_fold (ops : list value) :
  forall seen counts,
    records ops -> plain_senders ops -> tally_of seen counts ->
    exists counts', foldM tally ops counts = Ok counts'
                    /\ tally_of (seen ++ ops) counts'.
Proof.
  induction ops as [|op ops IH]; simpl; intros seen counts Hr Hp Ht.
  - rewrite app_nil_r. eauto.
  - inversion Hr as [|? ? Hr1 Hr2]; subst.
    inversion Hp as [|? ? Hp1 Hp2]; subst.
    destruct (tally_step seen counts op Hr1 Hp1 Ht) as (c1 & -> & Ht1).
    simpl. destruct (IH (seen ++ [op]) c1 Hr2 Hp2 Ht1) as (c2 & -> & Ht2).
    rewrite <- app_assoc in Ht2. eauto.
Qed.

Lemma tally_of_nil : tally_of [] [].
Proof. split; [constructor|]. intros a. reflexivity. Qed.

(** The ranking in terms of the tally loop's own reading of the sender. *)
Lemma topHolders_tallies (ops : value)
  (Hrecords : records (elements ops))
  (Hplain : plain_senders (elements ops)) :
  exists out,
    topHolders ops = Ok out
    /\ (List.length out <= 10)%nat
    /\ StronglySorted holder_count_desc out
    /\ NoDup (map Holder.address out)
    /\ forall e, In e out ->
         Holder.count e = occurrences (Holder.address e) (elements ops)
         /\ 0 < Holder.count e.
Proof.
  assert (Hempty : exists out : list Holder.t,
             Ok [] = Ok out /\ (List.length out <= 10)%nat
             /\ StronglySorted holder_count_desc out
             /\ NoDup (map Holder.address out)
             /\ forall e, In e out ->
                  Holder.count e = occurrences (Holder.address e) (elements ops)
                  /\ 0 < Holder.count e).
  { exists []. repeat split; simpl; try constructor; try lia; contradiction. }
  destruct ops as [| | | | |l|]; try exact Hempty.
  destruct l as [|op l]; [exact Hempty|]. clear Hempty.
  simpl elements in *. set (l' := op :: l) in *.
  destruct (tally_fold l' [] [] Hrecords Hplain tally_of_nil)
    as (counts & Hfold & Hnd & Hassoc).
  simpl app in Hassoc.
  destruct (Array_sort_total by_count_desc (Object_entries counts))
    as [entries Hsort].
  { intros a b _ _. unfold by_count_desc. eauto. }
  assert (Hperm : Permutation counts entries).
  { rewrite <- (Object_entries_perm counts). apply Array_sort_perm in Hsort.
    exact Hsort. }
  assert (Hsorted : StronglySorted (desc_by snd) entries).
  { eapply Array_sort_sorted; [|exact Hsort].
    intros a b _ _. reflexivity. }
  set (mk := fun e : jsstring * Z =>
               let '(address, count) := e in
               {| Holder.address := address; Holder.count := count |}).
  exists (map mk (slice0 10 entries)).
  split; [|split; [|split; [|split]]].
  - unfold topHolders. fold l'. rewrite Hfold. simpl. rewrite Hsort. reflexivity.
  - rewrite length_map. apply firstn_le_length.
  - unfold slice0.
    assert (Hs := StronglySorted_firstn _ 10 _ Hsorted).
    induction Hs as [|e es Hs IH Hall]; simpl; constructor; auto.
    rewrite Forall_forall in *. intros x Hx.
    apply in_map_iff in Hx. destruct Hx as ([k c] & <- & Hin).
    specialize (Hall _ Hin). destruct e as [k0 c0].
    unfold desc_by in Hall. exact Hall.
  - replace (map Holder.address (map mk (slice0 10 entries)))
      with (firstn 10 (map fst entries)).
    + apply NoDup_firstn.
      apply (Permutation_NoDup (Permutation_map fst Hperm)). exact Hnd.
    + unfold slice0. rewrite firstn_map, map_map.
      apply map_ext. intros [k c]. reflexivity.
  - intros e Hin. apply in_map_iff in Hin.
    destruct Hin as ([k c] & <- & Hin). simpl.
    apply In_firstn in Hin.
    apply (Permutation_in _ (Permutation_sym Hperm)) in Hin.
    apply (In_assoc _ _ _ Hnd) in Hin.
    rewrite Hassoc in Hin.
    pose proof (occurrences_nonneg k l') as Hge.
    destruct (occurrences k l' =? 0) eqn:E; [discriminate|].
    inversion Hin. apply Z.eqb_neq in E. split; [reflexivity|lia].
Qed.

(** The tally loop reads the sender the way the specification describes a
    well-formed one. *)
Lemma sender_address_spec (op : value) :
  is_nullish op = false -> sender_address op = Ok (well_formed_sender op).
Proof.
  intros Hop. unfold sender_address, well_formed_sender.
  destruct op as [| |b|x|s|l|props]; try discriminate; try reflexivity.
  cbn [get bind]. change (field_name p_sender) with (lit "sender").
  destruct (assoc (lit "sender") props) as [snd|]; [|reflexivity].
  cbn [bind].
  destruct snd as [| |b|x|s|l|sender]; try reflexivity.
  - destruct s; reflexivity.
  - cbn [get_opt get try_catch].
    change (field_name p_address) with (lit "address").
    destruct (assoc (lit "address") sender) as [addr|]; [|reflexivity].
    cbn [try_catch].
    destruct addr as [| |b|x|s|l|o]; try reflexivity.
    + destruct b; reflexivity.
    + destruct x; reflexivity.
    + destruct s; reflexivity.
Qed.

Lemma occurrences_spec (a : jsstring) (ops : list value) :
  records ops -> occurrences a ops = sender_count a ops.
Proof.
  unfold occurrences, sender_count. intros Hr. do 2 f_equal.
  induction Hr as [|op ops Hop _ IH]; [reflexivity|].
  cbn [filter]. rewrite IH. unfold tallied, sent_from.
  rewrite (sender_address_spec op Hop). reflexivity.
Qed.

Lemma sender_count_positive (a : jsstring) (ops : list value) :
  0 < sender_count a ops ->
  exists op, In op ops /\ well_formed_sender op = Some a.
Proof.
  unfold sender_count. intros Hpos.
  destruct (filter (sent_from a) ops) as [|op l] eqn:E; [simpl in Hpos; lia|].
  assert (Hin : In op (filter (sent_from a) ops)) by (rewrite E; left; reflexivity).
  apply filter_In in Hin. destruct Hin as [Hin Hf]. exists op. split; [exact Hin|].
  unfold sent_from in Hf. destruct (well_formed_sender op) as [x|]; [|discriminate].
  apply jsstring_eqb_eq in Hf. subst. reflexivity.
Qed.

(** C6.  For every fetch result whose elements are records,
    [getTopHolders] returns at most 10 rankings in non-increasing order of
    count, with pairwise distinct addresses.  Each ranked address is the
    well-formed sender of a fetched operation, and its count is the positive
    number of fetched operations with that well-formed sender: an operation
    whose sender is missing, is not a string or a record with a string
    address, or is the empty string, is counted for nobody. *)
Theorem top_holders_ranking (ops : value)
  (Hrecords : records (elements ops))
  (Hplain : plain_addresses (elements ops)) :
  exists out,
    topHolders ops = Ok out
    /\ (List.length out <= 10)%nat
    /\ StronglySorted holder_count_desc out
    /\ NoDup (map Holder.address out)
    /\ forall e, In e out ->
         Holder.count e = sender_count (Holder.address e) (elements ops)
         /\ 0 < Holder.count e
         /\ exists op, In op (elements ops)
                       /\ well_formed_sender op = Some (Holder.address e).
Proof.
  assert (Hplain' : plain_senders (elements ops)).
  { unfold plain_senders, plain_addresses, records in *.
    rewrite Forall_forall in *. intros op Hin a Ha.
    rewrite (sender_address_spec op (Hrecords op Hin)) in Ha.
    injection Ha as Ha. exact (Hplain op Hin a Ha). }
  destruct (topHolders_tallies ops Hrecords Hplain')
    as (out & Hrun & Hlen & Hsorted & Hnd & Hcount).
  exists out. repeat split; auto.
  - rewrite <- occurrences_spec by exact Hrecords. apply Hcount. exact H.
  - apply Hcount. exact H.
  - apply sender_count_positive.
    rewrite <- occurrences_spec by exact Hrecords.
    destruct (Hcount e H) as [<- Hpos]. exact Hpos.
Qed.

Lemma top_holders_ranking_witness :
  exists out,
    topHolders mixed_senders = Ok out
    /\ map (fun e => (Holder.address e, Holder.count e)) out
       = [(lit "tz1abc", 2); (lit "tz1xyz", 1)]
    /\ sender_count (lit "tz1abc") (elements mixed_senders) = 2
    /\ List.length (elements mixed_senders) = 13%nat
    /\ StronglySorted holder_count_desc out
    /\ forall e, In e out ->
         Holder.count e = sender_count (Holder.address e) (elements mixed_senders).
Proof.
  destruct (top_holders_ranking mixed_senders) as (out & H1 & H2 & H3 & H4 & H5).
  - repeat constructor.
  - unfold plain_addresses, mixed_senders. cbn [elements].
    repeat apply Forall_cons; try apply Forall_nil;
      intros a Ha; vm_compute in Ha; try discriminate;
      injection Ha as <-; vm_compute; reflexivity.
  - exists out. split; [exact H1|].
    split; [vm_compute in H1; injection H1 as <-; reflexivity|].
    split; [vm_compute; reflexivity|]. split; [reflexivity|].
    split; [exact H3|]. intros e He. apply H5. exact He.
Defined.

(** Scenario D: twelve acquisitions from one address and nine from another
    rank in that order. *)
Example top_holders_12_9 :
  topHolders (VArr (repeat (sent_by "tz1X") 9 ++ repeat (sent_by "tz1Y") 3
                      ++ repeat (sent_by "tz1X") 3 ++ repeat (sent_by "tz1Y") 6))
  = Ok [{| Holder.address := lit "tz1X"; Holder.count := 12 |};
        {| Holder.address := lit "tz1Y"; Holder.count := 9 |}].
Proof. vm_compute. reflexivity. Qed.

(** ** The growth series *)

Lemma total_count_perm (a b : list (jsstring * Bucket.t)) :
  Permutation a b -> total_count a = total_count b.
Proof. induction 1; simpl; lia. Qed.

Lemma total_count_obj_set (k : jsstring) (d d' : Bucket.t)
  (o : object Bucket.t) :
  assoc k o = Some d ->
  total_count (obj_set k d' o)
  = total_count o - Bucket.count d + Bucket.count d'.
Proof.
  induction o as [|[k0 d0] o IH]; simpl; intros H.
  - discriminate.
  - destruct (jsstring_eqb k k0); simpl.
    + inversion H; subst. lia.
    + rewrite IH by exact H. lia.
Qed.

Lemma Forall_obj_set {A : Type} (P : A -> Prop) (k : jsstring) (a : A)
  (o : object A) :
  P a -> Forall (fun e => P (snd e)) o ->
  Forall (fun e => P (snd e)) (obj_set k a o).
Proof.
  intros Ha Ho. induction Ho as [|[k0 a0] o H0 Ho IH]; simpl.
  - repeat constructor. exact Ha.
  - destruct (jsstring_eqb k k0); constructor; auto.
Qed.

Lemma Forall_assoc {A : Type} (P : A -> Prop) (k : jsstring) (a : A)
  (o : object A) :
  Forall (fun e => P (snd e)) o -> assoc k o = Some a -> P a.
Proof.
  intros Ho. induction Ho as [|[k0 a0] o H0 Ho IH]; simpl; intros H.
  - discriminate.
  - destruct (jsstring_eqb k k0); [inversion H; subst; exact H0|auto].
Qed.

Lemma obj_get_ok {A : Type} (o : object A) (k : jsstring) (found : option A) :
  obj_get o k = Ok found -> found = assoc k o.
Proof.
  unfold obj_get. destruct (assoc k o); [intros H; inversion H; reflexivity|].
  destruct (is_inherited k); intros H; inversion H; reflexivity.
Qed.

Lemma accumulate_match (buckets : object Bucket.t) (op : value)
  (s : jsstring) (data : Bucket.t) (amt : number) :
  get op p_timestamp = Ok (VStr s) -> s <> [] ->
  assoc (slice0 10 s) buckets = Some data ->
  amount_of op = Ok amt ->
  accumulate buckets op = Ok (obj_set (slice0 10 s) (bump data amt) buckets).
Proof.
  intros Hts Hne Hfound Hamt. unfold accumulate, day_of.
  assert (Ht : truthy (VStr (slice0 10 s)) = true)
    by (destruct s; [contradiction|reflexivity]).
  rewrite Hts. cbn [bind]. rewrite Ht. cbn [ToString bind].
  unfold obj_get. rewrite Hfound. cbn [bind]. rewrite Hamt. reflexivity.
Qed.

Lemma accumulate_no_match (buckets : object Bucket.t) (op : value)
  (s : jsstring) :
  get op p_timestamp = Ok (VStr s) ->
  assoc (slice0 10 s) buckets = None ->
  is_inherited (slice0 10 s) = false ->
  accumulate buckets op = Ok buckets.
Proof.
  intros Hts Hnone Hplain. unfold accumulate, day_of.
  rewrite Hts. cbn [bind].
  destruct (truthy (VStr (slice0 10 s))); [|reflexivity].
  cbn [ToString bind]. unfold obj_get. rewrite Hnone, Hplain.
  reflexivity.
Qed.

Lemma accumulate_missing (buckets : object Bucket.t) (op : value) :
  get op p_timestamp = Ok VUndefined \/ get op p_timestamp = Ok VNull ->
  accumulate buckets op = Ok buckets.
Proof.
  intros [H|H]; unfold accumulate, day_of; rewrite H; reflexivity.
Qed.

(** One operation adds at most one to the counts, and never removes a
    bucket. *)
Lemma accumulate_bound (buckets buckets' : object Bucket.t) (op : value) :
  accumulate buckets op = Ok buckets' ->
  Forall (fun e => 0 <= Bucket.count (snd e)) buckets ->
  Forall (fun e => 0 <= Bucket.count (snd e)) buckets'
  /\ total_count buckets' <= total_count buckets + 1
  /\ List.length buckets' = List.length buckets.
Proof.
  unfold accumulate. intros H Hpos. inv_bind H.
  destruct (truthy x).
  - inv_bind H. inv_bind H. apply obj_get_ok in E1. subst x1.
    destruct (assoc x0 buckets) as [data|] eqn:Ea.
    + inv_bind H. inversion H; subst. clear H.
      pose proof (Forall_assoc (fun d => 0 <= Bucket.count d) _ _ _ Hpos Ea) as Hd.
      simpl in Hd. split; [|split].
      * apply (Forall_obj_set (fun d => 0 <= Bucket.count d)); [simpl; lia|exact Hpos].
      * rewrite (total_count_obj_set _ _ _ _ Ea). simpl. lia.
      * eapply length_obj_set; eauto.
    + inversion H; subst. repeat split; auto; lia.
  - inversion H; subst. repeat split; auto; lia.
Qed.

Lemma accumulate_fold_bound (ops : list value) :
  forall buckets buckets',
    foldM accumulate ops buckets = Ok buckets' ->
    Forall (fun e => 0 <= Bucket.count (snd e)) buckets ->
    Forall (fun e => 0 <= Bucket.count (snd e)) buckets'
    /\ total_count buckets' <= total_count buckets + Z.of_nat (List.length ops)
    /\ List.length buckets' = List.length buckets.
Proof.
  induction ops as [|op ops IH]; simpl foldM; intros b b' H Hpos.
  - inversion H; subst. simpl. repeat split; auto; lia.
  - inv_bind H.
    destruct (accumulate_bound _ _ _ E Hpos) as (Hpos1 & Hle1 & Hlen1).
    destruct (IH _ _ H Hpos1) as (Hpos2 & Hle2 & Hlen2).
    simpl List.length. repeat split; auto; lia.
Qed.

Lemma prefill_zero (h : Host) (now : option Z) (i : nat) :
  forall buckets buckets',
    prefill h now i buckets = Ok buckets' ->
    Forall (fun e => Bucket.count (snd e) = 0) buckets ->
    Forall (fun e => Bucket.count (snd e) = 0) buckets'.
Proof.
  induction i as [|i IH]; simpl; intros b b' H Hz.
  - inv_bind H. inversion H; subst.
    apply (Forall_obj_set (fun d => Bucket.count d = 0)); auto.
  - inv_bind H. eapply IH; [exact H|].
    apply (Forall_obj_set (fun d => Bucket.count d = 0)); auto.
Qed.

Lemma total_count_zero (b : list (jsstring * Bucket.t)) :
  Forall (fun e => Bucket.count (snd e) = 0) b -> total_count b = 0.
Proof. induction 1; simpl; lia. Qed.

Lemma chart_total_map (h : Host) (entries : list (jsstring * Bucket.t)) :
  chart_total (map (chart_point h) entries) = total_count entries.
Proof.
  induction entries as [|[k d] l IH]; simpl; [reflexivity|]. rewrite IH.
  reflexivity.
Qed.

(** C10.  Each fetched operation goes to at most one bucket.  When the
    first ten characters of its timestamp are the key of a bucket, that
    bucket's count grows by exactly 1 and its volume by the operation's
    amount / 1,000,000 (by nothing when the operation has no amount), and no
    other bucket changes; when they are not a key, or the timestamp is
    missing, the operation is ignored.  So every emitted count is a
    non-negative integer and the counts add up to no more than the number
    of fetched operations. *)
Theorem growth_accumulation (h : Host) (ops : list value)
  (out : list ChartData.t)
  (Hrun : growthData h (VArr ops) = Ok out) :
  (forall buckets op s data x,
      get op p_timestamp = Ok (VStr s) -> s <> [] ->
      assoc (slice0 10 s) buckets = Some data ->
      get op p_amount = Ok (VNum x) -> truthy (VNum x) = true ->
      exists buckets',
        accumulate buckets op = Ok buckets'
        /\ assoc (slice0 10 s) buckets'
           = Some {| Bucket.count := Bucket.count data + 1;
                     Bucket.volume :=
                       num_add (Bucket.volume data)
                               (num_div x (num_of_Z 1000000)) |}
        /\ forall k, k <> slice0 10 s -> assoc k buckets' = assoc k buckets)
  /\ (forall buckets op s data,
         get op p_timestamp = Ok (VStr s) -> s <> [] ->
         assoc (slice0 10 s) buckets = Some data ->
         get op p_amount = Ok VUndefined ->
         exists buckets',
           accumulate buckets op = Ok buckets'
           /\ assoc (slice0 10 s) buckets'
              = Some {| Bucket.count := Bucket.count data + 1;
                        Bucket.volume :=
                          num_add (Bucket.volume data) num_zero |}
           /\ forall k, k <> slice0 10 s -> assoc k buckets' = assoc k buckets)
  /\ (forall buckets op s,
         get op p_timestamp = Ok (VStr s) ->
         assoc (slice0 10 s) buckets = None ->
         is_inherited (slice0 10 s) = false ->
         accumulate buckets op = Ok buckets)
  /\ (forall buckets op,
         get op p_timestamp = Ok VUndefined ->
         accumulate buckets op = Ok buckets)
  /\ Forall (fun c => 0 <= ChartData.count c) out
  /\ chart_total out <= Z.of_nat (List.length ops).
Proof.
  split; [|split; [|split; [|split]]].
  - intros buckets op s data x Hts Hne Hfound Hamt Htruthy.
    assert (Hamount : amount_of op = Ok (num_div x (num_of_Z 1000000))).
    { unfold amount_of. rewrite Hamt. cbn [bind]. unfold or_else.
      rewrite Htruthy. reflexivity. }
    eexists. split; [eapply accumulate_match; eauto|]. split.
    + apply assoc_obj_set_same.
    + intros k Hk. apply assoc_obj_set_other. exact Hk.
  - intros buckets op s data Hts Hne Hfound Hamt.
    assert (Hamount : amount_of op = Ok num_zero).
    { unfold amount_of. rewrite Hamt. reflexivity. }
    eexists. split; [eapply accumulate_match; eauto|]. split.
    + apply assoc_obj_set_same.
    + intros k Hk. apply assoc_obj_set_other. exact Hk.
  - intros. eapply accumulate_no_match; eauto.
  - intros. apply accumulate_missing. auto.
  - unfold growthData in Hrun. destruct ops as [|op ops].
    { inversion Hrun; subst. simpl. split; [constructor|lia]. }
    set (l := op :: ops) in *.
    inv_bind Hrun. inv_bind Hrun. inv_bind Hrun. inversion Hrun; subst out.
    clear Hrun.
    assert (Hz := prefill_zero _ _ _ _ _ E (Forall_nil _)).
    assert (Hpos0 : Forall (fun e => 0 <= Bucket.count (snd e)) x).
    { eapply Forall_impl; [|exact Hz]. simpl. intros; lia. }
    destruct (accumulate_fold_bound _ _ _ E0 Hpos0) as (Hpos & Hle & _).
    rewrite (total_count_zero _ Hz) in Hle.
    assert (Hperm : Permutation x0 x1).
    { rewrite <- (Object_entries_perm x0). eapply Array_sort_perm; eauto. }
    split.
    + apply Forall_forall. intros c Hc.
      apply in_map_iff in Hc. destruct Hc as ([k d] & <- & Hin).
      apply (Permutation_in _ (Permutation_sym Hperm)) in Hin.
      rewrite Forall_forall in Hpos. apply (Hpos _ Hin).
    + rewrite chart_total_map, <- (total_count_perm _ _ Hperm). lia.
Qed.

(** Two acquisitions on 31 March 2024, for 2.5 and 1.5 units, and an
    element without timestamp: the point of that day counts 2 and has
    volume 4, the other points are empty. *)
Lemma growth_accumulation_witness :
  exists out,
    growthData utc_host (VArr [test_operation; late_operation; VObj []])
    = Ok out
    /\ map (fun c => (ChartData.count c, ChartData.volume c)) (skipn 25 out)
       = [(0, num_zero); (2, num_of_Z 4); (0, num_zero); (0, num_zero);
          (0, num_zero); (0, num_zero)]
    /\ chart_total out <= 3
    /\ exists buckets',
         accumulate [(lit "2024-03-31",
                      {| Bucket.count := 1;
                         Bucket.volume := num_div (num_of_Z 5) (num_of_Z 2) |})]
                    late_operation = Ok buckets'
         /\ assoc (lit "2024-03-31") buckets'
            = Some {| Bucket.count := 2; Bucket.volume := num_of_Z 4 |}.
Proof.
  destruct (growthData utc_host (VArr [test_operation; late_operation; VObj []]))
    as [out|e] eqn:Hrun; [|vm_compute in Hrun; discriminate].
  destruct (growth_accumulation utc_host
              [test_operation; late_operation; VObj []] out Hrun)
    as (Hstep & _ & _ & _ & _ & Hle).
  exists out. split; [reflexivity|].
  split; [vm_compute in Hrun; injection Hrun as <-; vm_compute; reflexivity|].
  split; [exact Hle|].
  destruct (Hstep [(lit "2024-03-31",
                    {| Bucket.count := 1;
                       Bucket.volume := num_div (num_of_Z 5) (num_of_Z 2) |})]
                  late_operation (lit "2024-03-31T22:15:00Z")
                  {| Bucket.count := 1;
                     Bucket.volume := num_div (num_of_Z 5) (num_of_Z 2) |}
                  (num_of_Z 1500000))
    as (buckets' & Hacc & Hassoc & _).
  - reflexivity.
  - discriminate.
  - reflexivity.
  - reflexivity.
  - reflexivity.
  - exists buckets'. split; [exact Hacc|].
    refine (eq_trans Hassoc _). vm_compute. reflexivity.
Defined.

Lemma growthData_length (h : Host) (ops : list value) (out : list ChartData.t) :
  ops <> [] ->
  growthData h (VArr ops) = Ok out ->
  exists buckets,
    prefill h (Date_new h) 30 [] = Ok buckets
    /\ List.length out = List.length buckets.
Proof.
  intros Hne Hrun. unfold growthData in Hrun.
  destruct ops as [|op ops]; [contradiction|].
  inv_bind Hrun. inv_bind Hrun. inv_bind Hrun. inversion Hrun; subst out.
  exists x. split; [exact E|].
  assert (Hz := prefill_zero _ _ _ _ _ E (Forall_nil _)).
  assert (Hpos0 : Forall (fun e => 0 <= Bucket.count (snd e)) x).
  { eapply Forall_impl; [|exact Hz]. simpl. intros; lia. }
  destruct (accumulate_fold_bound _ _ _ E0 Hpos0) as (_ & _ & Hlen).
  rewrite length_map, <- Hlen.
  apply Array_sort_perm in E1. rewrite <- (Permutation_length E1).
  apply Permutation_length, Object_entries_perm.
Qed.

(** C3 fails on the code.  With the host in the Europe/London time zone at
    00:30 local time on 5 April 2024, five days after the clocks went
    forward, every non-empty fetch result gives 30 buckets, not 31: the
    pre-fill loop steps through local dates but keys the buckets by UTC
    date, and two of its steps fall on the UTC date 2024-03-31. *)
Theorem growth_series_short_in_london (ops : list value)
  (out : list ChartData.t)
  (Hne : ops <> [])
  (Hrun : growthData london_host (VArr ops) = Ok out) :
  List.length out = 30%nat.
Proof.
  destruct (growthData_length _ _ _ Hne Hrun) as (buckets & Hpre & ->).
  vm_compute in Hpre. inversion Hpre. reflexivity.
Qed.

Lemma growth_series_short_in_london_witness :
  exists out,
    growthData london_host (VArr [test_operation]) = Ok out
    /\ List.length out = 30%nat
    /\ map ChartData.date out
       = map lit ["Mar 6"; "Mar 7"; "Mar 8"; "Mar 9"; "Mar 10"; "Mar 11";
                  "Mar 12"; "Mar 13"; "Mar 14"; "Mar 15"; "Mar 16"; "Mar 17";
                  "Mar 18"; "Mar 19"; "Mar 20"; "Mar 21"; "Mar 22"; "Mar 23";
                  "Mar 24"; "Mar 25"; "Mar 26"; "Mar 27"; "Mar 28"; "Mar 29";
                  "Mar 30"; "Mar 31"; "Apr 1"; "Apr 2"; "Apr 3"; "Apr 4"]%string.
Proof.
  eexists. split; [vm_compute; reflexivity|]. split.
  - apply (growth_series_short_in_london [test_operation]).
    + discriminate.
    + vm_compute. reflexivity.
  - vm_compute. reflexivity.
Defined.

(** The same clock in a zone without daylight saving gives 31 buckets. *)
Example growth_series_utc :
  exists out,
    growthData utc_host (VArr [test_operation]) = Ok out
    /\ List.length out = 31%nat.
Proof. eexists. split; vm_compute; reflexivity. Qed.

(** After the clocks go back the loop skips a UTC date instead: 31 buckets,
    none for 27 October, and an acquisition of that day is counted
    nowhere. *)
Example growth_series_gap_in_london :
  exists out,
    growthData london_autumn_host (VArr [october_operation]) = Ok out
    /\ map ChartData.date (firstn 5 (skipn 25 out))
       = map lit ["Oct 25"; "Oct 26"; "Oct 28"; "Oct 29"; "Oct 30"]%string
    /\ chart_total out = 0.
Proof. eexists. split; [|split]; vm_compute; reflexivity. Qed.

(** ** The hex decoder *)

(** C4 fails on the code.  On a string nothing inside [hexToUtf8] throws, so
    the [catch] branch that would return the input is never taken: a pair
    that is not hex parses to [NaN], which the byte array stores as 0.  The
    string "zz" decodes to one NUL character. *)
Theorem hexToUtf8_on_strings :
  (forall s,
      hexToUtf8 (VStr s)
      = VStr (TextDecoder_decode
                (map (fun byte => ToUint8 (parseInt byte 16)) (match_pairs s))))
  /\ hexToUtf8 (VStr (lit "zz")) = VStr [0].
Proof.
  split.
  - intros s. unfold hexToUtf8, call_match, String_match_pairs. simpl.
    destruct (match_pairs s) as [|g gs] eqn:E; simpl.
    + reflexivity.
    + rewrite map_map. reflexivity.
  - vm_compute. reflexivity.
Qed.

(** A value that is not a string has no [match] method: the call throws, and
    the [catch] branch returns the value as it came. *)
Lemma hexToUtf8_not_a_string (v : value) :
  is_string v = false -> hexToUtf8 v = v.
Proof. destruct v; simpl; intros H; try reflexivity; discriminate. Qed.

(** * Further properties of the service *)

(** ** Counts *)

Lemma num_of_Z_nonzero (z : Z) :
  z <> 0 -> exists s, has_strict_sign s (num_of_Z z).
Proof.
  intros Hz. destruct z as [|p|p]; [contradiction| |].
  - exists false. apply num_of_Z_pos. lia.
  - exists true. unfold num_of_Z, binary_normalize, binary_round.
    destruct (shl_align p 0 (fexp prec emax (Zpos (digits2_pos p) + 0)))
      as [mz ez] eqn:E.
    apply binary_round_aux_strict.
    unfold shl_align in E.
    destruct (fexp prec emax (Zpos (digits2_pos p) + 0) - 0) eqn:E';
      inversion E; subst; unfold fexp, emin, prec, emax in *; lia.
Qed.

Lemma strict_sign_truthy (s : bool) (x : number) :
  has_strict_sign s x -> truthy (VNum x) = true /\ is_NaN x = false.
Proof. destruct x; simpl; intros H; try contradiction; auto. Qed.

(** [parseInt] gives [NaN], a zero, or a number that is not zero. *)
Lemma parseInt_shape (str : jsstring) (radix : Z) :
  parseInt str radix = NaN
  \/ (exists s, parseInt str radix = S754_zero s)
  \/ exists s, has_strict_sign s (parseInt str radix).
Proof.
  unfold parseInt.
  destruct (strip_sign (trim_left str)) as [neg s].
  destruct (take_digits radix _ 0 0) as [[v n] rest].
  destruct (n =? 0); [auto|].
  destruct (v =? 0) eqn:Ev; [eauto|].
  right; right. apply num_of_Z_nonzero. apply Z.eqb_neq in Ev.
  destruct neg; lia.
Qed.

(** X1.  Whatever the server answers, [fetchCount] returns a usable count:
    never [NaN] and never a negative zero; it is +0 or a number that is not
    zero. *)
Theorem fetchCount_is_a_count (h : Host) (url : jsstring) :
  is_NaN (fetchCount h url) = false
  /\ (fetchCount h url = num_zero
      \/ exists s, has_strict_sign s (fetchCount h url)).
Proof.
  unfold fetchCount.
  destruct (fetch h url) as [|ok [|text]]; try (split; [reflexivity|auto]).
  - destruct (negb ok); split; auto.
  - destruct (negb ok); [split; auto|].
    destruct text as [|c text]; [split; auto|].
    unfold num_or.
    destruct (parseInt_shape (c :: text) 10) as [H|[[s H]|[s H]]].
    + rewrite H. split; auto.
    + rewrite H. split; auto.
    + destruct (strict_sign_truthy _ _ H) as [Ht Hn]. rewrite Ht.
      split; eauto.
Qed.

(** ** The headline statistics *)

Lemma num_or_not_NaN (x : number) : is_NaN (num_or x num_zero) = false.
Proof. unfold num_or. destruct x; reflexivity. Qed.

Lemma fetchCount_not_NaN (h : Host) (url : jsstring) :
  is_NaN (fetchCount h url) = false.
Proof.
  unfold fetchCount.
  destruct (fetch h url) as [|ok [|text]]; try reflexivity;
    destruct (negb ok); try reflexivity.
  destruct text; [reflexivity|apply num_or_not_NaN].
Qed.

Lemma pct_none (c p : number) :
  pct c p = None -> num_ltb num_zero c = false.
Proof.
  unfold pct. destruct (num_eqb p num_zero); [|discriminate].
  destruct (num_ltb num_zero c); [discriminate|reflexivity].
Qed.

Lemma isoAgo_within_48h (h : Host) (hours : Z) :
  clock_within_48h h -> 0 <= hours <= 48 ->
  exists s, isoAgo h hours = Ok s.
Proof.
  unfold clock_within_48h, isoAgo, TimeClip. intros Hc Hh.
  destruct (Z.abs (Date_now h - hours * 3600000) <=? 8640000000000000) eqn:E.
  - cbn [toISOString]. eexists. reflexivity.
  - apply Z.leb_gt in E. lia.
Qed.

(** *** Operations that do not produce [NaN] *)

Lemma has_sign_not_NaN (s : bool) (x : number) :
  has_sign s x -> is_NaN x = false.
Proof. destruct x; simpl; intros H; [reflexivity|reflexivity|contradiction|reflexivity]. Qed.

Lemma binary_round_aux_not_NaN (s : bool) (m e : Z) (l : location) :
  0 <= m -> is_NaN (binary_round_aux prec emax s m e l) = false.
Proof.
  intros Hm. apply (has_sign_not_NaN s). apply binary_round_aux_sign. exact Hm.
Qed.

Lemma binary_normalize_not_NaN (m e : Z) (szero : bool) :
  is_NaN (binary_normalize prec emax m e szero) = false.
Proof.
  destruct m as [|p|p]; [reflexivity| |]; unfold binary_normalize, binary_round;
    destruct (shl_align p e (fexp prec emax (Zpos (digits2_pos p) + e)))
      as [mz ez]; apply binary_round_aux_not_NaN; lia.
Qed.

Lemma num_sub_not_NaN (c p : number) :
  is_finite c = true -> is_finite p = true -> is_NaN (num_sub c p) = false.
Proof.
  destruct c as [sc|sc| |sc mc ec]; try discriminate;
    destruct p as [sp|sp| |sp mp ep]; try discriminate; intros _ _.
  - destruct sc, sp; reflexivity.
  - reflexivity.
  - reflexivity.
  - apply binary_normalize_not_NaN.
Qed.

(** Dividing by a number that is finite and not zero. *)
Lemma num_div_not_NaN (x : number) (sy : bool) (my : positive) (ey : Z) :
  is_NaN x = false -> is_NaN (num_div x (S754_finite sy my ey)) = false.
Proof.
  destruct x as [sx|sx| |sx mx ex]; try discriminate; intros _;
    try reflexivity.
  unfold num_div, SFdiv.
  pose proof (div_core_nonneg mx my ex ey) as Hq.
  destruct (SFdiv_core_binary prec emax (Zpos mx) ex (Zpos my) ey)
    as [[q e'] l]. cbn [fst] in Hq.
  apply binary_round_aux_not_NaN. exact Hq.
Qed.

(** Multiplying by a number that is finite and not zero. *)
Lemma num_mul_not_NaN (x : number) (sy : bool) (my : positive) (ey : Z) :
  is_NaN x = false -> is_NaN (num_mul x (S754_finite sy my ey)) = false.
Proof.
  destruct x as [sx|sx| |sx mx ex]; try discriminate; intros _;
    try reflexivity.
  apply binary_round_aux_not_NaN. lia.
Qed.

Lemma Math_round_not_NaN (x : number) :
  is_NaN x = false -> is_NaN (Math_round x) = false.
Proof.
  destruct x as [sx|sx| |sx mx ex]; try discriminate; intros _;
    try reflexivity.
  unfold Math_round. destruct (0 <=? ex); [reflexivity|].
  destruct (Zpos mx mod 2 ^ (- ex) =? 0); [reflexivity|].
  match goal with |- context [Z.eqb ?r 0] => destruct (Z.eqb r 0) end;
    [reflexivity|apply binary_normalize_not_NaN].
Qed.

(** On finite counts the change is never [NaN]. *)
Lemma pct_finite (c p x : number) :
  is_finite c = true -> is_finite p = true -> pct c p = Some x ->
  is_NaN x = false.
Proof.
  intros Hc Hp. unfold pct.
  destruct p as [sp|sp| |sp mp ep]; try discriminate.
  - change (num_eqb (S754_zero sp) num_zero) with true. cbv iota.
    destruct (num_ltb num_zero c); [|discriminate].
    intros H. injection H as <-. reflexivity.
  - assert (Hnz : num_eqb (S754_finite sp mp ep) num_zero = false)
      by (destruct sp; reflexivity).
    rewrite Hnz. intros H. injection H as <-.
    change (num_of_Z 10) with (S754_finite false 5629499534213120 (-49)).
    change (num_of_Z 1000) with (S754_finite false 8796093022208000 (-43)).
    apply num_div_not_NaN, Math_round_not_NaN, num_mul_not_NaN,
      num_div_not_NaN, num_sub_not_NaN; [exact Hc|reflexivity].
Qed.

(** X2.  With the clock 48 hours or more inside the range of dates,
    [getStats] always resolves, whatever the six count requests return.
    The all-time total and the active-holder count never carry a change; no
    count is [NaN]; a 24-hour count that is greater than zero always comes
    with a change (not [null]); and when every count read is finite, no
    change is [NaN]. *)
Theorem getStats_resolves (h : Host) (Hclock : clock_within_48h h) :
  exists s,
    getStats h = Ok s
    /\ totalDomainsChange s = None
    /\ activeUsersChange s = None
    /\ is_NaN (totalDomains s) = false
    /\ is_NaN (new24h s) = false
    /\ is_NaN (renewals24h s) = false
    /\ is_NaN (activeUsers s) = false
    /\ (num_ltb num_zero (new24h s) = true ->
        exists x, new24hChange s = Some x)
    /\ (num_ltb num_zero (renewals24h s) = true ->
        exists x, renewalsChange s = Some x)
    /\ ((forall url, is_finite (fetchCount h url) = true) ->
        forall x, new24hChange s = Some x \/ renewalsChange s = Some x ->
                  is_NaN x = false).
Proof.
  unfold getStats.
  destruct (isoAgo_within_48h h 24 Hclock ltac:(lia)) as [s24 ->].
  destruct (isoAgo_within_48h h 48 Hclock ltac:(lia)) as [s48 ->].
  cbn [bind]. eexists. split; [reflexivity|].
  cbn [totalDomains new24h renewals24h activeUsers totalDomainsChange
       new24hChange renewalsChange activeUsersChange].
  split; [reflexivity|]. split; [reflexivity|].
  split; [apply fetchCount_not_NaN|].
  split; [apply fetchCount_not_NaN|].
  split; [apply fetchCount_not_NaN|].
  split; [apply num_or_not_NaN|].
  split; [|split].
  - intros Hpos.
    match goal with |- exists x, ?c = Some x => destruct c as [x|] eqn:E end;
      [eauto|]. apply pct_none in E. congruence.
  - intros Hpos.
    match goal with |- exists x, ?c = Some x => destruct c as [x|] eqn:E end;
      [eauto|]. apply pct_none in E. congruence.
  - intros Hfinite x [Hx|Hx]; eapply pct_finite; try exact Hx; apply Hfinite.
Qed.

(** A server that counts 403 operations in the last day and 80 in the day
    before: both 24-hour counts come with the change 403.7. *)
Lemma getStats_resolves_witness :
  exists s,
    getStats counting_host = Ok s
    /\ num_ltb num_zero (new24h s) = true
    /\ option_map Number_toString (new24hChange s) = Some (lit "403.7")
    /\ exists x, renewalsChange s = Some x /\ is_NaN x = false.
Proof.
  destruct (getStats_resolves counting_host)
    as (s & Hrun & _ & _ & _ & _ & _ & _ & Hnew & Hrenew & Hfinite).
  - unfold clock_within_48h. cbn [Date_now counting_host]. lia.
  - exists s. split; [exact Hrun|].
    vm_compute in Hrun. injection Hrun as Hs.
    assert (Hpos : num_ltb num_zero (renewals24h s) = true)
      by (rewrite <- Hs; reflexivity).
    split; [rewrite <- Hs; reflexivity|].
    split; [rewrite <- Hs; vm_compute; reflexivity|].
    destruct (Hrenew Hpos) as [x Hx]. exists x. split; [exact Hx|].
    apply Hfinite; [|right; exact Hx].
    intros url. unfold fetchCount. cbn [fetch counting_host negb].
    destruct (contains (lit "&timestamp.lt=") url); reflexivity.
Defined.

(** A count of 400 digits is read as [Infinity], and then the change is
    [NaN]. *)
Example getStats_overflow :
  option_map (fun s => (new24h s, new24hChange s))
    (match getStats (answering_host (repeat 57 400)) with
     | Ok s => Some s
     | Throw _ => None
     end)
  = Some (S754_infinity false, Some NaN).
Proof. vm_compute. reflexivity. Qed.

(** ** Fetch results without operations *)

Lemma push_items_no_elements (item : value -> result ActivityItem.t)
  (ops : value) :
  elements ops = [] -> push_items item ops = Ok [].
Proof.
  destruct ops; intros H; try reflexivity. simpl in H. subst. reflexivity.
Qed.

Lemma growthData_no_elements (h : Host) (ops : value) :
  elements ops = [] -> growthData h ops = Ok [].
Proof.
  destruct ops; intros H; try reflexivity. simpl in H. subst. reflexivity.
Qed.

Lemma topHolders_no_elements (ops : value) :
  elements ops = [] -> topHolders ops = Ok [].
Proof.
  destruct ops; intros H; try reflexivity. simpl in H. subst. reflexivity.
Qed.

(** X3.  When no list query yields an operation (the result is [null], an
    empty array, or JSON that is not an array, such as an error object sent
    with a success status), the three list aggregators resolve with an empty
    array. *)
Theorem no_operations_no_results (h : Host)
  (Hclock : clock_in_range h)
  (Hnone : forall url, elements (fetchJson h url) = []) :
  getRecentActivity h = Ok []
  /\ getGrowthData h = Ok []
  /\ getTopHolders h = Ok [].
Proof.
  repeat split.
  - unfold getRecentActivity, recentActivity.
    rewrite !push_items_no_elements by apply Hnone. reflexivity.
  - unfold getGrowthData.
    destruct (isoAgo_ok h (30 * 24) Hclock ltac:(lia)) as [s ->].
    cbn [bind]. apply growthData_no_elements, Hnone.
  - unfold getTopHolders. apply topHolders_no_elements, Hnone.
Qed.

Lemma no_operations_no_results_witness :
  fetchJson empty_object_host (lit "any") = VObj []
  /\ getRecentActivity empty_object_host = Ok []
  /\ getGrowthData empty_object_host = Ok []
  /\ getTopHolders empty_object_host = Ok [].
Proof.
  split; [reflexivity|].
  apply (no_operations_no_results empty_object_host).
  - unfold clock_in_range. simpl. lia.
  - intros url. reflexivity.
Defined.

(** ** Truncation keeps the best *)

Lemma StronglySorted_app_cross {A : Type} (R : A -> A -> Prop) (l1 l2 : list A) :
  StronglySorted R (l1 ++ l2) ->
  forall a b, In a l1 -> In b l2 -> R a b.
Proof.
  induction l1 as [|x l1 IH]; simpl; intros Hs a b Ha Hb; [contradiction|].
  inversion Hs as [|? ? Hs' Hall]; subst.
  destruct Ha as [<-|Ha].
  - rewrite Forall_forall in Hall. apply Hall, in_or_app. auto.
  - eapply IH; eauto.
Qed.

(** An element of a sorted list that [firstn n] drops is dominated by
    everything kept, and then [n] elements were kept. *)
Lemma sorted_firstn_dominates {A : Type} (R : A -> A -> Prop) (n : nat)
  (l : list A) (x : A) :
  StronglySorted R l -> In x l -> ~ In x (firstn n l) ->
  List.length (firstn n l) = n /\ forall e, In e (firstn n l) -> R e x.
Proof.
  intros Hs Hin Hout.
  rewrite <- (firstn_skipn n l) in Hin, Hs.
  apply in_app_or in Hin. destruct Hin as [Hin|Hin]; [contradiction|].
  split.
  - rewrite length_firstn. apply Nat.min_l.
    destruct (Nat.le_gt_cases n (List.length l)) as [Hle|Hgt]; [exact Hle|].
    rewrite skipn_all2 in Hin by lia. contradiction.
  - intros e He. eapply StronglySorted_app_cross; eauto.
Qed.

(** *** The leaderboard *)

Lemma tally_step_ok (seen : list value) (counts counts' : object Z)
  (op : value) :
  tally counts op = Ok counts' ->
  tally_of seen counts ->
  tally_of (seen ++ [op]) counts'.
Proof.
  unfold tally. intros H [Hnd Hassoc]. inv_bind H.
  destruct x as [addr|].
  - inv_bind H. apply obj_get_ok in E0. subst x. inversion H; subst counts'.
    clear H. split; [apply NoDup_keys_obj_set, Hnd|].
    intros a. rewrite occurrences_snoc. unfold tallied. rewrite E.
    pose proof (occurrences_nonneg addr seen) as Hge.
    destruct (jsstring_eqb addr a) eqn:Ea.
    + apply jsstring_eqb_eq in Ea. subst a. rewrite assoc_obj_set_same.
      rewrite (Hassoc addr).
      destruct (occurrences addr seen =? 0) eqn:E0.
      * apply Z.eqb_eq in E0. rewrite E0. reflexivity.
      * rewrite E0.
        destruct (occurrences addr seen + 1 =? 0) eqn:E1;
          [apply Z.eqb_eq in E1; lia|reflexivity].
    + rewrite assoc_obj_set_other.
      * rewrite Hassoc, Z.add_0_r. reflexivity.
      * intros ->. rewrite jsstring_eqb_refl in Ea. discriminate.
  - inversion H; subst counts'. split; [exact Hnd|].
    intros a. rewrite occurrences_snoc. unfold tallied. rewrite E.
    rewrite Z.add_0_r. apply Hassoc.
Qed.

Lemma tally_fold_ok (ops : list value) :
  forall seen counts counts',
    foldM tally ops counts = Ok counts' ->
    tally_of seen counts ->
    tally_of (seen ++ ops) counts'.
Proof.
  induction ops as [|op ops IH]; simpl; intros seen counts counts' H Ht.
  - inversion H; subst. rewrite app_nil_r. exact Ht.
  - inv_bind H. apply (tally_step_ok seen) in E; [|exact Ht].
    apply (IH _ _ _ H) in E. rewrite <- app_assoc in E. exact E.
Qed.

Lemma assoc_In {A : Type} (k : jsstring) (a : A) (o : object A) :
  assoc k o = Some a -> In (k, a) o.
Proof.
  induction o as [|[k' a'] o IH]; simpl; intros H; [discriminate|].
  destruct (jsstring_eqb k k') eqn:E.
  - apply jsstring_eqb_eq in E. inversion H; subst. auto.
  - auto.
Qed.

(** X4.  The leaderboard really is the top of the tally: an address that
    occurs among the fetched senders but is not listed was cut by the limit
    of 10, and every listed address occurs at least as often.  So with ten
    or fewer distinct senders, all of them are listed. *)
Theorem top_holders_are_the_top (ops : value) (out : list Holder.t)
  (Hrun : topHolders ops = Ok out) :
  forall a, 0 < occurrences a (elements ops) ->
            ~ In a (map Holder.address out) ->
            List.length out = 10%nat
            /\ forall e, In e out ->
                         occurrences a (elements ops) <= Holder.count e.
Proof.
  intros a Hocc Hout.
  destruct ops as [| | | | |l|]; try (simpl in Hocc; unfold occurrences in Hocc;
                                      simpl in Hocc; lia).
  destruct l as [|op l];
    [simpl in Hocc; unfold occurrences in Hocc; simpl in Hocc; lia|].
  change (elements (VArr (op :: l))) with (op :: l) in *.
  set (l' := op :: l) in *.
  unfold topHolders in Hrun. fold l' in Hrun.
  inv_bind Hrun. inv_bind Hrun. inversion Hrun; subst out. clear Hrun.
  destruct (tally_fold_ok l' [] [] x E tally_of_nil) as [Hnd Hassoc].
  simpl app in Hassoc.
  assert (Hperm : Permutation x x0).
  { rewrite <- (Object_entries_perm x). eapply Array_sort_perm; eauto. }
  assert (Hsorted : StronglySorted (desc_by snd) x0).
  { eapply Array_sort_sorted; [|exact E0]. intros u v _ _. reflexivity. }
  assert (Hin : In (a, occurrences a l') x0).
  { apply (Permutation_in _ Hperm). apply assoc_In. rewrite Hassoc.
    destruct (occurrences a l' =? 0) eqn:E1;
      [apply Z.eqb_eq in E1; lia|reflexivity]. }
  assert (Hnot : ~ In (a, occurrences a l') (firstn 10 x0)).
  { intros Hf. apply Hout. rewrite map_map. apply in_map_iff.
    exists (a, occurrences a l'). split; [reflexivity|exact Hf]. }
  destruct (sorted_firstn_dominates _ 10 _ _ Hsorted Hin Hnot) as [Hlen Hdom].
  split.
  - rewrite length_map. exact Hlen.
  - intros e He. apply in_map_iff in He. destruct He as ([k c] & <- & Hk).
    specialize (Hdom _ Hk). unfold desc_by in Hdom. simpl in *. exact Hdom.
Qed.

Lemma top_holders_are_the_top_witness :
  let ops := VArr (map sent_by ["a"; "b"; "c"; "d"; "e"; "f"; "g"; "h"; "i";
                                "j"; "k"; "a"; "b"; "c"; "d"; "e"; "f"; "g";
                                "h"; "i"; "j"]%string) in
  exists out,
    topHolders ops = Ok out
    /\ List.length out = 10%nat
    /\ forall e, In e out -> 1 <= Holder.count e.
Proof.
  intros ops. eexists. split; [vm_compute; reflexivity|].
  destruct (top_holders_are_the_top ops _ ltac:(vm_compute; reflexivity)
              (lit "k")) as [H1 H2].
  - vm_compute. reflexivity.
  - vm_compute. intuition discriminate.
  - split; [exact H1|]. intros e He. specialize (H2 e He).
    vm_compute in H2. vm_compute. exact H2.
Defined.

(** *** The activity feed *)

Lemma recentActivity_sorted_merge (h : Host) (buys renews : value) :
  Forall (dated_operation h buy_item) (elements buys) ->
  Forall (dated_operation h renew_item) (elements renews) ->
  exists bs rs sorted,
    push_items buy_item buys = Ok bs
    /\ push_items renew_item renews = Ok rs
    /\ Permutation (bs ++ rs) sorted
    /\ StronglySorted (not_older h) sorted
    /\ recentActivity h buys renews = Ok (firstn 15 sorted).
Proof.
  intros Hbuys Hrenews.
  destruct (push_items_total buy_item buys) as [bs Hbs].
  { eapply Forall_impl; [|exact Hbuys]. intros op (ev & t & H & _). eauto. }
  destruct (push_items_total renew_item renews) as [rs Hrs].
  { eapply Forall_impl; [|exact Hrenews]. intros op (ev & t & H & _). eauto. }
  assert (Hdated : Forall (fun ev => exists t, event_time h ev = Some t)
                          (bs ++ rs)).
  { apply Forall_app. split.
    - eapply dated_items; [exact Hbuys|]. apply push_items_Forall2, Hbs.
    - eapply dated_items; [exact Hrenews|]. apply push_items_Forall2, Hrs. }
  rewrite Forall_forall in Hdated.
  assert (Hcmp : forall a b, In a (bs ++ rs) -> In b (bs ++ rs) ->
                   by_timestamp_desc h a b
                   = Ok (Some (time_key h b - time_key h a))).
  { intros a b Ha Hb.
    destruct (Hdated a Ha) as [ta Hta]. destruct (Hdated b Hb) as [tb Htb].
    eapply by_timestamp_desc_dated; eauto. }
  destruct (Array_sort_total (by_timestamp_desc h) (bs ++ rs))
    as [sorted Hsorted].
  { intros a b Ha Hb. rewrite (Hcmp a b Ha Hb). eauto. }
  assert (Hperm := Array_sort_perm _ _ _ Hsorted).
  exists bs, rs, sorted. repeat split; auto.
  - apply StronglySorted_impl_in with (R := desc_by (time_key h)).
    + intros a b Ha Hb Hab.
      apply (Permutation_in _ (Permutation_sym Hperm)) in Ha, Hb.
      destruct (Hdated a Ha) as [ta Hta]. destruct (Hdated b Hb) as [tb Htb].
      exists ta, tb. repeat split; auto.
      unfold desc_by, time_key in Hab. rewrite Hta, Htb in Hab. exact Hab.
    + eapply Array_sort_sorted; eauto.
  - unfold recentActivity. rewrite Hbs, Hrs. cbn [bind]. rewrite Hsorted.
    reflexivity.
Qed.

(** X5.  The feed keeps the most recent events.  For fetch results made of
    operation records, nothing is dropped while the two lists together hold
    15 events or fewer; and an event that is dropped is not newer than any
    of the 15 that are kept. *)
Theorem recent_activity_keeps_most_recent (h : Host) (buys renews : value)
  (Hbuys : Forall (Operation h buy_label) (elements buys))
  (Hrenews : Forall (Operation h renew_label) (elements renews)) :
  exists evs bs rs,
    recentActivity h buys renews = Ok evs
    /\ push_items buy_item buys = Ok bs
    /\ push_items renew_item renews = Ok rs
    /\ ((List.length (bs ++ rs) <= 15)%nat -> Permutation (bs ++ rs) evs)
    /\ forall x, In x (bs ++ rs) -> ~ In x evs ->
         List.length evs = 15%nat
         /\ forall e, In e evs -> not_older h e x.
Proof.
  destruct (recentActivity_sorted_merge h buys renews)
    as (bs & rs & sorted & Hbs & Hrs & Hperm & Hs & Hrun).
  { eapply Forall_impl; [apply Operation_buy_dated|exact Hbuys]. }
  { eapply Forall_impl; [apply Operation_renew_dated|exact Hrenews]. }
  exists (firstn 15 sorted), bs, rs.
  split; [exact Hrun|]. split; [exact Hbs|]. split; [exact Hrs|]. split.
  - intros Hlen. rewrite firstn_all2; [exact Hperm|].
    rewrite <- (Permutation_length Hperm). exact Hlen.
  - intros x Hx Hout.
    apply (sorted_firstn_dominates (not_older h) 15 sorted x Hs).
    + apply (Permutation_in _ Hperm). exact Hx.
    + exact Hout.
Qed.

Lemma recent_activity_keeps_most_recent_witness :
  exists evs,
    recentActivity utc_host (VArr (repeat test_operation 15))
                   (VArr [test_renewal]) = Ok evs
    /\ List.length evs = 15%nat
    /\ map ActivityItem.id (firstn 2 evs) = [lit "renew-5"; lit "buy-5"].
Proof.
  destruct (recent_activity_keeps_most_recent utc_host
              (VArr (repeat test_operation 15)) (VArr [test_renewal]))
    as (evs & bs & rs & H1 & _).
  - simpl elements. simpl repeat.
    repeat apply Forall_cons; try apply Forall_nil;
      (split; [|split; [|split]]);
      repeat eexists; vm_compute; reflexivity.
  - repeat apply Forall_cons; try apply Forall_nil;
      (split; [|split; [|split]]);
      repeat eexists; vm_compute; reflexivity.
  - exists evs. vm_compute in H1. inversion H1; subst evs.
    repeat split.
Defined.


(** ** The change badge of a statistics card *)

Lemma dec_nonneg_head (z : Z) : 0 <= z -> hd 0 (dec z) <> 45.
Proof.
  intros Hz. unfold dec. destruct z as [|p|p]; [cbn; lia| |lia].
  unfold Z.to_int. destruct (Pos.to_uint p); cbn; lia.
Qed.

Lemma hd_app_not (a b : jsstring) (c : Z) :
  hd 0 a <> c -> hd 0 b <> c -> hd 0 (a ++ b) <> c.
Proof. destruct a; simpl; auto. Qed.

Lemma hd_firstn_not (n : nat) (a : jsstring) (c : Z) :
  c <> 0 -> hd 0 a <> c -> hd 0 (firstn n a) <> c.
Proof. destruct n, a; simpl; auto. Qed.

Lemma format_digits_head (n k s : Z) :
  0 <= s -> hd 0 (format_digits n k s) <> 45.
Proof.
  intros Hs. assert (Hd := dec_nonneg_head s Hs).
  unfold format_digits.
  destruct ((k <=? n) && (n <=? 21)).
  { apply hd_app_not; [exact Hd|]. unfold zeros.
    destruct (Z.to_nat (n - k)); simpl; lia. }
  destruct ((0 <? n) && (n <=? 21)).
  { apply hd_app_not; [apply hd_firstn_not; [lia|exact Hd]|simpl; lia]. }
  destruct ((-6 <? n) && (n <=? 0)); [simpl; lia|].
  destruct (k =? 1).
  - apply hd_app_not; [exact Hd|simpl; lia].
  - apply hd_app_not; [apply hd_firstn_not; [lia|exact Hd]|simpl; lia].
Qed.

Lemma digit_candidates_nonneg (m e n k : Z) :
  Forall (fun c => 0 <= snd c) (digit_candidates m e n k).
Proof.
  unfold digit_candidates. apply Forall_forall. intros [n' s] Hin.
  apply in_map_iff in Hin. destruct Hin as (s' & Heq & Hin).
  inversion Heq; subst. apply filter_In in Hin. destruct Hin as [_ Hf].
  apply andb_prop in Hf. destruct Hf as [Hf _].
  apply andb_prop in Hf. destruct Hf as [Hf _].
  apply Z.leb_le in Hf. simpl.
  assert (0 <= 10 ^ (k - 1)) by (apply Z.pow_nonneg; lia). lia.
Qed.

Lemma shortest_digits_nonneg (fuel : nat) (m : positive) (e nx k : Z) :
  0 <= snd (shortest_digits fuel (Zpos m) e nx k).
Proof.
  revert k. induction fuel as [|fuel IH]; intros k; cbn [shortest_digits].
  - cbn [snd]. apply Z_div_nonneg_nonneg.
    + repeat apply Z.mul_nonneg_nonneg; try lia; apply Z.pow_nonneg; lia.
    + apply Z.mul_nonneg_nonneg; apply Z.pow_nonneg; lia.
  - destruct (digit_candidates (Zpos m) e nx k
              ++ digit_candidates (Zpos m) e (nx + 1) k) as [|[n s] l] eqn:E.
    + apply IH.
    + assert (Hin : In (n, s) (digit_candidates (Zpos m) e nx k
                           ++ digit_candidates (Zpos m) e (nx + 1) k)).
      { rewrite E. left. reflexivity. }
      apply in_app_or in Hin. cbn [snd].
      destruct Hin as [Hin|Hin];
        eapply Forall_forall in Hin; try apply digit_candidates_nonneg;
        exact Hin.
Qed.

(** The numeral of a number that is not below zero has no minus sign; the
    numeral of a number below zero starts with one. *)
Lemma Number_toString_sign (x : number) :
  if num_leb num_zero x then hd 0 (Number_toString x) <> 45
  else x = NaN \/ hd 0 (Number_toString x) = 45.
Proof.
  destruct x as [s|s| |s m e].
  - destruct s; cbn; lia.
  - destruct s; cbn; [right; reflexivity|lia].
  - cbn. left. reflexivity.
  - destruct s.
    + change (num_leb num_zero (S754_finite true m e)) with false.
      right. unfold Number_toString.
      destruct (shortest_digits _ _ _ _ _) as [[n k] d]. reflexivity.
    + change (num_leb num_zero (S754_finite false m e)) with true.
      unfold Number_toString.
      assert (Hd := shortest_digits_nonneg 17 m e
                      (decimal_exponent 8 (Zpos m) e
                         (Z.min ((Z.log2 (Zpos m) + e) * 30102 / 100000)
                                ((Z.log2 (Zpos m) + e) * 30103 / 100000) - 1))
                      1).
      destruct (shortest_digits _ _ _ _ _) as [[n k] d].
      simpl app. apply format_digits_head. exact Hd.
Qed.

(** X7.  The badge of a change value.  Without a value it is a dash with no
    direction.  With a value the text is the numeral followed by a percent
    sign; a value that is not below zero points up and gets a plus sign,
    which is never followed by a minus sign (negative zero prints as 0);
    any other value points down, and its text starts with a minus sign
    unless the value is [NaN]. *)
Theorem formatChange_badge (val : option number) :
  match val with
  | None =>
      formatChange val = {| Badge.text := [8212]; Badge.up := None |}
  | Some v =>
      exists numeral,
        numeral = Number_toString v
        /\ if num_leb num_zero v
           then formatChange val
                = {| Badge.text := lit "+" ++ numeral ++ lit "%";
                     Badge.up := Some true |}
                /\ hd 0 numeral <> 45
           else formatChange val
                = {| Badge.text := numeral ++ lit "%"; Badge.up := Some false |}
                /\ (v = NaN \/ hd 0 numeral = 45)
  end.
Proof.
  destruct val as [v|]; [|reflexivity].
  exists (Number_toString v). split; [reflexivity|].
  assert (H := Number_toString_sign v). unfold formatChange.
  destruct (num_leb num_zero v); split; auto.
Qed.

(** A decline of less than a twentieth of a percent rounds to negative
    zero, which the badge shows as a rise of 0 percent. *)
Example formatChange_tiny_decline :
  option_map (fun x => formatChange (Some x))
             (pct (num_of_Z 2000) (num_of_Z 2001))
  = Some {| Badge.text := lit "+0%"; Badge.up := Some true |}.
Proof. vm_compute. reflexivity. Qed.

(** ** Reading a count *)

Lemma lit_String (c : ascii) (s : string) :
  lit (String c s) = Z.of_nat (nat_of_ascii c) :: lit s.
Proof. reflexivity. Qed.

Lemma take_digits_stop (tail : jsstring) (acc cnt : Z) :
  ends_numeral tail -> take_digits 10 tail acc cnt = (acc, cnt, tail).
Proof.
  destruct tail as [|c tail]; simpl; intros H; [reflexivity|].
  rewrite H. reflexivity.
Qed.

(** One digit read by [take_digits]: the accumulator [p] becomes
    [10 * p + v]. *)
Ltac read_digit v IH :=
  rewrite lit_String; cbn [app take_digits];
  match goal with
  | |- context [digit_val 10 ?c] => change (digit_val 10 c) with (Some v)
  end;
  cbv iota;
  match goal with
  | |- context [take_digits 10 _ ?acc _] =>
      match acc with
      | Z.add (Z.mul (Zpos ?p) 10) _ =>
          replace acc with (Zpos (Pos.add (Z.to_pos v) (Pos.mul 10 p)))
            by (cbn [Z.to_pos]; lia)
      end
  end;
  cbn [Z.to_pos]; rewrite IH; f_equal; f_equal; lia.

Lemma take_digits_uint_acc (u : Decimal.uint) (tail : jsstring) :
  ends_numeral tail ->
  forall (p : positive) (cnt : Z),
    take_digits 10 (lit (NilEmpty.string_of_uint u) ++ tail) (Zpos p) cnt
    = (Zpos (Pos.of_uint_acc u p), cnt + Z.of_nat (Decimal.nb_digits u), tail).
Proof.
  intros Htail.
  induction u as [|u IH|u IH|u IH|u IH|u IH|u IH|u IH|u IH|u IH|u IH];
    intros p cnt;
    cbn [NilEmpty.string_of_uint Pos.of_uint_acc Decimal.nb_digits].
  - cbn [lit list_ascii_of_string map app].
    rewrite take_digits_stop by exact Htail. f_equal. f_equal. lia.
  - rewrite lit_String. cbn [app take_digits].
    change (digit_val 10 (Z.of_nat (nat_of_ascii "0"))) with (Some 0).
    cbv iota.
    replace (Zpos p * 10 + 0) with (Zpos (Pos.mul 10 p)) by lia.
    rewrite IH. f_equal. f_equal. lia.
  - read_digit 1 IH.
  - read_digit 2 IH.
  - read_digit 3 IH.
  - read_digit 4 IH.
  - read_digit 5 IH.
  - read_digit 6 IH.
  - read_digit 7 IH.
  - read_digit 8 IH.
  - read_digit 9 IH.
Qed.

(** Reading a numeral from 0 gives the number it denotes; leading zeros
    count as digits. *)
Lemma take_digits_uint (u : Decimal.uint) (tail : jsstring) :
  ends_numeral tail ->
  forall cnt : Z,
    take_digits 10 (lit (NilEmpty.string_of_uint u) ++ tail) 0 cnt
    = (Z.of_N (Pos.of_uint u), cnt + Z.of_nat (Decimal.nb_digits u), tail).
Proof.
  intros Htail.
  induction u as [|u IH|u IH|u IH|u IH|u IH|u IH|u IH|u IH|u IH|u IH];
    intros cnt; cbn [NilEmpty.string_of_uint Pos.of_uint Decimal.nb_digits].
  - cbn [lit list_ascii_of_string map app].
    rewrite take_digits_stop by exact Htail. f_equal. f_equal. simpl. lia.
  - rewrite lit_String. cbn [app take_digits].
    change (digit_val 10 (Z.of_nat (nat_of_ascii "0"))) with (Some 0).
    cbv iota. change (0 * 10 + 0) with 0.
    rewrite IH. f_equal. f_equal. lia.
  - rewrite lit_String. cbn [app take_digits].
    change (digit_val 10 (Z.of_nat (nat_of_ascii "1"))) with (Some 1).
    cbv iota. change (0 * 10 + 1) with 1.
    rewrite take_digits_uint_acc by exact Htail. f_equal. f_equal. lia.
  - rewrite lit_String. cbn [app take_digits].
    change (digit_val 10 (Z.of_nat (nat_of_ascii "2"))) with (Some 2).
    cbv iota. change (0 * 10 + 2) with 2.
    rewrite take_digits_uint_acc by exact Htail. f_equal. f_equal. lia.
  - rewrite lit_String. cbn [app take_digits].
    change (digit_val 10 (Z.of_nat (nat_of_ascii "3"))) with (Some 3).
    cbv iota. change (0 * 10 + 3) with 3.
    rewrite take_digits_uint_acc by exact Htail. f_equal. f_equal. lia.
  - rewrite lit_String. cbn [app take_digits].
    change (digit_val 10 (Z.of_nat (nat_of_ascii "4"))) with (Some 4).
    cbv iota. change (0 * 10 + 4) with 4.
    rewrite take_digits_uint_acc by exact Htail. f_equal. f_equal. lia.
  - rewrite lit_String. cbn [app take_digits].
    change (digit_val 10 (Z.of_nat (nat_of_ascii "5"))) with (Some 5).
    cbv iota. change (0 * 10 + 5) with 5.
    rewrite take_digits_uint_acc by exact Htail. f_equal. f_equal. lia.
  - rewrite lit_String. cbn [app take_digits].
    change (digit_val 10 (Z.of_nat (nat_of_ascii "6"))) with (Some 6).
    cbv iota. change (0 * 10 + 6) with 6.
    rewrite take_digits_uint_acc by exact Htail. f_equal. f_equal. lia.
  - rewrite lit_String. cbn [app take_digits].
    change (digit_val 10 (Z.of_nat (nat_of_ascii "7"))) with (Some 7).
    cbv iota. change (0 * 10 + 7) with 7.
    rewrite take_digits_uint_acc by exact Htail. f_equal. f_equal. lia.
  - rewrite lit_String. cbn [app take_digits].
    change (digit_val 10 (Z.of_nat (nat_of_ascii "8"))) with (Some 8).
    cbv iota. change (0 * 10 + 8) with 8.
    rewrite take_digits_uint_acc by exact Htail. f_equal. f_equal. lia.
  - rewrite lit_String. cbn [app take_digits].
    change (digit_val 10 (Z.of_nat (nat_of_ascii "9"))) with (Some 9).
    cbv iota. change (0 * 10 + 9) with 9.
    rewrite take_digits_uint_acc by exact Htail. f_equal. f_equal. lia.
Qed.

Lemma nb_digits_pos (u : Decimal.uint) :
  u <> Decimal.Nil -> (0 < Decimal.nb_digits u)%nat.
Proof. destruct u; simpl; intros H; try lia. contradiction. Qed.

(** The numeral of a positive integer starts with a decimal digit. *)
Lemma dec_pos_shape (p : positive) :
  exists c rest,
    dec (Zpos p) = c :: rest
    /\ dec (Zpos p) = lit (NilEmpty.string_of_uint (Pos.to_uint p))
    /\ 48 <= c <= 57.
Proof.
  unfold dec. cbn [Z.to_int NilZero.string_of_int].
  assert (Hnn := DecimalPos.Unsigned.to_uint_nonnil p).
  unfold NilZero.string_of_uint.
  destruct (Pos.to_uint p) eqn:E; [contradiction| | | | | | | | | |];
    cbn [NilEmpty.string_of_uint]; rewrite lit_String;
    eexists; eexists; (split; [reflexivity|split; [reflexivity|]]);
    vm_compute; split; discriminate.
Qed.

(** [parseInt] reads back what [dec] prints, also when other text follows
    the numeral. *)
Lemma parseInt_dec (n : Z) (tail : jsstring) :
  0 <= n -> ends_numeral tail ->
  parseInt (dec n ++ tail) 10 = num_of_Z n.
Proof.
  intros Hn Htail. destruct n as [|p|p]; [| |lia].
  - change (dec 0) with [48]. unfold parseInt.
    cbn [app trim_left]. change (is_StrWhiteSpaceChar 48) with false.
    cbv iota. cbn [strip_sign]. change (10 =? 16) with false. cbv iota.
    cbn [take_digits]. change (digit_val 10 48) with (Some 0). cbv iota.
    rewrite take_digits_stop by exact Htail. reflexivity.
  - destruct (dec_pos_shape p) as (c & rest & Hshape & Hdec & Hc).
    unfold parseInt.
    assert (Htrim : trim_left (dec (Zpos p) ++ tail) = dec (Zpos p) ++ tail).
    { rewrite Hshape. cbn [app trim_left].
      assert (Hws : is_StrWhiteSpaceChar c = false).
      { unfold is_StrWhiteSpaceChar. cbn [existsb].
        repeat match goal with
               | |- context [Z.eqb c ?k] =>
                   replace (Z.eqb c k) with false by (symmetry; apply Z.eqb_neq; lia)
               end.
        replace (8192 <=? c) with false by (symmetry; apply Z.leb_gt; lia).
        reflexivity. }
      rewrite Hws. reflexivity. }
    rewrite Htrim.
    assert (Hsign : strip_sign (dec (Zpos p) ++ tail)
                    = (false, dec (Zpos p) ++ tail)).
    { rewrite Hshape. cbn [app]. unfold strip_sign.
      destruct c as [|c|c]; try lia.
      do 6 (destruct c as [c|c|]; try lia; try reflexivity). }
    rewrite Hsign. change (10 =? 16) with false. cbv iota.
    rewrite Hdec, take_digits_uint by exact Htail.
    rewrite DecimalPos.Unsigned.of_to.
    assert (Hcnt := nb_digits_pos _ (DecimalPos.Unsigned.to_uint_nonnil p)).
    replace (0 + Z.of_nat (Decimal.nb_digits (Pos.to_uint p)) =? 0) with false
      by (symmetry; apply Z.eqb_neq; lia).
    reflexivity.
Qed.

(** *** Integers that numbers hold exactly *)

Lemma iter_xO (k p : positive) :
  Zpos (Pos.iter xO p k) = Zpos p * 2 ^ Zpos k
  /\ digits2_pos (Pos.iter xO p k) = (digits2_pos p + k)%positive.
Proof.
  induction k as [|k IH] using Pos.peano_ind.
  - cbn [Pos.iter digits2_pos]. split; [lia|lia].
  - rewrite Pos.iter_succ. destruct IH as [IHv IHd]. cbn [digits2_pos].
    rewrite IHd. split; [|lia].
    rewrite Pos2Z.inj_xO, IHv, Pos2Z.inj_succ, Z.pow_succ_r by lia. lia.
Qed.

(** A mantissa of exactly 53 bits is not rounded. *)
Lemma binary_round_aux_exact (m : positive) (e : Z) :
  digits2_pos m = 53%positive -> -1074 <= e <= 971 ->
  binary_round_aux prec emax false (Zpos m) e loc_Exact
  = S754_finite false m e.
Proof.
  intros Hd He.
  assert (Hshift : fexp prec emax (Zdigits2 (Zpos m) + e) - e = 0).
  { cbn [Zdigits2]. rewrite Hd. unfold fexp, emin, prec, emax. lia. }
  assert (Hshr : shr_fexp prec emax (Zpos m) e loc_Exact
                 = (Build_shr_record (Zpos m) false false, e)).
  { unfold shr_fexp. rewrite Hshift. reflexivity. }
  unfold binary_round_aux. rewrite Hshr.
  cbn [shr_m loc_of_shr_record round_nearest_even]. rewrite Hshr.
  cbn [shr_m]. unfold emax, prec.
  replace (e <=? 1024 - 53) with true by (symmetry; apply Z.leb_le; lia).
  reflexivity.
Qed.

(** An integer below 2^53 converts to a number without rounding. *)
Lemma num_of_Z_exact (n : Z) : 0 <= n < 2 ^ 53 -> is_integer (num_of_Z n) n.
Proof.
  intros Hn. destruct n as [|p|p]; [reflexivity| |lia].
  assert (Hb := digits2_pos_bounds p).
  assert (Hd : Zpos (digits2_pos p) <= 53).
  { destruct (Z_le_gt_dec (Zpos (digits2_pos p)) 53) as [H|H]; [exact H|].
    exfalso.
    assert (2 ^ 53 <= 2 ^ (Zpos (digits2_pos p) - 1))
      by (apply Z.pow_le_mono_r; lia).
    lia. }
  unfold num_of_Z, binary_normalize, binary_round, shl_align.
  assert (Hf : fexp prec emax (Zpos (digits2_pos p) + 0) - 0
               = Zpos (digits2_pos p) - 53).
  { unfold fexp, emin, prec, emax. lia. }
  rewrite Hf. clear Hf.
  destruct (Zpos (digits2_pos p) - 53) as [|k|k] eqn:Ek; [|lia|].
  - assert (Hfe : fexp prec emax (Zpos (digits2_pos p) + 0) = 0).
    { unfold fexp, emin, prec, emax. lia. }
    rewrite binary_round_aux_exact;
      [cbn [is_integer]; change (0 <=? 0) with true; cbv iota;
       rewrite Z.pow_0_r; lia| |lia].
    apply Pos2Z.inj. lia.
  - assert (Hfe : fexp prec emax (Zpos (digits2_pos p) + 0) = Zneg k).
    { unfold fexp, emin, prec, emax. lia. }
    rewrite Hfe. destruct (iter_xO k p) as [Hv Hdig].
    rewrite binary_round_aux_exact.
    + cbn [is_integer]. change (0 <=? Zneg k) with false. cbv iota.
      rewrite Hv. cbn [Z.opp]. reflexivity.
    + rewrite Hdig. apply Pos2Z.inj. rewrite Pos2Z.inj_add. lia.
    + lia.
Qed.

Lemma fetchCount_decimal_body (h : Host) (url : jsstring) (n : Z)
  (tail : jsstring) :
  0 <= n -> ends_numeral tail ->
  fetch h url = Response true (BodyText (dec n ++ tail)) ->
  fetchCount h url = num_of_Z n.
Proof.
  intros Hn Htail Hfetch.
  unfold fetchCount. rewrite Hfetch. cbn [negb].
  destruct (dec n ++ tail) as [|c text] eqn:E.
  - destruct n as [|p|p]; [discriminate| |lia].
    destruct (dec_pos_shape p) as (c & rest & Hshape & _).
    rewrite Hshape in E. discriminate.
  - rewrite <- E, parseInt_dec by (try exact Htail; lia).
    unfold num_or. destruct n as [|p|p]; [reflexivity| |lia].
    destruct (strict_sign_truthy _ _ (num_of_Z_pos (Zpos p) eq_refl)) as [Ht _].
    rewrite Ht. reflexivity.
Qed.

(** X8.  A count is read back exactly.  When the server answers with the
    decimal numeral of an integer [n] with [0 <= n < 2^53], possibly
    followed by text that does not start with a digit (a line break, say),
    [fetchCount] returns the number that is exactly [n]. *)
Theorem fetchCount_reads_decimal (h : Host) (url : jsstring) (n : Z)
  (tail : jsstring)
  (Hn : 0 <= n < 2 ^ 53)
  (Htail : ends_numeral tail)
  (Hfetch : fetch h url = Response true (BodyText (dec n ++ tail))) :
  fetchCount h url = num_of_Z n /\ is_integer (fetchCount h url) n.
Proof.
  assert (Hread : fetchCount h url = num_of_Z n).
  { apply (fetchCount_decimal_body h url n tail); [lia|exact Htail|exact Hfetch]. }
  split; [exact Hread|]. rewrite Hread. apply num_of_Z_exact. exact Hn.
Qed.

Lemma fetchCount_reads_decimal_witness :
  fetchCount (answering_host (lit "48213
")) [] = S754_finite false 6626344263745536 (-37)
  /\ is_integer (fetchCount (answering_host (lit "48213
")) []) 48213.
Proof.
  split; [vm_compute; reflexivity|].
  apply (fetchCount_reads_decimal _ _ 48213 [10]).
  - change (2 ^ 53) with 9007199254740992. lia.
  - vm_compute. reflexivity.
  - vm_compute. reflexivity.
Defined.

(** Above 2^53 the nearest number is returned: 9007199254740993 reads as
    9007199254740992. *)
Example fetchCount_beyond_53_bits :
  fetchCount (answering_host (lit "9007199254740993")) []
  = num_of_Z 9007199254740992
  /\ Number_toString (fetchCount (answering_host (lit "9007199254740993")) [])
     = lit "9007199254740992".
Proof. split; vm_compute; reflexivity. Qed.

(** ** The decoder round trip *)

Lemma holds_on_spec (depth : nat) (f : Z -> bool) :
  forall lo, holds_on depth f lo = true ->
  forall x, lo <= x < lo + 2 ^ Z.of_nat depth -> f x = true.
Proof.
  induction depth as [|d IH]; intros lo H x Hx.
  - simpl in *. replace x with lo by lia. exact H.
  - cbn [holds_on] in H. apply andb_prop in H. destruct H as [H1 H2].
    rewrite Nat2Z.inj_succ, Z.pow_succ_r in Hx by lia.
    destruct (Z_lt_le_dec x (lo + 2 ^ Z.of_nat d)) as [Hlt|Hge].
    + apply (IH lo H1). lia.
    + apply (IH _ H2). lia.
Qed.

(** Checked on each of the 256 bytes, in both cases. *)
Lemma hex_byte_back_all (upper : bool) (b : Z) :
  0 <= b < 256 -> ToUint8 (parseInt (hex_of_byte upper b) 16) = b.
Proof.
  intros Hb. apply Z.eqb_eq.
  apply (holds_on_spec 8 (hex_byte_back upper) 0); [|simpl; lia].
  destruct upper; vm_compute; reflexivity.
Qed.

Ltac zdiv := Z.div_mod_to_equations; lia.

Lemma land_ones_low (b n : Z) : 0 <= n -> Z.land b (Z.ones n) = b mod 2 ^ n.
Proof. intros Hn. apply Z.land_ones. exact Hn. Qed.

Lemma lor_shiftl_add (c r : Z) :
  0 <= r < 64 -> Z.lor (Z.shiftl c 6) r = c * 64 + r.
Proof.
  intros Hr.
  assert (Hdisj : Z.land (Z.shiftl c 6) r = 0).
  { apply Z.bits_inj'. intros i Hi.
    rewrite Z.land_spec, Z.bits_0.
    destruct (Z_lt_le_dec i 6) as [Hlt|Hge].
    - rewrite Z.shiftl_spec_low by lia. reflexivity.
    - assert (Hbit : Z.testbit r i = false).
      { destruct (Z.eq_dec r 0) as [->|Hnz]; [apply Z.bits_0|].
        apply Z.bits_above_log2; [lia|].
        apply Z.log2_lt_pow2; [lia|].
        apply Z.lt_le_trans with (2 ^ 6); [simpl; lia|].
        apply Z.pow_le_mono_r; lia. }
      rewrite Hbit. apply andb_false_r. }
  rewrite <- Z.lxor_lor by exact Hdisj.
  rewrite <- Z.add_nocarry_lxor by exact Hdisj.
  rewrite Z.shiftl_mul_pow2 by lia. reflexivity.
Qed.

Lemma utf8_run_cons (st st' : utf8_state) (b : Z) (out : jsstring)
  (rest : list Z) :
  utf8_step st b = (st', out) ->
  utf8_run st (b :: rest) = out ++ utf8_run st' rest.
Proof. intros H. cbn [utf8_run]. rewrite H. reflexivity. Qed.

Lemma leb_true (a b : Z) : a <= b -> (a <=? b) = true.
Proof. apply Z.leb_le. Qed.

Lemma leb_false (a b : Z) : b < a -> (a <=? b) = false.
Proof. apply Z.leb_gt. Qed.

Lemma ltb_true (a b : Z) : a < b -> (a <? b) = true.
Proof. apply Z.ltb_lt. Qed.

Lemma ltb_false (a b : Z) : b <= a -> (a <? b) = false.
Proof. apply Z.ltb_ge. Qed.

Lemma eqb_false (a b : Z) : a <> b -> (a =? b) = false.
Proof. apply Z.eqb_neq. Qed.

(** A byte below 128 stands for itself. *)
Lemma utf8_step_ascii (b : Z) :
  b <= 127 -> utf8_step utf8_start b = (utf8_start, [b]).
Proof.
  intros Hb. unfold utf8_step, utf8_lead. cbn [bytes_needed utf8_start].
  change (0 =? 0) with true. cbv iota. rewrite leb_true by lia. reflexivity.
Qed.

(** The lead byte of a two-byte sequence. *)
Lemma utf8_step_lead2 (q : Z) :
  2 <= q < 32 ->
  utf8_step utf8_start (192 + q)
  = ({| code_point := q; bytes_needed := 1;
        lower_boundary := 128; upper_boundary := 191 |}, []).
Proof.
  intros Hq. unfold utf8_step, utf8_lead. cbn [bytes_needed utf8_start].
  change (0 =? 0) with true. cbv iota.
  rewrite leb_false by lia.
  rewrite (leb_true 194), (leb_true _ 223) by lia. cbn [andb].
  change 31 with (Z.ones 5). rewrite land_ones_low by lia.
  replace ((192 + q) mod 2 ^ 5) with q by (change (2 ^ 5) with 32; zdiv).
  reflexivity.
Qed.

(** The lead byte of a three-byte sequence. *)
Lemma utf8_step_lead3 (q : Z) :
  0 <= q < 16 ->
  utf8_step utf8_start (224 + q)
  = ({| code_point := q; bytes_needed := 2;
        lower_boundary := if q =? 0 then 160 else 128;
        upper_boundary := if q =? 13 then 159 else 191 |}, []).
Proof.
  intros Hq. unfold utf8_step, utf8_lead. cbn [bytes_needed utf8_start].
  change (0 =? 0) with true. cbv iota.
  rewrite leb_false by lia.
  rewrite (leb_true 194), (leb_false _ 223) by lia. cbn [andb].
  rewrite (leb_true 224), (leb_true _ 239) by lia. cbn [andb].
  change 15 with (Z.ones 4). rewrite land_ones_low by lia.
  replace ((224 + q) mod 2 ^ 4) with q by (change (2 ^ 4) with 16; zdiv).
  replace (224 + q =? 224) with (q =? 0)
    by (destruct (Z.eqb_spec (q) (0)), (Z.eqb_spec (224 + q) (224)); try reflexivity; lia).
  replace (224 + q =? 237) with (q =? 13)
    by (destruct (Z.eqb_spec (q) (13)), (Z.eqb_spec (224 + q) (237)); try reflexivity; lia).
  reflexivity.
Qed.

(** The lead byte of a four-byte sequence. *)
Lemma utf8_step_lead4 (q : Z) :
  0 <= q <= 4 ->
  utf8_step utf8_start (240 + q)
  = ({| code_point := q; bytes_needed := 3;
        lower_boundary := if q =? 0 then 144 else 128;
        upper_boundary := if q =? 4 then 143 else 191 |}, []).
Proof.
  intros Hq. unfold utf8_step, utf8_lead. cbn [bytes_needed utf8_start].
  change (0 =? 0) with true. cbv iota.
  rewrite leb_false by lia.
  rewrite (leb_true 194), (leb_false _ 223) by lia. cbn [andb].
  rewrite (leb_true 224), (leb_false _ 239) by lia. cbn [andb].
  rewrite (leb_true 240), (leb_true _ 244) by lia. cbn [andb].
  change 7 with (Z.ones 3). rewrite land_ones_low by lia.
  replace ((240 + q) mod 2 ^ 3) with q by (change (2 ^ 3) with 8; zdiv).
  replace (240 + q =? 240) with (q =? 0)
    by (destruct (Z.eqb_spec (q) (0)), (Z.eqb_spec (240 + q) (240)); try reflexivity; lia).
  replace (240 + q =? 244) with (q =? 4)
    by (destruct (Z.eqb_spec (q) (4)), (Z.eqb_spec (240 + q) (244)); try reflexivity; lia).
  reflexivity.
Qed.

(** A continuation byte within the bounds of the open sequence, when more
    bytes are needed after it. *)
Lemma utf8_step_more (cp n lo hi r : Z) :
  2 <= n -> 0 <= r < 64 -> lo <= 128 + r <= hi ->
  utf8_step {| code_point := cp; bytes_needed := n;
               lower_boundary := lo; upper_boundary := hi |} (128 + r)
  = ({| code_point := cp * 64 + r; bytes_needed := n - 1;
        lower_boundary := 128; upper_boundary := 191 |}, []).
Proof.
  intros Hn Hr Hb. unfold utf8_step.
  cbn [bytes_needed lower_boundary upper_boundary code_point].
  rewrite (eqb_false n 0), (eqb_false n 1) by lia.
  rewrite (ltb_false (128 + r) lo), (ltb_false hi) by lia. cbn [orb].
  change 63 with (Z.ones 6). rewrite land_ones_low by lia.
  replace ((128 + r) mod 2 ^ 6) with r by (change (2 ^ 6) with 64; zdiv).
  rewrite lor_shiftl_add by lia. reflexivity.
Qed.

(** The last continuation byte of a sequence. *)
Lemma utf8_step_last (cp lo hi r : Z) :
  0 <= r < 64 -> lo <= 128 + r <= hi ->
  utf8_step {| code_point := cp; bytes_needed := 1;
               lower_boundary := lo; upper_boundary := hi |} (128 + r)
  = (utf8_start, utf16 (cp * 64 + r)).
Proof.
  intros Hr Hb. unfold utf8_step.
  cbn [bytes_needed lower_boundary upper_boundary code_point].
  change (1 =? 0) with false. change (1 =? 1) with true. cbv iota.
  rewrite (ltb_false (128 + r) lo), (ltb_false hi) by lia. cbn [orb].
  change 63 with (Z.ones 6). rewrite land_ones_low by lia.
  replace ((128 + r) mod 2 ^ 6) with r by (change (2 ^ 6) with 64; zdiv).
  rewrite lor_shiftl_add by lia. reflexivity.
Qed.

(** The decoder reads the UTF-8 bytes of a scalar value back as its UTF-16
    code units, and is then ready for the next sequence. *)
Lemma utf8_run_encode (cp : Z) (rest : list Z) :
  scalar_value cp = true ->
  utf8_run utf8_start (utf8_encode cp ++ rest)
  = utf16 cp ++ utf8_run utf8_start rest.
Proof.
  intros Hs.
  assert (Hcp : 0 <= cp < 55296 \/ 57344 <= cp < 1114112).
  { unfold scalar_value in Hs. lia. }
  clear Hs. unfold utf8_encode.
  destruct (Z.ltb_spec cp 128) as [H1|H1].
  { cbn [app]. rewrite (utf8_run_cons _ _ _ _ _ (utf8_step_ascii cp ltac:(lia))).
    unfold utf16. rewrite ltb_true by lia. reflexivity. }
  destruct (Z.ltb_spec cp 2048) as [H2|H2].
  { cbn [app].
    rewrite (utf8_run_cons _ _ _ _ _ (utf8_step_lead2 (cp / 64) ltac:(zdiv))).
    cbn [app].
    erewrite utf8_run_cons; [|apply utf8_step_last; zdiv].
    replace (cp / 64 * 64 + cp mod 64) with cp by zdiv. reflexivity. }
  destruct (Z.ltb_spec cp 65536) as [H3|H3].
  { cbn [app].
    rewrite (utf8_run_cons _ _ _ _ _ (utf8_step_lead3 (cp / 4096) ltac:(zdiv))).
    cbn [app].
    erewrite utf8_run_cons;
      [|apply utf8_step_more;
        [lia|zdiv|
         destruct (Z.eqb_spec (cp / 4096) 0); destruct (Z.eqb_spec (cp / 4096) 13);
         zdiv]].
    change (2 - 1) with 1. cbn [app].
    erewrite utf8_run_cons; [|apply utf8_step_last; zdiv].
    replace (((cp / 4096) * 64 + (cp / 64) mod 64) * 64 + cp mod 64) with cp
      by zdiv.
    reflexivity. }
  cbn [app].
  rewrite (utf8_run_cons _ _ _ _ _ (utf8_step_lead4 (cp / 262144) ltac:(zdiv))).
  cbn [app].
  erewrite utf8_run_cons;
    [|apply utf8_step_more;
      [lia|zdiv|
       destruct (Z.eqb_spec (cp / 262144) 0);
       destruct (Z.eqb_spec (cp / 262144) 4); zdiv]].
  change (3 - 1) with 2. cbn [app].
  erewrite utf8_run_cons; [|apply utf8_step_more; [lia|zdiv|zdiv]].
  change (2 - 1) with 1. cbn [app].
  erewrite utf8_run_cons; [|apply utf8_step_last; zdiv].
  replace ((((cp / 262144) * 64 + (cp / 4096) mod 64) * 64
            + (cp / 64) mod 64) * 64 + cp mod 64) with cp by zdiv.
  reflexivity.
Qed.

Lemma utf8_run_encode_all (cps : list Z) :
  forallb scalar_value cps = true ->
  utf8_run utf8_start (flat_map utf8_encode cps) = flat_map utf16 cps.
Proof.
  induction cps as [|cp cps IH]; intros H; [reflexivity|].
  cbn [forallb] in H. apply andb_prop in H. destruct H as [Hcp Hcps].
  cbn [flat_map]. rewrite utf8_run_encode by exact Hcp.
  rewrite IH by exact Hcps. reflexivity.
Qed.

Lemma utf8_encode_bytes (cp : Z) :
  scalar_value cp = true -> Forall (fun b => 0 <= b < 256) (utf8_encode cp).
Proof.
  intros Hs.
  assert (Hcp : 0 <= cp < 1114112) by (unfold scalar_value in Hs; lia).
  unfold utf8_encode.
  destruct (Z.ltb_spec cp 128); [repeat constructor; lia|].
  destruct (Z.ltb_spec cp 2048); [repeat constructor; zdiv|].
  destruct (Z.ltb_spec cp 65536); repeat constructor; zdiv.
Qed.

Lemma utf8_encode_all_bytes (cps : list Z) :
  forallb scalar_value cps = true ->
  Forall (fun b => 0 <= b < 256) (flat_map utf8_encode cps).
Proof.
  induction cps as [|cp cps IH]; intros H; [constructor|].
  cbn [forallb] in H. apply andb_prop in H. destruct H as [Hcp Hcps].
  cbn [flat_map]. apply Forall_app. split; [apply utf8_encode_bytes|]; auto.
Qed.

Lemma cons_eq_inv {A : Type} (a b : A) (l l' : list A) :
  a :: l = b :: l' -> a = b /\ l = l'.
Proof. intros H. injection H. auto. Qed.

Ltac heads H :=
  repeat (apply cons_eq_inv in H;
          let E := fresh "E" in destruct H as [E H]).

(** Only U+FEFF is encoded with the bytes of the byte-order mark. *)
Lemma utf8_encode_not_bom (cps : list Z) (rest : list Z) :
  forallb scalar_value cps = true ->
  hd 0 cps <> 65279 ->
  flat_map utf8_encode cps <> 239 :: 187 :: 191 :: rest.
Proof.
  destruct cps as [|cp cps]; [discriminate|].
  cbn [forallb hd flat_map]. intros H Hbom.
  apply andb_prop in H. destruct H as [Hs _].
  assert (Hcp : 0 <= cp < 1114112) by (unfold scalar_value in Hs; lia).
  clear Hs. generalize (flat_map utf8_encode cps). intros tail.
  unfold utf8_encode.
  destruct (Z.ltb_spec cp 128); [cbn [app]; intros Heq; heads Heq; lia|].
  destruct (Z.ltb_spec cp 2048);
    [cbn [app]; intros Heq; heads Heq; zdiv|].
  destruct (Z.ltb_spec cp 65536);
    cbn [app]; intros Heq; heads Heq; zdiv.
Qed.

Ltac split_byte b :=
  let p := fresh "p" in
  destruct b as [|p|p]; try reflexivity;
  repeat (destruct p as [p|p|]; try reflexivity).

Lemma decode_without_bom (bytes : list Z) :
  (forall rest, bytes <> 239 :: 187 :: 191 :: rest) ->
  TextDecoder_decode bytes = utf8_run utf8_start bytes.
Proof.
  intros H. unfold TextDecoder_decode.
  destruct bytes as [|b0 bytes]; [reflexivity|]. split_byte b0.
  destruct bytes as [|b1 bytes]; [reflexivity|]. split_byte b1.
  destruct bytes as [|b2 bytes]; [reflexivity|]. split_byte b2.
  exfalso. apply (H bytes). reflexivity.
Qed.

Lemma hex_digit_range (upper : bool) (v : Z) :
  0 <= v < 16 -> 48 <= hex_digit upper v <= 102.
Proof.
  intros Hv. unfold hex_digit.
  destruct (Z.ltb_spec v 10); destruct upper; lia.
Qed.

Lemma not_LineTerminator (c : Z) : 48 <= c <= 102 -> is_LineTerminator c = false.
Proof.
  intros Hc. unfold is_LineTerminator. cbn [existsb].
  rewrite !eqb_false by lia. reflexivity.
Qed.

(** The pattern cuts the hex string of a byte sequence into the digit pairs
    of the bytes. *)
Lemma match_pairs_to_hex (upper : bool) (bytes : list Z) :
  Forall (fun b => 0 <= b < 256) bytes ->
  match_pairs (to_hex upper bytes) = map (hex_of_byte upper) bytes.
Proof.
  induction 1 as [|b bytes Hb _ IH]; [reflexivity|].
  unfold to_hex in *. cbn [flat_map map]. unfold hex_of_byte at 1.
  cbn [app match_pairs].
  rewrite !not_LineTerminator by (apply hex_digit_range; zdiv).
  rewrite IH. reflexivity.
Qed.

Lemma hexToUtf8_bytes (s : jsstring) :
  hexToUtf8 (VStr s)
  = VStr (TextDecoder_decode
            (map (fun pair => ToUint8 (parseInt pair 16)) (match_pairs s))).
Proof.
  unfold hexToUtf8, call_match, String_match_pairs. cbn [bind try_catch].
  destruct (match_pairs s) as [|g gs]; [reflexivity|].
  cbn [bind try_catch]. rewrite map_map. reflexivity.
Qed.

(** X9.  [hexToUtf8] undoes hex-over-UTF-8.  For every sequence of Unicode
    scalar values that does not start with U+FEFF, the hex string (in either
    case) of its UTF-8 encoding decodes to the string of those characters.
    (A leading U+FEFF is taken for a byte-order mark and dropped.) *)
Theorem hexToUtf8_round_trip (upper : bool) (cps : list Z)
  (Hscalar : forallb scalar_value cps = true)
  (Hbom : hd 0 cps <> 65279) :
  hexToUtf8 (VStr (to_hex upper (flat_map utf8_encode cps)))
  = VStr (flat_map utf16 cps).
Proof.
  assert (Hbytes := utf8_encode_all_bytes cps Hscalar).
  rewrite hexToUtf8_bytes, match_pairs_to_hex by exact Hbytes.
  rewrite map_map.
  assert (Hback : map (fun b => ToUint8 (parseInt (hex_of_byte upper b) 16))
                      (flat_map utf8_encode cps)
                  = flat_map utf8_encode cps).
  { induction Hbytes as [|b l Hb _ IH]; [reflexivity|].
    cbn [map]. rewrite hex_byte_back_all by exact Hb. rewrite IH.
    reflexivity. }
  rewrite Hback, decode_without_bom.
  - rewrite utf8_run_encode_all by exact Hscalar. reflexivity.
  - intros rest. apply utf8_encode_not_bom; assumption.
Qed.

Lemma hexToUtf8_round_trip_witness :
  to_hex false (flat_map utf8_encode [116; 233; 8364; 128512])
  = lit "74c3a9e282acf09f9880"
  /\ hexToUtf8 (VStr (lit "74c3a9e282acf09f9880"))
     = VStr [116; 233; 8364; 55357; 56832].
Proof.
  split; [vm_compute; reflexivity|].
  apply (hexToUtf8_round_trip false [116; 233; 8364; 128512]).
  - vm_compute. reflexivity.
  - simpl. lia.
Defined.

(** A leading U+FEFF does not survive the round trip. *)
Example hexToUtf8_drops_byte_order_mark :
  hexToUtf8 (VStr (to_hex false (flat_map utf8_encode [65279; 97])))
  = VStr [97].
Proof. vm_compute. reflexivity. Qed.

(** ** The calendar *)

(** [YearFromTime] finds the year whose days contain the day of [t]. *)
Lemma YearFromTime_spec (t : Z) :
  DayFromYear (YearFromTime t) <= Day t < DayFromYear (YearFromTime t + 1).
Proof.
  unfold YearFromTime. set (d := Day t).
  set (y := 1970 + d * 400 / 146097).
  destruct (Z.ltb_spec d (DayFromYear y)) as [E1|E1].
  - unfold DayFromYear in *. subst y. zdiv.
  - destruct (Z.leb_spec (DayFromYear (y + 1)) d) as [E2|E2]; [|lia].
    unfold DayFromYear in *. subst y. zdiv.
Qed.

Lemma DaysInYear (y : Z) :
  DayFromYear (y + 1) - DayFromYear y
  = 365 + (if InLeapYear_of y then 1 else 0).
Proof.
  unfold DayFromYear, InLeapYear_of.
  destruct (Z.eqb_spec (y mod 4) 0); destruct (Z.eqb_spec (y mod 100) 0);
    destruct (Z.eqb_spec (y mod 400) 0); cbn [andb orb negb]; zdiv.
Qed.

Lemma DayWithinYear_range (t : Z) :
  0 <= DayWithinYear t
  < 365 + (if InLeapYear_of (YearFromTime t) then 1 else 0).
Proof.
  unfold DayWithinYear. rewrite <- DaysInYear.
  assert (H := YearFromTime_spec t). lia.
Qed.

Lemma YearFromTime_four_digits (t : Z) :
  0 <= t <= 253402300799999 -> 1970 <= YearFromTime t <= 9999.
Proof.
  intros Ht. assert (Hs := YearFromTime_spec t).
  assert (Hd : 0 <= Day t <= 2932896) by (unfold Day, msPerDay; zdiv).
  revert Hs. generalize (YearFromTime t). intros y Hs.
  unfold DayFromYear in Hs. zdiv.
Qed.

Lemma MonthFromTime_range (t : Z) : 0 <= MonthFromTime t <= 11.
Proof.
  unfold MonthFromTime.
  match goal with
  | |- context [filter ?f ?l] =>
      assert (H : (List.length (filter f l) <= List.length l)%nat)
        by apply filter_length_le
  end.
  cbn [List.length] in H. lia.
Qed.

(** Checked on each day of a common year and of a leap year. *)
Lemma DateFromTime_range (t : Z) : 1 <= DateFromTime t <= 31.
Proof.
  assert (Hd := DayWithinYear_range t).
  assert (Hr : 0 <= DayWithinYear t < 0 + 2 ^ Z.of_nat 9).
  { change (2 ^ Z.of_nat 9) with 512.
    destruct (InLeapYear_of (YearFromTime t)); lia. }
  assert (H := holds_on_spec 9
                 (date_in_month (InLeapYear_of (YearFromTime t))) 0).
  unfold DateFromTime, MonthFromTime.
  destruct (InLeapYear_of (YearFromTime t));
    specialize (H ltac:(vm_compute; reflexivity) _ Hr);
    unfold date_in_month in H; cbv zeta in H;
    apply orb_prop in H; (destruct H as [H|H]; [apply Z.leb_le in H; lia|]);
    apply andb_prop in H; destruct H as [H H3];
    apply andb_prop in H; destruct H as [H1 H2];
    apply Z.leb_le in H1, H2, H3; lia.
Qed.

(** The day of a time value, from its calendar date. *)
Lemma Day_from_date (t : Z) :
  Day t = MakeDay (YearFromTime t) (MonthFromTime t) (DateFromTime t).
Proof.
  assert (Hm := MonthFromTime_range t).
  unfold MakeDay.
  replace (MonthFromTime t / 12) with 0 by zdiv.
  replace (MonthFromTime t mod 12) with (MonthFromTime t) by zdiv.
  rewrite Z.add_0_r. unfold DateFromTime, DayWithinYear. lia.
Qed.

(** Setting the day of the month [i] days back moves the local time back by
    [i] whole days. *)
Lemma MakeDay_days_back (t i : Z) :
  MakeDate (MakeDay (YearFromTime t) (MonthFromTime t) (DateFromTime t - i))
           (TimeWithinDay t)
  = t - i * msPerDay.
Proof.
  assert (H : MakeDay (YearFromTime t) (MonthFromTime t) (DateFromTime t - i)
              = Day t - i).
  { rewrite (Day_from_date t). unfold MakeDay. lia. }
  rewrite H. unfold MakeDate, Day, TimeWithinDay, msPerDay. zdiv.
Qed.

Lemma LocalTime_fixed (h : Host) (offset t : Z) :
  fixed_offset h offset -> LocalTime h t = t + offset.
Proof. intros Hzone. unfold LocalTime. rewrite (Hzone t true). reflexivity. Qed.

Lemma UTC_fixed (h : Host) (offset t : Z) :
  fixed_offset h offset -> UTC h t = t - offset.
Proof. intros Hzone. unfold UTC. rewrite (Hzone t false). reflexivity. Qed.

(** With a fixed offset, [d.setDate(d.getDate() - i)] is [i] days earlier,
    to the millisecond. *)
Lemma setDate_days_back (h : Host) (offset : Z) (i : nat) :
  fixed_offset h offset ->
  Z.abs (days_ago h i) <= 8640000000000000 ->
  setDate h (Some (Date_now h))
          (option_map (fun x => x - Z.of_nat i) (getDate h (Some (Date_now h))))
  = Some (days_ago h i).
Proof.
  intros Hzone Hclip. unfold getDate, setDate. cbn [option_map].
  rewrite (LocalTime_fixed h offset) by exact Hzone.
  rewrite MakeDay_days_back.
  rewrite (UTC_fixed h offset) by exact Hzone.
  unfold TimeClip, days_ago in *.
  replace (Date_now h + offset - Z.of_nat i * msPerDay - offset)
    with (Date_now h - Z.of_nat i * msPerDay) by lia.
  rewrite leb_true by exact Hclip. reflexivity.
Qed.

(** *** Date keys *)

(** Checked on each year from 0 to 9999. *)
Lemma pad_4_length (z : Z) : 0 <= z <= 9999 -> List.length (pad 4 z) = 4%nat.
Proof.
  intros Hz.
  assert (H := holds_on_spec 14 (pad_fits 4) 0 ltac:(vm_compute; reflexivity)
                 z ltac:(change (2 ^ Z.of_nat 14) with 16384; lia)).
  unfold pad_fits in H. apply orb_prop in H. destruct H as [H|H].
  - apply Z.leb_le in H. change (10 ^ Z.of_nat 4) with 10000 in H. lia.
  - apply Nat.eqb_eq in H. exact H.
Qed.

(** Checked on each month and day number. *)
Lemma pad_2_length (z : Z) : 0 <= z <= 99 -> List.length (pad 2 z) = 2%nat.
Proof.
  intros Hz.
  assert (H := holds_on_spec 7 (pad_fits 2) 0 ltac:(vm_compute; reflexivity)
                 z ltac:(change (2 ^ Z.of_nat 7) with 128; lia)).
  unfold pad_fits in H. apply orb_prop in H. destruct H as [H|H].
  - apply Z.leb_le in H. change (10 ^ Z.of_nat 2) with 100 in H. lia.
  - apply Nat.eqb_eq in H. exact H.
Qed.

Lemma triple_eq_inv {A B C : Type} (a a' : A) (b b' : B) (c c' : C) :
  (a, b, c) = (a', b', c') -> a = a' /\ c = c'.
Proof. intros H. injection H. auto. Qed.

Lemma date_key_length (t : Z) :
  0 <= t <= 253402300799999 -> List.length (date_key t) = 10%nat.
Proof.
  intros Ht. unfold date_key.
  assert (Hy := YearFromTime_four_digits t Ht).
  assert (Hm := MonthFromTime_range t). assert (Hd := DateFromTime_range t).
  rewrite !length_app, pad_4_length, !pad_2_length by lia. reflexivity.
Qed.

(** The first ten characters of the ISO string are the date key. *)
Lemma toISOString_date_key (t : Z) :
  0 <= t <= 253402300799999 ->
  exists iso, toISOString (Some t) = Ok iso /\ slice0 10 iso = date_key t.
Proof.
  intros Ht. assert (Hy := YearFromTime_four_digits t Ht).
  unfold toISOString.
  rewrite (leb_true 0), (leb_true _ 9999) by lia. cbn [andb].
  eexists. split; [reflexivity|]. unfold slice0.
  assert (Hlen := date_key_length t Ht). unfold date_key in *.
  match goal with
  | |- firstn 10 (?a ++ ?b ++ ?c ++ ?d ++ ?e ++ ?rest) = _ =>
      replace (a ++ b ++ c ++ d ++ e ++ rest)
        with ((a ++ b ++ c ++ d ++ e) ++ rest)
        by (rewrite <- !app_assoc; reflexivity)
  end.
  rewrite firstn_app, Hlen, Nat.sub_diag, firstn_O, app_nil_r.
  apply firstn_all2. rewrite Hlen. lia.
Qed.

(** Reading a padded numeral gives the number back, and what follows it. *)
Lemma take_digits_zeros (k : nat) (s : jsstring) (cnt : Z) :
  take_digits 10 (repeat 48 k ++ s) 0 cnt
  = take_digits 10 s 0 (cnt + Z.of_nat k).
Proof.
  revert cnt. induction k as [|k IH]; intros cnt.
  - cbn [repeat app]. f_equal. lia.
  - cbn [repeat app take_digits]. change (digit_val 10 48) with (Some 0).
    cbv iota. change (0 * 10 + 0) with 0. rewrite IH. f_equal. lia.
Qed.

Lemma take_digits_dec (z : Z) (tail : jsstring) (cnt : Z) :
  0 <= z -> ends_numeral tail ->
  exists cnt', take_digits 10 (dec z ++ tail) 0 cnt = (z, cnt', tail).
Proof.
  intros Hz Htail. destruct z as [|p|p]; [| |lia].
  - change (dec 0) with [48]. cbn [app take_digits].
    change (digit_val 10 48) with (Some 0). cbv iota.
    rewrite take_digits_stop by exact Htail. eauto.
  - destruct (dec_pos_shape p) as (c & rest & _ & Hdec & _).
    rewrite Hdec, take_digits_uint by exact Htail.
    rewrite DecimalPos.Unsigned.of_to. eauto.
Qed.

Lemma take_digits_pad (w : nat) (z : Z) (tail : jsstring) :
  0 <= z -> ends_numeral tail ->
  exists cnt, take_digits 10 (pad w z ++ tail) 0 0 = (z, cnt, tail).
Proof.
  intros Hz Htail. unfold pad. rewrite <- app_assoc, take_digits_zeros.
  apply take_digits_dec; assumption.
Qed.

(** A date key determines the day. *)
Lemma date_key_inj (t1 t2 : Z) :
  0 <= YearFromTime t1 -> 0 <= YearFromTime t2 ->
  date_key t1 = date_key t2 -> Day t1 = Day t2.
Proof.
  intros Hy1 Hy2 Hkey. unfold date_key in Hkey.
  assert (Hdash : forall s, ends_numeral (lit "-" ++ s)) by (intros; reflexivity).
  assert (Hm1 := MonthFromTime_range t1). assert (Hm2 := MonthFromTime_range t2).
  assert (Hd1 := DateFromTime_range t1). assert (Hd2 := DateFromTime_range t2).
  revert Hkey Hy1 Hy2 Hm1 Hm2 Hd1 Hd2.
  rewrite (Day_from_date t1), (Day_from_date t2).
  generalize (YearFromTime t1) (MonthFromTime t1) (DateFromTime t1)
             (YearFromTime t2) (MonthFromTime t2) (DateFromTime t2).
  intros y1 m1 d1 y2 m2 d2 Hkey Hy1 Hy2 Hm1 Hm2 Hd1 Hd2.
  destruct (take_digits_pad 4 y1 (lit "-" ++ pad 2 (m1 + 1)
                                    ++ lit "-" ++ pad 2 d1)
              Hy1 (Hdash _)) as [c1 E1].
  destruct (take_digits_pad 4 y2 (lit "-" ++ pad 2 (m2 + 1)
                                    ++ lit "-" ++ pad 2 d2)
              Hy2 (Hdash _)) as [c2 E2].
  rewrite Hkey, E2 in E1. apply triple_eq_inv in E1.
  destruct E1 as [Hyear Hrest]. apply app_inv_head in Hrest.
  destruct (take_digits_pad 2 (m1 + 1) (lit "-" ++ pad 2 d1)
              ltac:(lia) (Hdash _)) as [c3 E3].
  destruct (take_digits_pad 2 (m2 + 1) (lit "-" ++ pad 2 d2)
              ltac:(lia) (Hdash _)) as [c4 E4].
  rewrite <- Hrest, E4 in E3. apply triple_eq_inv in E3.
  destruct E3 as [Hmonth Hrest']. apply app_inv_head in Hrest'.
  destruct (take_digits_pad 2 d1 [] ltac:(lia) I) as [c5 E5].
  destruct (take_digits_pad 2 d2 [] ltac:(lia) I) as [c6 E6].
  rewrite !app_nil_r in E5, E6. rewrite <- Hrest', E6 in E5.
  apply triple_eq_inv in E5. destruct E5 as [Hdate _].
  replace m1 with m2 by lia. rewrite Hyear, Hdate. reflexivity.
Qed.

(** *** The pre-filled buckets *)

Lemma days_ago_range (h : Host) (i : nat) :
  clock_in_four_digit_years h -> (i <= 30)%nat ->
  0 <= days_ago h i <= 253402300799999.
Proof.
  unfold clock_in_four_digit_years, days_ago, msPerDay. intros Hc Hi. lia.
Qed.

Lemma days_ago_key_inj (h : Host) (i j : nat) :
  clock_in_four_digit_years h -> (i <= 30)%nat -> (j <= 30)%nat ->
  date_key (days_ago h i) = date_key (days_ago h j) -> i = j.
Proof.
  intros Hc Hi Hj Hkey.
  assert (Hri := days_ago_range h i Hc Hi).
  assert (Hrj := days_ago_range h j Hc Hj).
  apply date_key_inj in Hkey.
  - unfold days_ago, Day, msPerDay in Hkey. zdiv.
  - assert (H := YearFromTime_four_digits _ Hri). lia.
  - assert (H := YearFromTime_four_digits _ Hrj). lia.
Qed.

(** One round of the pre-fill loop with a fixed offset. *)
Lemma prefill_round (h : Host) (offset : Z) (i : nat)
  (buckets : object Bucket.t) :
  fixed_offset h offset -> clock_in_four_digit_years h -> (i <= 30)%nat ->
  prefill h (Some (Date_now h)) i buckets
  = let buckets' :=
      obj_set (date_key (days_ago h i))
              {| Bucket.count := 0; Bucket.volume := num_zero |} buckets in
    match i with
    | O => Ok buckets'
    | S i' => prefill h (Some (Date_now h)) i' buckets'
    end.
Proof.
  intros Hzone Hc Hi.
  assert (Hr := days_ago_range h i Hc Hi).
  assert (Hset := setDate_days_back h offset i Hzone ltac:(lia)).
  destruct (toISOString_date_key _ Hr) as (iso & Hiso & Hkey).
  destruct i as [|i']; cbn [prefill]; rewrite Hset, Hiso; cbn [bind];
    rewrite Hkey; reflexivity.
Qed.

Lemma prefill_keys (h : Host) (offset : Z) :
  fixed_offset h offset -> clock_in_four_digit_years h ->
  forall (i : nat) (buckets : object Bucket.t),
    (i <= 30)%nat ->
    (forall k, In k (map fst buckets) ->
               exists j, (i < j <= 30)%nat /\ k = date_key (days_ago h j)) ->
    exists buckets',
      prefill h (Some (Date_now h)) i buckets = Ok buckets'
      /\ map fst buckets'
         = map fst buckets
           ++ map (fun j => date_key (days_ago h j)) (rev (seq 0 (S i))).
Proof.
  intros Hzone Hc.
  assert (Hnew : forall i buckets,
             (i <= 30)%nat ->
             (forall k, In k (map fst buckets) ->
                exists j, (i < j <= 30)%nat /\ k = date_key (days_ago h j)) ->
             map fst (obj_set (date_key (days_ago h i))
                        {| Bucket.count := 0; Bucket.volume := num_zero |}
                        buckets)
             = map fst buckets ++ [date_key (days_ago h i)]).
  { intros i buckets Hi Hold. rewrite keys_obj_set.
    destruct (assoc (date_key (days_ago h i)) buckets) eqn:E; [|reflexivity].
    exfalso. assert (Hin : In (date_key (days_ago h i)) (map fst buckets)).
    { destruct (in_dec (list_eq_dec Z.eq_dec) (date_key (days_ago h i))
                  (map fst buckets)) as [Hin|Hout]; [exact Hin|].
      apply assoc_None in Hout. congruence. }
    destruct (Hold _ Hin) as (j & Hj & Hkey).
    apply days_ago_key_inj in Hkey; try assumption; lia. }
  induction i as [|i IH]; intros buckets Hi Hold;
    rewrite (prefill_round h offset) by assumption; cbv zeta.
  - eexists. split; [reflexivity|]. rewrite Hnew by assumption. reflexivity.
  - destruct (IH (obj_set (date_key (days_ago h (S i)))
                    {| Bucket.count := 0; Bucket.volume := num_zero |} buckets))
      as (buckets' & Hrun & Hkeys).
    + lia.
    + intros k Hk. rewrite Hnew in Hk by assumption.
      apply in_app_or in Hk. destruct Hk as [Hk|[<-|[]]].
      * destruct (Hold k Hk) as (j & Hj & ->). exists j. split; [lia|reflexivity].
      * exists (S i). split; [lia|reflexivity].
    + exists buckets'. split; [exact Hrun|]. rewrite Hkeys, Hnew by assumption.
      rewrite <- app_assoc. f_equal.
      rewrite (seq_S (S i)). rewrite rev_app_distr. reflexivity.
Qed.

(** X10.  Without changes of the UTC offset the growth series is complete.
    For a host whose local time is at a fixed offset from UTC and whose
    clock is in the years 1970 to 9999, the pre-fill loop creates exactly
    the buckets of the 31 consecutive UTC dates that end today, oldest
    first, and every non-empty fetch result gives a series of 31 points. *)
Theorem growth_series_complete (h : Host) (offset : Z)
  (Hzone : fixed_offset h offset)
  (Hclock : clock_in_four_digit_years h) :
  exists buckets,
    prefill h (Date_new h) 30 [] = Ok buckets
    /\ map fst buckets
       = map (fun j => date_key (days_ago h j)) (rev (seq 0 31))
    /\ forall ops out,
         ops <> [] -> growthData h (VArr ops) = Ok out ->
         List.length out = 31%nat.
Proof.
  assert (Hnow : Date_new h = Some (Date_now h)).
  { unfold Date_new, TimeClip. unfold clock_in_four_digit_years, msPerDay in Hclock.
    rewrite leb_true by lia. reflexivity. }
  destruct (prefill_keys h offset Hzone Hclock 30 []) as (buckets & Hrun & Hkeys).
  - lia.
  - intros k [].
  - exists buckets. rewrite Hnow. split; [exact Hrun|]. split; [exact Hkeys|].
    intros ops out Hne Hout.
    destruct (growthData_length h ops out Hne Hout) as (b & Hb & Hlen).
    rewrite Hnow, Hrun in Hb. injection Hb as <-.
    rewrite Hlen, <- (length_map fst buckets), Hkeys.
    rewrite length_app, !length_map, length_rev, length_seq. reflexivity.
Qed.

Lemma growth_series_complete_witness :
  exists buckets,
    prefill utc_host (Date_new utc_host) 30 [] = Ok buckets
    /\ map fst (firstn 2 buckets) = [lit "2024-03-05"; lit "2024-03-06"]
    /\ List.length buckets = 31%nat.
Proof.
  destruct (growth_series_complete utc_host 0) as (buckets & Hrun & Hkeys & _).
  - intros t isUTC. reflexivity.
  - unfold clock_in_four_digit_years. vm_compute. split; discriminate.
  - exists buckets. split; [exact Hrun|].
    vm_compute in Hrun. injection Hrun as <-. split; reflexivity.
Defined.

(** *** Chart labels *)

Lemma MonthFromTime_Day (a b : Z) :
  Day a = Day b -> MonthFromTime a = MonthFromTime b.
Proof.
  intros H. unfold MonthFromTime, DayWithinYear, YearFromTime. rewrite H.
  reflexivity.
Qed.

Lemma DateFromTime_Day (a b : Z) :
  Day a = Day b -> DateFromTime a = DateFromTime b.
Proof.
  intros H. unfold DateFromTime. rewrite (MonthFromTime_Day a b H).
  unfold DayWithinYear, YearFromTime. rewrite H. reflexivity.
Qed.

(** X11.  The label of a bucket is the local date of the UTC midnight that
    its key denotes.  With a fixed offset of less than a day: east of
    Greenwich (or on it) the label shows the date of the key; west of
    Greenwich it shows the day before. *)
Theorem chart_label_follows_local_date (h : Host) (offset t : Z)
  (data : Bucket.t)
  (Hzone : fixed_offset h offset)
  (Hoffset : - msPerDay <= offset < msPerDay)
  (Hparse : Date_parse h (date_key t) = Some (Day t * msPerDay)) :
  ChartData.date (chart_point h (date_key t, data))
  = let shown := if offset <? 0 then t - msPerDay else t in
    month_short (MonthFromTime shown) ++ lit " " ++ dec (DateFromTime shown).
Proof.
  unfold chart_point. cbn [ChartData.date]. rewrite Hparse.
  unfold toLocaleDateString_short.
  rewrite (LocalTime_fixed h offset) by exact Hzone. cbv zeta.
  assert (Hday : Day (Day t * msPerDay + offset)
                 = Day (if offset <? 0 then t - msPerDay else t)).
  { destruct (Z.ltb_spec offset 0); unfold Day, msPerDay in *; zdiv. }
  rewrite (MonthFromTime_Day _ _ Hday), (DateFromTime_Day _ _ Hday).
  reflexivity.
Qed.

Lemma chart_label_follows_local_date_witness :
  date_key 1712275200000 = lit "2024-04-05"
  /\ ChartData.date
       (chart_point bogota_host
          (lit "2024-04-05", {| Bucket.count := 0; Bucket.volume := num_zero |}))
     = lit "Apr 4".
Proof.
  split; [vm_compute; reflexivity|].
  change (lit "2024-04-05") with (date_key 1712275200000).
  rewrite (chart_label_follows_local_date bogota_host (-18000000)).
  - vm_compute. reflexivity.
  - intros t isUTC. reflexivity.
  - unfold msPerDay. lia.
  - vm_compute. reflexivity.
Defined.

(** *** Conservation of the counts *)

Lemma existsb_key (k : jsstring) (o : object Bucket.t) :
  existsb (jsstring_eqb k) (map fst o)
  = match assoc k o with Some _ => true | None => false end.
Proof.
  induction o as [|[k' a] o IH]; [reflexivity|].
  cbn [map fst existsb assoc]. destruct (jsstring_eqb k k'); [reflexivity|].
  exact IH.
Qed.

(** One operation adds one to the counts exactly when its day is the key of
    a bucket, and leaves the keys as they are. *)
Lemma accumulate_exact (buckets buckets' : object Bucket.t) (op : value) :
  accumulate buckets op = Ok buckets' ->
  total_count buckets'
  = total_count buckets + (if lands_in (map fst buckets) op then 1 else 0)
  /\ map fst buckets' = map fst buckets.
Proof.
  unfold accumulate, lands_in. intros H. inv_bind H. rewrite E.
  destruct (truthy x); cbn [andb].
  - inv_bind H. rewrite E0. inv_bind H. apply obj_get_ok in E1. subst x1.
    rewrite existsb_key.
    destruct (assoc x0 buckets) as [data|] eqn:Ea.
    + inv_bind H. injection H as <-. split.
      * rewrite (total_count_obj_set _ _ _ _ Ea). cbn [Bucket.count]. lia.
      * rewrite keys_obj_set, Ea. reflexivity.
    + injection H as <-. split; [lia|reflexivity].
  - injection H as <-. split; [lia|reflexivity].
Qed.

Lemma accumulate_fold_exact (ops : list value) :
  forall buckets buckets',
    foldM accumulate ops buckets = Ok buckets' ->
    total_count buckets'
    = total_count buckets
      + Z.of_nat (List.length (filter (lands_in (map fst buckets)) ops))
    /\ map fst buckets' = map fst buckets.
Proof.
  induction ops as [|op ops IH]; cbn [foldM]; intros b b' H.
  - injection H as <-. cbn. split; [lia|reflexivity].
  - inv_bind H. destruct (accumulate_exact _ _ _ E) as [Hc Hk].
    destruct (IH _ _ H) as [Hc' Hk']. rewrite Hk in Hc', Hk'.
    split; [|exact Hk']. cbn [filter].
    destruct (lands_in (map fst b) op); cbn [List.length]; lia.
Qed.

(** X12.  The series conserves the operations.  Whenever [getGrowthData]
    returns a series for a non-empty fetch result, its counts add up to
    exactly the number of fetched operations whose timestamp starts with
    the key of one of the pre-filled buckets: each of those is counted
    once, every other operation not at all. *)
Theorem growth_counts_conserved (h : Host) (ops : list value)
  (out : list ChartData.t)
  (Hne : ops <> [])
  (Hrun : growthData h (VArr ops) = Ok out) :
  exists buckets,
    prefill h (Date_new h) 30 [] = Ok buckets
    /\ chart_total out
       = Z.of_nat (List.length (filter (lands_in (map fst buckets)) ops)).
Proof.
  unfold growthData in Hrun. destruct ops as [|op ops]; [contradiction|].
  inv_bind Hrun. inv_bind Hrun. inv_bind Hrun. injection Hrun as <-.
  exists x. split; [exact E|].
  rewrite chart_total_map.
  apply Array_sort_perm in E1.
  rewrite <- (total_count_perm _ _ E1).
  rewrite (total_count_perm _ _ (Object_entries_perm x0)).
  destruct (accumulate_fold_exact _ _ _ E0) as [Hc _]. rewrite Hc.
  rewrite (total_count_zero x); [lia|].
  eapply prefill_zero; [exact E|constructor].
Qed.

Lemma growth_counts_conserved_witness :
  exists out,
    growthData utc_host (VArr [test_operation; october_operation]) = Ok out
    /\ chart_total out = 1.
Proof.
  destruct (growthData utc_host (VArr [test_operation; october_operation]))
    as [out|e] eqn:Hrun; [|vm_compute in Hrun; discriminate].
  exists out. split; [reflexivity|].
  assert (Hne : [test_operation; october_operation] <> []) by discriminate.
  destruct (growth_counts_conserved utc_host
              [test_operation; october_operation] out Hne Hrun)
    as (buckets & Hpre & Htotal).
  vm_compute in Hpre. injection Hpre as <-.
  rewrite Htotal. vm_compute. reflexivity.
Defined.

(** ** Affiliate statistics *)

Lemma count_of_nonneg (k : jsstring) (kd : event_kind) (events : list value) :
  0 <= count_of k kd events.
Proof. unfold count_of. lia. Qed.

Lemma count_of_snoc (k : jsstring) (kd : event_kind) (seen : list value)
  (event : value) :
  count_of k kd (seen ++ [event])
  = count_of k kd seen + (if counted k kd event then 1 else 0).
Proof.
  unfold count_of. rewrite filter_app, length_app. cbn [filter].
  destruct (counted k kd event); cbn [List.length]; lia.
Qed.

Lemma existsb_snoc {A : Type} (f : A -> bool) (l : list A) (a : A) :
  existsb f (l ++ [a]) = existsb f l || f a.
Proof. rewrite existsb_app. cbn [existsb]. rewrite orb_false_r. reflexivity. Qed.

(** A code that no event carries has no counts. *)
Lemma count_of_unmentioned (k : jsstring) (kd : event_kind)
  (events : list value) :
  existsb (mentions k) events = false -> count_of k kd events = 0.
Proof.
  unfold count_of. induction events as [|e l IH]; cbn [existsb filter];
    intros H; [reflexivity|].
  apply orb_false_elim in H. destruct H as [He Hl].
  unfold counted at 1. rewrite He. cbn [andb]. exact (IH Hl).
Qed.

Lemma counters_of_unmentioned (k : jsstring) (events : list value) :
  existsb (mentions k) events = false -> counters_of k events = no_counts.
Proof.
  intros H. unfold counters_of, no_counts.
  rewrite !count_of_unmentioned by exact H. reflexivity.
Qed.

Lemma event_code_prop (event : value) (k : jsstring) :
  event_code event = Ok k ->
  exists code ty,
    prop event (lit "affiliateCode") = Ok code /\ ToString code = Ok k
    /\ prop event (lit "eventType") = Ok ty.
Proof.
  unfold event_code. intros H. inv_bind H. exists x.
  destruct event; try discriminate; cbn [prop] in *;
    try (eexists; repeat split; eauto; fail).
  destruct (assoc (lit "eventType") props); eauto.
Qed.

(** The counters of [k] after one more event with that code. *)
Lemma counters_of_snoc_same (k : jsstring) (seen : list value)
  (event : value) :
  event_code event = Ok k ->
  counters_of k (seen ++ [event])
  = match kind_of event with
    | Some visit =>
        {| Counters.visits := count_of k visit seen + 1;
           Counters.clicks := count_of k click seen;
           Counters.conversions := count_of k conversion seen |}
    | Some click =>
        {| Counters.visits := count_of k visit seen;
           Counters.clicks := count_of k click seen + 1;
           Counters.conversions := count_of k conversion seen |}
    | Some conversion =>
        {| Counters.visits := count_of k visit seen;
           Counters.clicks := count_of k click seen;
           Counters.conversions := count_of k conversion seen + 1 |}
    | None => counters_of k seen
    end.
Proof.
  intros Hk. unfold counters_of. rewrite !count_of_snoc.
  unfold counted, mentions. rewrite Hk, jsstring_eqb_refl. cbn [andb].
  destruct (kind_of event) as [[| |]|]; cbn [event_kind_eqb];
    rewrite ?Z.add_0_r; reflexivity.
Qed.

Lemma counters_of_snoc_other (k a : jsstring) (seen : list value)
  (event : value) :
  event_code event = Ok k -> a <> k ->
  counters_of a (seen ++ [event]) = counters_of a seen
  /\ existsb (mentions a) (seen ++ [event]) = existsb (mentions a) seen.
Proof.
  intros Hk Hne.
  assert (Hm : mentions a event = false).
  { unfold mentions. rewrite Hk. apply jsstring_eqb_neq. congruence. }
  split.
  - unfold counters_of. rewrite !count_of_snoc. unfold counted.
    rewrite Hm. cbn [andb]. rewrite !Z.add_0_r. reflexivity.
  - rewrite existsb_snoc, Hm, orb_false_r. reflexivity.
Qed.

Lemma increment_ok (stats : object Counters.t) (k : jsstring)
  (c : Counters.t) (update : Counters.t -> Counters.t) :
  assoc k stats = Some c ->
  increment stats k update = Ok (obj_set k (update c) stats).
Proof.
  intros H. unfold increment, obj_get. rewrite H. reflexivity.
Qed.

Lemma stats_step (seen : list value) (stats : object Counters.t)
  (event : value) (k : jsstring) :
  event_code event = Ok k -> is_inherited k = false ->
  stats_of seen stats ->
  exists stats', count_event stats event = Ok stats'
                 /\ stats_of (seen ++ [event]) stats'.
Proof.
  intros Hk Hplain [Hnd Hassoc].
  destruct (event_code_prop event k Hk) as (code & ty & Hcode & Hkey & Hty).
  set (stats1 := match assoc k stats with
                 | Some _ => stats
                 | None => obj_set k no_counts stats
                 end).
  assert (Hnd1 : NoDup (map fst stats1)).
  { unfold stats1. destruct (assoc k stats); [exact Hnd|].
    apply NoDup_keys_obj_set. exact Hnd. }
  assert (Hk1 : assoc k stats1 = Some (counters_of k seen)).
  { unfold stats1. rewrite (Hassoc k).
    destruct (existsb (mentions k) seen) eqn:E.
    - rewrite (Hassoc k), E. reflexivity.
    - rewrite assoc_obj_set_same, counters_of_unmentioned by exact E.
      reflexivity. }
  assert (Hother : forall a, a <> k -> assoc a stats1 = assoc a stats).
  { intros a Ha. unfold stats1. destruct (assoc k stats); [reflexivity|].
    apply assoc_obj_set_other. exact Ha. }
  assert (Hrun : count_event stats event
                 = match kind_of event with
                   | Some _ =>
                       Ok (obj_set k (counters_of k (seen ++ [event])) stats1)
                   | None => Ok stats1
                   end).
  { unfold count_event. rewrite Hcode. cbn [bind]. rewrite Hkey. cbn [bind].
    unfold obj_get at 1.
    assert (Hget : (match assoc k stats with
                    | Some a => Ok (Some a)
                    | None => if is_inherited k then Throw Unmodelled
                              else Ok None
                    end) = Ok (assoc k stats)).
    { destruct (assoc k stats); [reflexivity|]. rewrite Hplain. reflexivity. }
    rewrite Hget. cbn [bind]. fold stats1. rewrite Hty. cbn [bind].
    rewrite (counters_of_snoc_same k seen event Hk).
    unfold kind_of. rewrite Hty.
    destruct (is_literal ty "visit");
      [rewrite (increment_ok _ _ _ _ Hk1); reflexivity|].
    destruct (is_literal ty "click");
      [rewrite (increment_ok _ _ _ _ Hk1); reflexivity|].
    destruct (is_literal ty "conversion");
      [rewrite (increment_ok _ _ _ _ Hk1); reflexivity|].
    reflexivity. }
  assert (Hmention : existsb (mentions k) (seen ++ [event]) = true).
  { rewrite existsb_snoc. unfold mentions at 2.
    rewrite Hk, jsstring_eqb_refl. apply orb_true_r. }
  rewrite Hrun.
  destruct (kind_of event) as [kd|] eqn:Ekind.
  - eexists. split; [reflexivity|]. split.
    + apply NoDup_keys_obj_set. exact Hnd1.
    + intros a. destruct (list_eq_dec Z.eq_dec a k) as [->|Hne].
      * rewrite assoc_obj_set_same, Hmention. reflexivity.
      * rewrite assoc_obj_set_other, Hother, Hassoc by exact Hne.
        destruct (counters_of_snoc_other k a seen event Hk Hne) as [-> ->].
        reflexivity.
  - eexists. split; [reflexivity|]. split; [exact Hnd1|].
    intros a. destruct (list_eq_dec Z.eq_dec a k) as [->|Hne].
    + rewrite Hk1, Hmention, (counters_of_snoc_same k seen event Hk), Ekind.
      reflexivity.
    + rewrite Hother, Hassoc by exact Hne.
      destruct (counters_of_snoc_other k a seen event Hk Hne) as [-> ->].
      reflexivity.
Qed.

Lemma stats_fold (events : list value) :
  forall seen stats,
    plain_codes events -> stats_of seen stats ->
    exists stats', foldM count_event events stats = Ok stats'
                   /\ stats_of (seen ++ events) stats'.
Proof.
  induction events as [|event events IH]; cbn [foldM]; intros seen stats Hp Hs.
  - rewrite app_nil_r. eauto.
  - inversion Hp as [|? ? (k & Hk & Hplain) Hp']; subst.
    destruct (stats_step seen stats event k Hk Hplain Hs) as (s1 & -> & Hs1).
    cbn [bind]. destruct (IH (seen ++ [event]) s1 Hp' Hs1) as (s2 & -> & Hs2).
    rewrite <- app_assoc in Hs2. eauto.
Qed.

Lemma stats_of_nil : stats_of [] [].
Proof. split; [constructor|]. intros k. reflexivity. Qed.

(** X13.  [getAffiliateStats] aggregates the listed events by code.  For a
    listing that is a non-empty array of records whose codes do not name a
    member of [Object.prototype], it returns one row per code that occurs,
    in non-increasing order of visits; the three counters of a row are the
    numbers of listed events with that code whose type is "visit", "click"
    and "conversion"; an event of any other type adds to no counter, but
    its code still gets a row. *)
Theorem affiliate_stats_aggregate (events : list value)
  (Hne : events <> [])
  (Hplain : plain_codes events) :
  exists rows,
    getAffiliateStats (Listed (VArr events)) = Ok rows
    /\ StronglySorted row_visits_desc rows
    /\ NoDup (map AffiliateRow.code rows)
    /\ (forall k, In k (map AffiliateRow.code rows)
                  <-> existsb (mentions k) events = true)
    /\ forall r, In r rows ->
         AffiliateRow.visits r = count_of (AffiliateRow.code r) visit events
         /\ AffiliateRow.clicks r = count_of (AffiliateRow.code r) click events
         /\ AffiliateRow.conversions r
            = count_of (AffiliateRow.code r) conversion events.
Proof.
  destruct (stats_fold events [] [] Hplain stats_of_nil)
    as (stats & Hfold & Hnd & Hassoc).
  cbn [app] in Hassoc.
  destruct (Array_sort_total by_visits_desc (Object_entries stats))
    as [entries Hsort].
  { intros a b _ _. unfold by_visits_desc. eauto. }
  assert (Hperm : Permutation stats entries).
  { rewrite <- (Object_entries_perm stats). apply Array_sort_perm in Hsort.
    exact Hsort. }
  assert (Hsorted : StronglySorted (desc_by (fun e => Counters.visits (snd e)))
                                   entries).
  { eapply Array_sort_sorted; [|exact Hsort].
    intros a b _ _. reflexivity. }
  assert (Hcodes : map AffiliateRow.code (map affiliate_row entries)
                   = map fst entries).
  { rewrite map_map. apply map_ext. intros [k c]. reflexivity. }
  exists (map affiliate_row entries).
  split; [|split; [|split; [|split]]].
  - unfold getAffiliateStats, aggregate_events.
    destruct events as [|e l]; [contradiction|].
    cbn [truthy negb has_length_zero orb iterate bind].
    rewrite Hfold. cbn [bind]. rewrite Hsort. reflexivity.
  - clear - Hsorted.
    induction Hsorted as [|e es Hs IH Hall]; cbn [map]; constructor; auto.
    rewrite Forall_forall in *. intros x Hx.
    apply in_map_iff in Hx. destruct Hx as ([k c] & <- & Hin).
    specialize (Hall _ Hin). destruct e as [k0 c0]. exact Hall.
  - rewrite Hcodes.
    apply (Permutation_NoDup (Permutation_map fst Hperm)). exact Hnd.
  - intros k. rewrite Hcodes. split.
    + intros Hin.
      apply (Permutation_in _ (Permutation_sym (Permutation_map fst Hperm)))
        in Hin.
      destruct (existsb (mentions k) events) eqn:E; [reflexivity|].
      specialize (Hassoc k). rewrite E in Hassoc.
      apply assoc_None in Hassoc. contradiction.
    + intros Hm. specialize (Hassoc k). rewrite Hm in Hassoc.
      apply assoc_In in Hassoc.
      apply (Permutation_in _ (Permutation_map fst Hperm)).
      apply in_map_iff. exists (k, counters_of k events). auto.
  - intros r Hin. apply in_map_iff in Hin.
    destruct Hin as ([k c] & <- & Hin). cbn [affiliate_row AffiliateRow.code
      AffiliateRow.visits AffiliateRow.clicks AffiliateRow.conversions].
    apply (Permutation_in _ (Permutation_sym Hperm)) in Hin.
    apply (In_assoc _ _ _ Hnd) in Hin.
    rewrite Hassoc in Hin.
    destruct (existsb (mentions k) events); [|discriminate].
    injection Hin as <-. repeat split.
Qed.

Lemma affiliate_stats_aggregate_witness :
  exists rows,
    getAffiliateStats (Listed sample_events) = Ok rows
    /\ map (fun r => (AffiliateRow.code r, AffiliateRow.visits r,
                      AffiliateRow.clicks r, AffiliateRow.conversions r)) rows
       = [(lit "acme", 2, 0, 1); (lit "zed", 1, 2, 0); (lit "solo", 0, 0, 0)]
    /\ StronglySorted row_visits_desc rows.
Proof.
  destruct (affiliate_stats_aggregate (elements sample_events))
    as (rows & Hrun & Hsorted & _).
  - discriminate.
  - unfold plain_codes. cbn [elements sample_events].
    repeat apply Forall_cons; try apply Forall_nil;
      eexists; (split; [vm_compute; reflexivity|vm_compute; reflexivity]).
  - exists rows. split; [exact Hrun|].
    vm_compute in Hrun. injection Hrun as <-. split; [reflexivity|].
    exact Hsorted.
Defined.

Lemma foldM_app {A S : Type} (f : S -> A -> result S) (l1 l2 : list A) :
  forall s, foldM f (l1 ++ l2) s = (s' <- foldM f l1 s ;; foldM f l2 s').
Proof.
  induction l1 as [|a l1 IH]; intros s; cbn [app foldM bind]; [reflexivity|].
  destruct (f s a); cbn [bind]; [apply IH|reflexivity].
Qed.

(** X14.  The report is all or nothing.  When the listing is an array in
    which some element is [null] or [undefined], and the events before it
    are records with plain codes, [getAffiliateStats] returns the empty
    list: the error is swallowed and the counts gathered so far are
    dropped. *)
Theorem affiliate_stats_all_or_nothing (good rest : list value) (bad : value)
  (Hgood : plain_codes good)
  (Hbad : is_nullish bad = true) :
  getAffiliateStats (Listed (VArr (good ++ bad :: rest))) = Ok [].
Proof.
  unfold getAffiliateStats, aggregate_events.
  assert (Hne : exists e l, good ++ bad :: rest = e :: l).
  { destruct good; cbn [app]; eauto. }
  destruct Hne as (e & l & Hne). rewrite Hne.
  cbn [truthy negb has_length_zero orb iterate bind]. rewrite <- Hne.
  rewrite foldM_app.
  destruct (stats_fold good [] [] Hgood stats_of_nil) as (stats & -> & _).
  cbn [bind foldM].
  assert (Hthrow : count_event stats bad = Throw TypeError).
  { destruct bad; try discriminate; reflexivity. }
  rewrite Hthrow. reflexivity.
Qed.

Lemma affiliate_stats_all_or_nothing_witness :
  getAffiliateStats
    (Listed (VArr [affiliate_event "acme" "visit"; VNull;
                   affiliate_event "zed" "click"]))
  = Ok [].
Proof.
  apply (affiliate_stats_all_or_nothing [affiliate_event "acme" "visit"]
           [affiliate_event "zed" "click"] VNull).
  - repeat constructor. eexists.
    split; [vm_compute; reflexivity|vm_compute; reflexivity].
  - reflexivity.
Defined.

(** ** The growth series on well-formed records *)

Lemma accumulate_total (buckets : object Bucket.t) (op : value) :
  growth_record op -> exists buckets', accumulate buckets op = Ok buckets'.
Proof.
  intros [(s & Hts & Hplain) (a & Ha & Hprim)].
  destruct (amount_of_primitive op a Ha Hprim) as [amt Hamt].
  destruct (assoc (slice0 10 s) buckets) as [data|] eqn:E.
  - destruct s as [|c s].
    + unfold accumulate, day_of. rewrite Hts. cbn [bind slice0 firstn truthy].
      eauto.
    + eexists. eapply accumulate_match; eauto. discriminate.
  - eexists. eapply accumulate_no_match; eauto.
Qed.

Lemma accumulate_fold_total (ops : list value) :
  Forall growth_record ops ->
  forall buckets, exists buckets', foldM accumulate ops buckets = Ok buckets'.
Proof.
  induction 1 as [|op ops Hop _ IH]; intros buckets; cbn [foldM]; [eauto|].
  destruct (accumulate_total buckets op Hop) as [b1 ->]. cbn [bind].
  apply IH.
Qed.

(** X15.  On well-formed records the growth series always comes out.  For
    a host with a fixed UTC offset and a clock in the years 1970 to 9999,
    and a non-empty fetch result made of records with a string timestamp
    and a primitive (or absent) amount, [getGrowthData]'s aggregation
    returns 31 points, and their counts add up to the number of fetched
    operations whose timestamp starts with one of the 31 UTC dates that
    end today. *)
Theorem growth_series_returns (h : Host) (offset : Z) (ops : list value)
  (Hzone : fixed_offset h offset)
  (Hclock : clock_in_four_digit_years h)
  (Hne : ops <> [])
  (Hrecords : Forall growth_record ops) :
  exists out,
    growthData h (VArr ops) = Ok out
    /\ List.length out = 31%nat
    /\ chart_total out
       = Z.of_nat (List.length (filter (lands_in (window_keys h)) ops)).
Proof.
  assert (Hnow : Date_new h = Some (Date_now h)).
  { unfold Date_new, TimeClip.
    unfold clock_in_four_digit_years, msPerDay in Hclock.
    rewrite leb_true by lia. reflexivity. }
  destruct (prefill_keys h offset Hzone Hclock 30 []) as (b0 & Hpre & Hkeys);
    [lia|intros k []|].
  cbn [map app] in Hkeys. fold (window_keys h) in Hkeys.
  destruct (accumulate_fold_total ops Hrecords b0) as [b1 Hfold].
  destruct (accumulate_fold_exact _ _ _ Hfold) as [Hcount Hsame].
  destruct (Array_sort_total (by_key h) (Object_entries b1)) as [entries Hsort].
  { intros a b _ _. unfold by_key. eauto. }
  assert (Hperm : Permutation b1 entries).
  { rewrite <- (Object_entries_perm b1). apply Array_sort_perm in Hsort.
    exact Hsort. }
  exists (map (chart_point h) entries). split; [|split].
  - unfold growthData. destruct ops as [|op ops]; [contradiction|].
    rewrite Hnow, Hpre. cbn [bind]. rewrite Hfold. cbn [bind].
    rewrite Hsort. reflexivity.
  - rewrite length_map, <- (Permutation_length Hperm).
    rewrite <- (length_map fst b1), Hsame, Hkeys. unfold window_keys.
    rewrite length_map, length_rev, length_seq. reflexivity.
  - rewrite chart_total_map, <- (total_count_perm _ _ Hperm), Hcount, Hkeys.
    rewrite (total_count_zero b0); [lia|].
    eapply prefill_zero; [exact Hpre|constructor].
Qed.

Lemma growth_series_returns_witness :
  exists out,
    growthData utc_host (VArr [test_operation; october_operation]) = Ok out
    /\ List.length out = 31%nat
    /\ chart_total out = 1.
Proof.
  destruct (growth_series_returns utc_host 0 [test_operation; october_operation])
    as (out & Hrun & Hlen & Htotal).
  - intros t isUTC. reflexivity.
  - unfold clock_in_four_digit_years. vm_compute. split; discriminate.
  - discriminate.
  - repeat constructor;
      eexists; (split; [vm_compute; reflexivity|vm_compute; reflexivity]).
  - exists out. split; [exact Hrun|]. split; [exact Hlen|].
    rewrite Htotal. vm_compute. reflexivity.
Defined.

(** *** The count of each day *)

Lemma lands_in_one (key : jsstring) (op : value) (day : value)
  (key0 : jsstring) :
  day_of op = Ok day -> truthy day = true -> ToString day = Ok key0 ->
  lands_in [key] op = jsstring_eqb key0 key.
Proof.
  intros Hd Ht Hk. unfold lands_in. rewrite Hd, Ht, Hk. cbn [andb existsb].
  apply orb_false_r.
Qed.

(** One operation adds one to the bucket of its day and leaves every other
    bucket as it is. *)
Lemma accumulate_key (buckets buckets' : object Bucket.t) (op : value)
  (key : jsstring) :
  accumulate buckets op = Ok buckets' ->
  option_map Bucket.count (assoc key buckets')
  = option_map (fun c => c + (if lands_in [key] op then 1 else 0))
               (option_map Bucket.count (assoc key buckets)).
Proof.
  unfold accumulate. intros H. inv_bind H.
  destruct (truthy x) eqn:Ht.
  - inv_bind H. inv_bind H. apply obj_get_ok in E1. subst x1.
    rewrite (lands_in_one key op x x0 E Ht E0).
    destruct (assoc x0 buckets) as [data|] eqn:Ea.
    + inv_bind H. injection H as <-.
      destruct (jsstring_eqb x0 key) eqn:Ek.
      * apply jsstring_eqb_eq in Ek. subst x0.
        rewrite assoc_obj_set_same, Ea. reflexivity.
      * rewrite assoc_obj_set_other.
        -- destruct (assoc key buckets); cbn [option_map]; [|reflexivity].
           rewrite Z.add_0_r. reflexivity.
        -- intros ->. rewrite jsstring_eqb_refl in Ek. discriminate.
    + injection H as <-.
      destruct (jsstring_eqb x0 key) eqn:Ek.
      * apply jsstring_eqb_eq in Ek. subst x0. rewrite Ea. reflexivity.
      * destruct (assoc key buckets); cbn [option_map]; [|reflexivity].
        rewrite Z.add_0_r. reflexivity.
  - injection H as <-. unfold lands_in. rewrite E, Ht. cbn [andb].
    destruct (assoc key buckets); cbn [option_map]; [|reflexivity].
    rewrite Z.add_0_r. reflexivity.
Qed.

Lemma accumulate_fold_key (ops : list value) (key : jsstring) :
  forall buckets buckets',
    foldM accumulate ops buckets = Ok buckets' ->
    option_map Bucket.count (assoc key buckets')
    = option_map (fun c => c + on_day key ops)
                 (option_map Bucket.count (assoc key buckets)).
Proof.
  unfold on_day.
  induction ops as [|op ops IH]; cbn [foldM]; intros b b' H.
  - injection H as <-. cbn [filter List.length].
    destruct (assoc key b); cbn [option_map]; [|reflexivity].
    rewrite Z.add_0_r. reflexivity.
  - inv_bind H. rewrite (IH _ _ H), (accumulate_key _ _ _ key E).
    cbn [filter].
    destruct (assoc key b); cbn [option_map]; [|reflexivity].
    destruct (lands_in [key] op); cbn [List.length]; f_equal; lia.
Qed.

Lemma prefill_NoDup (h : Host) (now : option Z) (i : nat) :
  forall buckets buckets',
    prefill h now i buckets = Ok buckets' ->
    NoDup (map fst buckets) -> NoDup (map fst buckets').
Proof.
  induction i as [|i IH]; cbn [prefill]; intros b b' H Hnd.
  - inv_bind H. injection H as <-. apply NoDup_keys_obj_set. exact Hnd.
  - inv_bind H. eapply IH; [exact H|]. apply NoDup_keys_obj_set. exact Hnd.
Qed.

(** *** Entries and order *)

Lemma Object_entries_plain {A : Type} (o : object A) :
  Forall (fun e => array_index (fst e) = None) o -> Object_entries o = o.
Proof.
  intros H. unfold Object_entries.
  assert (Hfold : forall acc,
             fold_left (fun acc e =>
                          match array_index (fst e) with
                          | Some i => insert_index i e acc
                          | None => acc
                          end) o acc = acc).
  { induction H as [|e o He _ IH]; intros acc; cbn [fold_left]; [reflexivity|].
    rewrite He. apply IH. }
  rewrite Hfold. cbn [map app]. clear Hfold.
  induction H as [|e o He _ IH]; cbn [filter]; [reflexivity|].
  rewrite He, IH. reflexivity.
Qed.

(** A date key is not an array index. *)
Lemma date_key_not_index (t : Z) :
  0 <= t <= 253402300799999 -> array_index (date_key t) = None.
Proof.
  intros Ht. assert (Hlen := date_key_length t Ht).
  assert (Hy := YearFromTime_four_digits t Ht).
  assert (Hread : exists cnt,
             take_digits 10 (date_key t) 0 0
             = (YearFromTime t, cnt,
                lit "-" ++ pad 2 (MonthFromTime t + 1)
                  ++ lit "-" ++ pad 2 (DateFromTime t))).
  { apply take_digits_pad; [lia|reflexivity]. }
  destruct Hread as [cnt Hread].
  unfold array_index. rewrite Hread.
  destruct (date_key t) as [|c [|c' k]]; try discriminate.
  destruct c as [|p|p]; try reflexivity;
    repeat (destruct p as [p|p|]; try reflexivity).
Qed.

Lemma sort_insert_last {A : Type} (comparefn : A -> A -> result (option Z))
  (x : A) (acc : list A) :
  Forall (fun y => exists c, comparefn x y = Ok c /\ 0 <= order c) acc ->
  sort_insert comparefn x acc = Ok (acc ++ [x]).
Proof.
  induction 1 as [|y acc (c & Hc & Hpos) _ IH]; cbn [sort_insert app];
    [reflexivity|].
  rewrite Hc. cbn [bind]. rewrite ltb_false by exact Hpos.
  rewrite IH. reflexivity.
Qed.

(** Sorting a list that is already in order returns it unchanged. *)
Lemma Array_sort_in_order {A : Type} (comparefn : A -> A -> result (option Z))
  (l : list A) :
  StronglySorted (fun a b => exists c, comparefn b a = Ok c /\ 0 <= order c) l ->
  Array_sort comparefn l = Ok l.
Proof.
  intros Hs. unfold Array_sort.
  assert (Hgen : forall acc,
             Forall (fun a => Forall (fun b => exists c, comparefn b a = Ok c
                                                          /\ 0 <= order c) l) acc ->
             foldM (fun acc x => sort_insert comparefn x acc) l acc
             = Ok (acc ++ l)).
  { induction Hs as [|a l Hs IH Ha]; intros acc Hacc; cbn [foldM].
    - rewrite app_nil_r. reflexivity.
    - rewrite sort_insert_last.
      + cbn [bind]. rewrite IH.
        * rewrite <- app_assoc. reflexivity.
        * apply Forall_app. split.
          -- eapply Forall_impl; [|exact Hacc]. intros y Hy.
             inversion Hy; assumption.
          -- constructor; [exact Ha|constructor].
      + eapply Forall_impl; [|exact Hacc]. intros y Hy.
        inversion Hy; assumption. }
  apply (Hgen []). constructor.
Qed.

(** X16.  Each point of the growth series counts the operations of its
    day.  For a host with a fixed UTC offset, a clock in the years 1970 to
    9999 and a collation that keeps date keys in calendar order, and a
    non-empty fetch result of well-formed records, the series has one point
    per UTC date of the window, oldest first, and the count of a point is
    the number of fetched operations whose timestamp starts with that
    date. *)
Theorem growth_series_per_day (h : Host) (offset : Z) (ops : list value)
  (Hzone : fixed_offset h offset)
  (Hclock : clock_in_four_digit_years h)
  (Hcollate : collates_dates h)
  (Hne : ops <> [])
  (Hrecords : Forall growth_record ops) :
  exists out,
    growthData h (VArr ops) = Ok out
    /\ map ChartData.count out
       = map (fun key => on_day key ops) (window_keys h).
Proof.
  assert (Hnow : Date_new h = Some (Date_now h)).
  { unfold Date_new, TimeClip.
    unfold clock_in_four_digit_years, msPerDay in Hclock.
    rewrite leb_true by lia. reflexivity. }
  destruct (prefill_keys h offset Hzone Hclock 30 []) as (b0 & Hpre & Hkeys);
    [lia|intros k []|].
  cbn [map app] in Hkeys. fold (window_keys h) in Hkeys.
  assert (Hnd0 : NoDup (map fst b0)).
  { eapply prefill_NoDup; [exact Hpre|constructor]. }
  assert (Hzero := prefill_zero _ _ _ _ _ Hpre (Forall_nil _)).
  destruct (accumulate_fold_total ops Hrecords b0) as [b1 Hfold].
  destruct (accumulate_fold_exact _ _ _ Hfold) as [_ Hsame].
  assert (Hplain : Object_entries b1 = b1).
  { apply Object_entries_plain. apply Forall_forall. intros e He.
    assert (Hin : In (fst e) (window_keys h)).
    { rewrite <- Hkeys, <- Hsame. apply in_map. exact He. }
    unfold window_keys in Hin. apply in_map_iff in Hin.
    destruct Hin as (j & <- & Hj). apply in_rev, in_seq in Hj.
    apply date_key_not_index. apply days_ago_range; [exact Hclock|lia]. }
  assert (Hsort : Array_sort (by_key h) b1 = Ok b1).
  { apply Array_sort_in_order.
    assert (Hs : StronglySorted
                   (fun a b => 0 <= localeCompare h b a) (map fst b1)).
    { rewrite Hsame, Hkeys. exact Hcollate. }
    clear - Hs. induction b1 as [|e b1 IH]; [constructor|].
    cbn [map] in Hs. inversion Hs as [|? ? Hs' Hall]; subst.
    constructor; [apply IH; exact Hs'|].
    rewrite Forall_forall in *. intros y Hy.
    exists (Some (localeCompare h (fst y) (fst e))). split; [reflexivity|].
    apply Hall. apply in_map. exact Hy. }
  exists (map (chart_point h) b1). split.
  - unfold growthData. destruct ops as [|op ops]; [contradiction|].
    rewrite Hnow, Hpre. cbn [bind]. rewrite Hfold. cbn [bind].
    rewrite Hplain, Hsort. reflexivity.
  - rewrite <- Hkeys, <- Hsame, !map_map. apply map_ext_in.
    intros [k d] Hin. cbn [chart_point ChartData.count fst].
    assert (Hnd1 : NoDup (map fst b1)) by (rewrite Hsame; exact Hnd0).
    assert (H1 := In_assoc _ _ _ Hnd1 Hin).
    assert (Hk := accumulate_fold_key ops k _ _ Hfold).
    rewrite H1 in Hk. cbn [option_map] in Hk.
    destruct (assoc k b0) as [d0|] eqn:E0; cbn [option_map] in Hk;
      [|discriminate].
    assert (Hd0 := Forall_assoc (fun d => Bucket.count d = 0) _ _ _ Hzero E0).
    cbn beta in Hd0. injection Hk as Hk. lia.
Qed.

Lemma growth_series_per_day_witness :
  exists out,
    growthData utc_host (VArr [test_operation; october_operation;
                               test_operation]) = Ok out
    /\ map ChartData.count (skipn 25 out) = [0; 2; 0; 0; 0; 0].
Proof.
  destruct (growth_series_per_day utc_host 0
              [test_operation; october_operation; test_operation])
    as (out & Hrun & Hcounts).
  - intros t isUTC. reflexivity.
  - unfold clock_in_four_digit_years. vm_compute. split; discriminate.
  - unfold collates_dates.
    let keys := eval vm_compute in (window_keys utc_host) in
    change (window_keys utc_host) with keys.
    change (localeCompare utc_host) with compare_code_units.
    repeat match goal with
           | |- StronglySorted _ _ => constructor
           | |- Forall _ _ => constructor
           | |- 0 <= _ => vm_compute; discriminate
           end.
  - discriminate.
  - repeat constructor;
      eexists; (split; [vm_compute; reflexivity|vm_compute; reflexivity]).
  - exists out. split; [exact Hrun|].
    rewrite <- skipn_map, Hcounts. vm_compute. reflexivity.
Defined.

(** ** Renewal labels *)

Lemma is_hex_digit_spec (c : Z) : is_hex_digit c = true <-> hex_char c.
Proof.
  unfold is_hex_digit, hex_char.
  rewrite !orb_true_iff, !andb_true_iff, !Z.leb_le. tauto.
Qed.

(** The pattern accepts exactly the non-empty strings of hex digits. *)
Lemma test_hex_spec (s : jsstring) :
  test_hex s = true <-> s <> [] /\ Forall hex_char s.
Proof.
  unfold test_hex. destruct s as [|c s].
  - split; [discriminate|intros [H _]; contradiction].
  - rewrite forallb_forall, Forall_forall. split.
    + intros H. split; [discriminate|].
      intros x Hx. apply is_hex_digit_spec, H, Hx.
    + intros [_ H] x Hx. apply is_hex_digit_spec, H, Hx.
Qed.

Lemma hex_digit_hex_char (upper : bool) (v : Z) :
  0 <= v < 16 -> hex_char (hex_digit upper v).
Proof.
  intros Hv. unfold hex_digit, hex_char.
  destruct (Z.ltb_spec v 10); destruct upper; lia.
Qed.

Lemma to_hex_hex_chars (upper : bool) (bytes : list Z) :
  Forall (fun b => 0 <= b < 256) bytes -> Forall hex_char (to_hex upper bytes).
Proof.
  induction 1 as [|b bytes Hb _ IH]; [constructor|].
  unfold to_hex in *. cbn [flat_map]. unfold hex_of_byte at 1. cbn [app].
  constructor; [apply hex_digit_hex_char; zdiv|].
  constructor; [apply hex_digit_hex_char; zdiv|exact IH].
Qed.

(** The decoder on the hex string of a UTF-8 encoding. *)
Lemma hexToUtf8_to_hex (upper : bool) (cps : list Z) :
  forallb scalar_value cps = true -> hd 0 cps <> 65279 ->
  hexToUtf8 (VStr (to_hex upper (flat_map utf8_encode cps)))
  = VStr (flat_map utf16 cps).
Proof.
  intros Hscalar Hbom.
  assert (Hbytes := utf8_encode_all_bytes cps Hscalar).
  rewrite hexToUtf8_bytes, match_pairs_to_hex by exact Hbytes.
  rewrite map_map.
  assert (Hback : map (fun b => ToUint8 (parseInt (hex_of_byte upper b) 16))
                      (flat_map utf8_encode cps)
                  = flat_map utf8_encode cps).
  { induction Hbytes as [|b l Hb _ IH]; [reflexivity|].
    cbn [map]. rewrite hex_byte_back_all by exact Hb. rewrite IH.
    reflexivity. }
  rewrite Hback, decode_without_bom.
  - rewrite utf8_run_encode_all by exact Hscalar. reflexivity.
  - intros rest. apply utf8_encode_not_bom; assumption.
Qed.

Lemma renew_item_domain (op : value) (ev : ActivityItem.t) (s : jsstring) :
  renew_label op = Ok (VStr s) -> renew_item op = Ok ev ->
  exists name,
    ToString (if test_hex s then hexToUtf8 (VStr s)
              else or_else (VStr s) unknown) = Ok name
    /\ ActivityItem.domain ev = name ++ lit ".tez".
Proof.
  intros Hlabel Hitem.
  unfold renew_label in Hlabel. inv_bind Hlabel. injection Hlabel as Hl.
  unfold renew_item in Hitem. rewrite E in Hitem. cbn [bind] in Hitem.
  rewrite Hl in Hitem. cbn [is_string andb] in Hitem.
  repeat inv_bind Hitem. injection Hitem as <-. cbn [ActivityItem.domain].
  eauto.
Qed.

(** X6.  A renewal shows its label as it is unless the label consists of
    hex digits only.  For a non-empty string label: when every character is
    a decimal digit or a letter from a to f, in either case, the domain is
    the decoded label followed by ".tez" (so the hex string of the UTF-8
    encoding of a name gives that name); when some character is anything
    else, the domain is the label itself followed by ".tez". *)
Theorem renewal_label_kept_or_decoded (op : value) (ev : ActivityItem.t)
  (s : jsstring)
  (Hlabel : renew_label op = Ok (VStr s))
  (Hne : s <> [])
  (Hitem : renew_item op = Ok ev) :
  (Forall hex_char s ->
   VStr (ActivityItem.domain ev)
   = match hexToUtf8 (VStr s) with
     | VStr name => VStr (name ++ lit ".tez")
     | other => other
     end)
  /\ (forall upper cps,
        forallb scalar_value cps = true -> hd 0 cps <> 65279 ->
        s = to_hex upper (flat_map utf8_encode cps) ->
        ActivityItem.domain ev = flat_map utf16 cps ++ lit ".tez")
  /\ (forall c, In c s -> ~ hex_char c ->
        ActivityItem.domain ev = s ++ lit ".tez").
Proof.
  destruct (renew_item_domain op ev s Hlabel Hitem) as (name & Hname & Hdom).
  split; [|split].
  - intros Hhex.
    rewrite (proj2 (test_hex_spec s) (conj Hne Hhex)) in Hname.
    rewrite hexToUtf8_bytes in *. cbn [ToString] in Hname.
    injection Hname as <-. rewrite Hdom. reflexivity.
  - intros upper cps Hscalar Hbom ->.
    assert (Hhex : Forall hex_char (to_hex upper (flat_map utf8_encode cps))).
    { apply to_hex_hex_chars, utf8_encode_all_bytes, Hscalar. }
    rewrite (proj2 (test_hex_spec _) (conj Hne Hhex)) in Hname.
    rewrite hexToUtf8_to_hex in Hname by assumption. cbn [ToString] in Hname.
    injection Hname as <-. exact Hdom.
  - intros c Hin Hnot.
    assert (Hfalse : test_hex s = false).
    { destruct (test_hex s) eqn:E; [|reflexivity].
      apply test_hex_spec in E. destruct E as [_ Hall].
      rewrite Forall_forall in Hall. destruct (Hnot (Hall c Hin)). }
    rewrite Hfalse in Hname. unfold or_else in Hname.
    destruct s as [|c0 s]; [contradiction|].
    cbn [truthy ToString] in Hname. injection Hname as <-. exact Hdom.
Qed.

(** The label "C3A9" is the hex string, in upper case, of the UTF-8
    encoding of U+00E9; the label "alice" has characters that are not hex
    digits. *)
Lemma renewal_label_kept_or_decoded_witness :
  (exists ev, renew_item (renewal_of "C3A9") = Ok ev
              /\ ActivityItem.domain ev = 233 :: lit ".tez")
  /\ (exists ev, renew_item (renewal_of "alice") = Ok ev
                 /\ ActivityItem.domain ev = lit "alice.tez").
Proof.
  split.
  - destruct (renew_item (renewal_of "C3A9")) as [ev|e] eqn:Hitem;
      [|vm_compute in Hitem; discriminate].
    exists ev. split; [reflexivity|].
    destruct (renewal_label_kept_or_decoded (renewal_of "C3A9") ev (lit "C3A9"))
      as (_ & Hdecoded & _).
    + reflexivity.
    + discriminate.
    + exact Hitem.
    + apply (Hdecoded true [233]).
      * reflexivity.
      * cbn [hd]. lia.
      * vm_compute. reflexivity.
  - destruct (renew_item (renewal_of "alice")) as [ev|e] eqn:Hitem;
      [|vm_compute in Hitem; discriminate].
    exists ev. split; [reflexivity|].
    destruct (renewal_label_kept_or_decoded (renewal_of "alice") ev (lit "alice"))
      as (_ & _ & Hkept).
    + reflexivity.
    + discriminate.
    + exact Hitem.
    + apply (Hkept 108).
      * vm_compute. right; left. reflexivity.
      * unfold hex_char. lia.
Defined.
